(** * Kropki Sudoku solver: a shallow embedding of [solver.py]

    The Python program keeps one mutable 9x9 board of [Variable] objects and
    mutates it in place.  Here every function takes the board and returns the
    board it leaves behind (explicit state passing).  Python exceptions
    (an index out of range, a failed [int()], an unbound local, unpacking
    [None]) are results of their own, so that nothing is hidden by a default
    value. *)

From Stdlib Require Import ZArith String DecimalString DecimalZ Lia.
From stdpp Require Import base tactics option list sorting strings.

Open Scope Z_scope.

(** ** Results of Python calls *)

Inductive exn : Type :=
  | IndexError
  | ValueError
  | UnboundLocalError
  | TypeError.

(** [OutOfFuel] is the only constructor with no Python counterpart: the
    recursive [backtrack] is bounded by a fuel argument. *)
Inductive result (A : Type) : Type :=
  | Ret (a : A)
  | Raise (e : exn)
  | OutOfFuel.

Arguments Ret {A} a.
Arguments Raise {A} e.
Arguments OutOfFuel {A}.

#[global] Instance result_ret : MRet result := fun A a => Ret a.

#[global] Instance result_bind : MBind result := fun A B f m =>
  match m with
  | Ret a => f a
  | Raise e => Raise e
  | OutOfFuel => OutOfFuel
  end.

(** ** Python primitives *)

(** [range(lo, hi)] *)
Definition range (lo hi : Z) : list Z :=
  map (fun k : nat => lo + Z.of_nat k) (seq 0 (Z.to_nat (hi - lo))).

(** [len(l)] *)
Definition len {A} (l : list A) : Z := Z.of_nat (length l).

(** The position a Python index denotes: negative indices count from the
    end, anything else out of range raises [IndexError]. *)
Definition index {A} (l : list A) (i : Z) : result nat :=
  if (0 <=? i) && (i <? len l) then Ret (Z.to_nat i)
  else if (- len l <=? i) && (i <? 0) then Ret (Z.to_nat (len l + i))
  else Raise IndexError.

(** [l[i]] *)
Definition getitem {A} (l : list A) (i : Z) : result A :=
  k ← index l i;
  match l !! k with
  | Some x => Ret x
  | None => Raise IndexError
  end.

(** [l[i] = x] *)
Definition setitem {A} (l : list A) (i : Z) (x : A) : result (list A) :=
  k ← index l i;
  Ret (<[k := x]> l).

(** [str(z)] for an integer. *)
Definition py_str (z : Z) : string := NilZero.string_of_int (Z.to_int z).

(** [int(s)] for a string: an optional minus sign and decimal digits.
    (Python also strips blanks and accepts a plus sign and underscores; no
    board this development reasons about holds such a string.) *)
Definition py_int (s : string) : result Z :=
  match NilZero.int_of_string s with
  | Some d => Ret (Z.of_int d)
  | None => Raise ValueError
  end.

(** [sum(l)] *)
Definition sum (l : list Z) : Z := fold_left Z.add l 0.

(** [x in l] on a list of integers. *)
Definition py_in (x : Z) (l : list Z) : bool := existsb (Z.eqb x) l.

(** ** The data model *)

Definition NUM_ROWS : Z := 9.
Definition NUM_COLS : Z := 9.
Definition DOMAIN : list Z := [1; 1; 1; 1; 1; 1; 1; 1; 1].

(** class [Variable] ([Variable] is a reserved word here, hence [Var]):
    [value] is the string "0" (unassigned) or a digit;
    [domain] holds 1 at index [d-1] when digit [d] is still possible; the four
    dot fields hold "0" (none), "1" (white) or "2" (black). *)
Record Var : Type := mkVar {
  value : string;
  domain : list Z;
  up : string;
  down : string;
  left : string;
  right : string
}.

#[global] Instance Var_inhabited : Inhabited Var :=
  populate (mkVar "0" DOMAIN "0" "0" "0" "0").

Definition with_value (v : Var) (s : string) : Var :=
  mkVar s (domain v) (up v) (down v) (left v) (right v).

Definition with_domain (v : Var) (d : list Z) : Var :=
  mkVar (value v) d (up v) (down v) (left v) (right v).

(** [Variable.assigned] *)
Definition assigned (v : Var) : bool := negb (String.eqb (value v) "0").

(** [Variable.remaining_value_count] *)
Definition remaining_value_count (v : Var) : Z := sum (domain v).

(** The board is a list of rows.  Every cell is an object of its own (as
    [parse_file] builds it), so a write to one cell is seen through no other
    position. *)
Abbreviation Board := (list (list Var)).

(** A position, and a change record: positions with the domain saved there. *)
Abbreviation Pos := (Z * Z)%type.
Abbreviation Original := (list (Z * Z * list Z)).

(** [board[i][j]] *)
Definition cell (b : Board) (i j : Z) : result Var :=
  row ← getitem b i;
  getitem row j.

(** The board after the object at [board[i][j]] has become [c]. *)
Definition set_cell (b : Board) (i j : Z) (c : Var) : result Board :=
  row ← getitem b i;
  row' ← setitem row j c;
  setitem b i row'.

(** [board[i][j].value = s] *)
Definition set_value (b : Board) (i j : Z) (s : string) : result Board :=
  var ← cell b i j;
  set_cell b i j (with_value var s).

(** [board[i][j].domain = d] *)
Definition set_domain (b : Board) (i j : Z) (d : list Z) : result Board :=
  var ← cell b i j;
  set_cell b i j (with_domain var d).

(** [board[i][j].domain[k] = 0] *)
Definition zero_entry (b : Board) (i j k : Z) : result Board :=
  var ← cell b i j;
  d ← setitem (domain var) k 0;
  set_cell b i j (with_domain var d).

(** ** [dot_remains] *)

Definition dot_remains (dot_type : string) (valint : Z) : result (list Z) :=
  if String.eqb dot_type "1" then
    if valint =? 1 then Ret [valint + 1]
    else if valint =? 9 then Ret [valint - 1]
    else Ret [valint - 1; valint + 1]
  else if String.eqb dot_type "2" then
    if (valint `mod` 2 =? 0) && (valint <=? 4) then Ret [valint `div` 2; valint * 2]
    else if (valint `mod` 2 =? 0) && (valint >? 4) then Ret [valint `div` 2]
    else if (valint `mod` 2 =? 1) && (valint <=? 3) then Ret [valint * 2]
    else if (valint `mod` 2 =? 1) && (valint >? 3) then Ret []
    else Raise UnboundLocalError
  else Raise UnboundLocalError.

(** ** [box_indexes] *)

Definition box_indexes (i j : Z) : list Pos :=
  let istart := (i `div` 3) * 3 in
  let jstart := (j `div` 3) * 3 in
  let ilst := [istart; istart; istart; istart + 1; istart + 1; istart + 1;
               istart + 2; istart + 2; istart + 2] in
  let jlst := [jstart; jstart + 1; jstart + 2; jstart; jstart + 1; jstart + 2;
               jstart; jstart + 1; jstart + 2] in
  zip ilst jlst.

(** The three neighbour loops of [update_neighbors], [forward_check] and
    [unassigned_neighbors_count] run over the same positions: the row, the
    column and the box of [(ivar, jvar)], each behind its first [continue]. *)
Definition row_cells (ivar jvar : Z) : list Pos :=
  filter (fun p : Pos => p.2 ≠ jvar) (map (fun k => (ivar, k)) (range 0 NUM_COLS)).

Definition col_cells (ivar jvar : Z) : list Pos :=
  filter (fun p : Pos => p.1 ≠ ivar) (map (fun k => (k, jvar)) (range 0 NUM_ROWS)).

Definition box_cells (ivar jvar : Z) : list Pos :=
  filter (fun p : Pos => ¬ (p.1 = ivar ∨ p.2 = jvar)) (box_indexes ivar jvar).

(** ** [assignment_complete] *)

Fixpoint all_assigned (b : Board) (cells : list Pos) : result bool :=
  match cells with
  | [] => Ret true
  | (i, j) :: rest =>
      var ← cell b i j;
      if assigned var then all_assigned b rest else Ret false
  end.

(** Row-major scan: [for i in range(NUM_ROWS): for j in range(NUM_COLS)]. *)
Definition scan : list Pos :=
  i ← range 0 NUM_ROWS; j ← range 0 NUM_COLS; [(i, j)].

Definition assignment_complete (b : Board) : result bool := all_assigned b scan.

(** ** [update_neighbors]: the initial sweep of one given clue *)

(** [board[k][l].domain[valint-1] = 0] for every unassigned cell of [cells]. *)
Fixpoint clear_loop (b : Board) (valint : Z) (cells : list Pos) : result Board :=
  match cells with
  | [] => Ret b
  | (k, l) :: rest =>
      var ← cell b k l;
      if assigned var then clear_loop b valint rest
      else
        b' ← zero_entry b k l (valint - 1);
        clear_loop b' valint rest
  end.

(** [for k in ks: if k + 1 not in remain: board[i][j].domain[k] = 0] *)
Fixpoint clear_not_in (b : Board) (i j : Z) (remain : list Z) (ks : list Z)
  : result Board :=
  match ks with
  | [] => Ret b
  | k :: rest =>
      if negb (py_in (k + 1) remain) then
        b' ← zero_entry b i j k;
        clear_not_in b' i j remain rest
      else clear_not_in b i j remain rest
  end.

(** One dot direction of [update_neighbors]: [dot] is the field of the
    assigned cell, [(k, l)] the neighbour on that side.  The neighbour is
    only looked at when the field is not "0". *)
Definition dot_clear (b : Board) (dot : string) (valint : Z) (k l : Z)
  : result Board :=
  if String.eqb dot "0" then Ret b
  else
    nb ← cell b k l;
    if assigned nb then Ret b
    else
      remain ← dot_remains dot valint;
      clear_not_in b k l remain (range 0 (len (domain nb))).

Definition update_neighbors (b : Board) (ivar jvar : Z) : result Board :=
  var ← cell b ivar jvar;
  valint ← py_int (value var);
  b ← clear_loop b valint (row_cells ivar jvar);
  b ← clear_loop b valint (col_cells ivar jvar);
  b ← clear_loop b valint (box_cells ivar jvar);
  var ← cell b ivar jvar;
  b ← dot_clear b (up var) valint (ivar - 1) jvar;
  b ← dot_clear b (down var) valint (ivar + 1) jvar;
  b ← dot_clear b (left var) valint ivar (jvar - 1);
  dot_clear b (right var) valint ivar (jvar + 1).

(** The last loop of [parse_file]: every given clue is swept once, in
    row-major order. *)
Fixpoint sweep_loop (b : Board) (cells : list Pos) : result Board :=
  match cells with
  | [] => Ret b
  | (i, j) :: rest =>
      var ← cell b i j;
      if negb (assigned var) then sweep_loop b rest
      else
        b' ← update_neighbors b i j;
        sweep_loop b' rest
  end.

Definition initial_sweep (b : Board) : result Board := sweep_loop b scan.

(** ** [forward_check] *)

(** The first three loops: the domain of every unassigned neighbour is
    copied into the change record. *)
Fixpoint save_loop (b : Board) (cells : list Pos) (original : Original)
  : result Original :=
  match cells with
  | [] => Ret original
  | (k, l) :: rest =>
      var ← cell b k l;
      if assigned var then save_loop b rest original
      else save_loop b rest (original ++ [((k, l), domain var)])
  end.

(** The next three loops: the value is cleared from every unassigned
    neighbour; the flag is [false] when the loop left through
    [return False, original]. *)
Fixpoint prune_loop (b : Board) (valint : Z) (cells : list Pos)
  : result (Board * bool) :=
  match cells with
  | [] => Ret (b, true)
  | (k, l) :: rest =>
      var ← cell b k l;
      if assigned var then prune_loop b valint rest
      else
        b' ← zero_entry b k l (valint - 1);
        var' ← cell b' k l;
        if remaining_value_count var' =? 0 then Ret (b', false)
        else prune_loop b' valint rest
  end.

(** One dot direction of [forward_check]. *)
Definition dot_prune (b : Board) (dot : string) (valint : Z) (k l : Z)
  : result (Board * bool) :=
  if String.eqb dot "0" then Ret (b, true)
  else
    nb ← cell b k l;
    if assigned nb then Ret (b, true)
    else
      remain ← dot_remains dot valint;
      b' ← clear_not_in b k l remain (range 0 (len (domain nb)));
      nb' ← cell b' k l;
      if remaining_value_count nb' =? 0 then Ret (b', false)
      else Ret (b', true).

(** Sequencing of the pruning steps: the first one that reports an empty
    domain ends [forward_check] with [False] and the change record. *)
Definition and_then (original : Original) (m : result (Board * bool))
    (k : Board -> result (Board * bool * Original))
  : result (Board * bool * Original) :=
  '(b', ok) ← m;
  if ok : bool then k b' else Ret (b', false, original).

(** The result is the board as [forward_check] leaves it, the flag
    [consistent] and the change record [original]. *)
Definition forward_check (b : Board) (ivar jvar : Z)
  : result (Board * bool * Original) :=
  original ← save_loop b (row_cells ivar jvar) [];
  original ← save_loop b (col_cells ivar jvar) original;
  original ← save_loop b (box_cells ivar jvar) original;
  var ← cell b ivar jvar;
  valint ← py_int (value var);
  and_then original (prune_loop b valint (row_cells ivar jvar)) (fun b =>
  and_then original (prune_loop b valint (col_cells ivar jvar)) (fun b =>
  and_then original (prune_loop b valint (box_cells ivar jvar)) (fun b =>
  var ← cell b ivar jvar;
  and_then original (dot_prune b (up var) valint (ivar - 1) jvar) (fun b =>
  and_then original (dot_prune b (down var) valint (ivar + 1) jvar) (fun b =>
  and_then original (dot_prune b (left var) valint ivar (jvar - 1)) (fun b =>
  and_then original (dot_prune b (right var) valint ivar (jvar + 1)) (fun b =>
  Ret (b, true, original)))))))).

(** ** [unassigned_neighbors_count] *)

Fixpoint count_loop (b : Board) (cells : list Pos) (cons : Z) : result Z :=
  match cells with
  | [] => Ret cons
  | (k, l) :: rest =>
      var ← cell b k l;
      if negb (assigned var) then count_loop b rest (cons + 1)
      else count_loop b rest cons
  end.

Definition unassigned_neighbors_count (b : Board) (i j : Z) : result Z :=
  cons ← count_loop b (row_cells i j) 0;
  cons ← count_loop b (col_cells i j) cons;
  count_loop b (box_cells i j) cons.

(** ** [remove_inferences] *)

Fixpoint remove_inferences (b : Board) (original : Original) : result Board :=
  match original with
  | [] => Ret b
  | ((i, j), og_dom) :: rest =>
      b' ← set_domain b i j og_dom;
      remove_inferences b' rest
  end.

(** ** [select_variable] *)

(** The MRV loop.  [curr_mrv] starts as [math.inf], here [None]: no count
    is greater than or equal to it and every count is less. *)
Fixpoint mrv_loop (b : Board) (cells : list Pos) (curr_mrv : option Z)
    (mrv : list Pos) : result (list Pos) :=
  match cells with
  | [] => Ret mrv
  | (i, j) :: rest =>
      var ← cell b i j;
      if assigned var then mrv_loop b rest curr_mrv mrv
      else
        let remain_val := remaining_value_count var in
        match curr_mrv with
        | None => mrv_loop b rest (Some remain_val) [(i, j)]
        | Some m =>
            if remain_val >? m then mrv_loop b rest curr_mrv mrv
            else if remain_val =? m then mrv_loop b rest curr_mrv (mrv ++ [(i, j)])
            else mrv_loop b rest (Some remain_val) [(i, j)]
        end
  end.

(** The degree loop.  [selected] starts as [None]; a position, once chosen,
    is a non-empty tuple and so counts as true. *)
Fixpoint degree_loop (b : Board) (mrv : list Pos) (selected : option Pos)
    (selected_deg : Z) : result (option Pos) :=
  match mrv with
  | [] => Ret selected
  | (i, j) :: rest =>
      degree ← unassigned_neighbors_count b i j;
      match selected with
      | None => degree_loop b rest (Some (i, j)) degree
      | Some _ =>
          if degree >? selected_deg then degree_loop b rest (Some (i, j)) degree
          else degree_loop b rest selected selected_deg
      end
  end.

Definition select_variable (b : Board) : result (option Pos) :=
  mrv ← mrv_loop b scan None [];
  degree_loop b mrv None 0.

(** ** [backtracking_search] *)

(** The body of [for val in ...] in [backtrack], for the values [vals] still
    to come.  [rec] is the recursive call.  The result is the board left
    behind and whether a board ([true]) or [False] was returned; a returned
    board has nine rows and so counts as true in [if result].  The last
    component is not part of the program: it lists the values the loop has
    assigned to the cell so far, in the order the loop tried them. *)
Fixpoint try_values (rec : Board -> result (Board * bool)) (ivar jvar : Z)
    (vals : list Z) (tried : list Z) (b : Board)
  : result (Board * bool * list Z) :=
  match vals with
  | [] => Ret (b, false, tried)
  | val :: rest =>
      var ← cell b ivar jvar;
      d ← getitem (domain var) (val - 1);
      if d =? 0 then try_values rec ivar jvar rest tried b
      else
        b1 ← set_value b ivar jvar (py_str val);
        '(b2, consistent, original) ← forward_check b1 ivar jvar;
        '(b2', result) ← (if consistent : bool then rec b2 else Ret (b2, false));
        if result : bool then Ret (b2', true, tried ++ [val])
        else
          b3 ← remove_inferences b2' original;
          b4 ← set_value b3 ivar jvar "0";
          try_values rec ivar jvar rest (tried ++ [val]) b4
  end.

Fixpoint backtrack (fuel : nat) (b : Board) : result (Board * bool) :=
  match fuel with
  | O => OutOfFuel
  | S fuel' =>
      complete ← assignment_complete b;
      if complete : bool then Ret (b, true)
      else
        selected ← select_variable b;
        match selected with
        | None => Raise TypeError
        | Some (ivar, jvar) =>
            var ← cell b ivar jvar;
            '(b', result, _) ← try_values (backtrack fuel') ivar jvar
                                 (range 1 (len (domain var) + 1)) [] b;
            Ret (b', result)
        end
  end.

(** Every call of [backtrack] assigns one more of the 81 cells, so 82 nested
    calls are never exceeded. *)
Definition backtracking_search (b : Board) : result (Board * bool) :=
  backtrack 82 b.

(** ** [parse_file], after the lines have been split into tokens *)

Definition tokens (lines : list (list string)) (i : Z) : list string :=
  default [] (lines !! Z.to_nat i).

(** [board[i][j].right = dot; board[i][j+1].left = dot] *)
Definition set_dots_h (b : Board) (i j : Z) (dot : string) : result Board :=
  var ← cell b i j;
  b ← set_cell b i j (mkVar (value var) (domain var) (up var) (down var) (left var) dot);
  var ← cell b i (j + 1);
  set_cell b i (j + 1) (mkVar (value var) (domain var) (up var) (down var) dot (right var)).

(** [board[i][j].down = dot; board[i+1][j].up = dot] *)
Definition set_dots_v (b : Board) (i j : Z) (dot : string) : result Board :=
  var ← cell b i j;
  b ← set_cell b i j (mkVar (value var) (domain var) (up var) dot (left var) (right var));
  var ← cell b (i + 1) j;
  set_cell b (i + 1) j (mkVar (value var) (domain var) dot (down var) (left var) (right var)).

Fixpoint dots_line (set : Board -> Z -> Z -> string -> result Board)
    (b : Board) (i j : Z) (linelst : list string) : result Board :=
  match linelst with
  | [] => Ret b
  | dot :: rest =>
      if negb (String.eqb dot "0") then
        b' ← set b i j dot;
        dots_line set b' i (j + 1) rest
      else dots_line set b i (j + 1) rest
  end.

Fixpoint dots_lines (set : Board -> Z -> Z -> string -> result Board)
    (b : Board) (lines : list (list string)) (rows : list Z) : result Board :=
  match rows with
  | [] => Ret b
  | i :: rest =>
      b' ← dots_line set b i 0 (tokens lines i);
      dots_lines set b' lines rest
  end.

(** [parse_file] on the three blocks of the input file: the initial values,
    the horizontal dots and the vertical dots. *)
Definition parse_file (vals hdots vdots : list (list string)) : result Board :=
  let board :=
    map (fun i => map (fun val => mkVar val DOMAIN "0" "0" "0" "0") (tokens vals i))
        (range 0 NUM_ROWS) in
  board ← dots_lines set_dots_h board hdots (range 0 NUM_ROWS);
  board ← dots_lines set_dots_v board vdots (range 0 (NUM_ROWS - 1));
  initial_sweep board.

(** * Specification vocabulary *)

(** ** The board seen as a total map on the 81 positions *)

Definition inr (p : Pos) : Prop := 0 <= p.1 < 9 /\ 0 <= p.2 < 9.

Definition shape (b : Board) : Prop :=
  length b = 9%nat /\ Forall (fun row => length row = 9%nat) b.

Definition cell_at (b : Board) (p : Pos) : Var :=
  (b !!! Z.to_nat p.1) !!! Z.to_nat p.2.

Definition put (b : Board) (p : Pos) (c : Var) : Board :=
  <[Z.to_nat p.1 := <[Z.to_nat p.2 := c]> (b !!! Z.to_nat p.1)]> b.


(** ** Well-formed boards *)

(** What [parse_file] delivers on a well-formed input file: nine rows of
    nine cells, each value one decimal digit, each domain nine entries 0 or
    1, each dot field "0", "1" or "2", the same dot on both sides of an edge
    and no dot across the border of the grid. *)

Definition digits : list string :=
  ["0"; "1"; "2"; "3"; "4"; "5"; "6"; "7"; "8"; "9"]%string.

Definition dot_types : list string := ["0"; "1"; "2"]%string.

Definition wf_cell (c : Var) : bool :=
  bool_decide (value c ∈ digits)
  && bool_decide (length (domain c) = 9%nat)
  && forallb (fun d => (d =? 0) || (d =? 1)) (domain c)
  && bool_decide (up c ∈ dot_types) && bool_decide (down c ∈ dot_types)
  && bool_decide (left c ∈ dot_types) && bool_decide (right c ∈ dot_types).

Definition wf_edges (b : Board) (p : Pos) : bool :=
  let c := cell_at b p in
  (if p.1 =? 0 then String.eqb (up c) "0"
   else String.eqb (up c) (down (cell_at b (p.1 - 1, p.2))))
  && (if p.1 =? 8 then String.eqb (down c) "0"
      else String.eqb (down c) (up (cell_at b (p.1 + 1, p.2))))
  && (if p.2 =? 0 then String.eqb (left c) "0"
      else String.eqb (left c) (right (cell_at b (p.1, p.2 - 1))))
  && (if p.2 =? 8 then String.eqb (right c) "0"
      else String.eqb (right c) (left (cell_at b (p.1, p.2 + 1)))).

Definition wf_board (b : Board) : bool :=
  bool_decide (length b = 9%nat)
  && forallb (fun row : list Var => bool_decide (length row = 9%nat)) b
  && forallb (fun p => wf_cell (cell_at b p) && wf_edges b p) scan.

(** ** Vocabulary of the proofs *)

(** The dot fields of a cell. *)
Definition dots (c : Var) : string * string * string * string :=
  (up c, down c, left c, right c).

(** [d'] is [d] with some entries set to 0. *)
Definition narrowed (d d' : list Z) : Prop :=
  length d' = length d /\
  forall k x, d' !! k = Some x -> x = 0 \/ d !! k = Some x.

(** [b'] is [b] after a pruning step on the cells [ps]: only domains of
    unassigned cells of [ps] have changed, and only by losing candidates. *)
Definition prunes (ps : list Pos) (b b' : Board) : Prop :=
  shape b' /\
  forall p, inr p ->
    cell_at b' p = with_domain (cell_at b p) (domain (cell_at b' p)) /\
    narrowed (domain (cell_at b p)) (domain (cell_at b' p)) /\
    (p ∉ ps \/ assigned (cell_at b p) = true -> cell_at b' p = cell_at b p).

(** The neighbours of a cell in the order the three loops visit them. *)
Definition peers (p : Pos) : list Pos :=
  row_cells p.1 p.2 ++ col_cells p.1 p.2 ++ box_cells p.1 p.2.

Definition unassigned_at (b : Board) (p : Pos) : Prop :=
  assigned (cell_at b p) = false.

#[global] Instance unassigned_at_dec b p : Decision (unassigned_at b p).
Proof. unfold unassigned_at. apply _. Defined.

(** The change record [forward_check] builds over the cells [ps]. *)
Definition snapshot (b : Board) (ps : list Pos) : Original :=
  map (fun p => (p, domain (cell_at b p))) (filter (unassigned_at b) ps).

(** The four dot directions of a cell. *)
Inductive dir : Type := U | D | L | R.

Definition dot_of (c : Var) (d : dir) : string :=
  match d with U => up c | D => down c | L => left c | R => right c end.

Definition neighbour (p : Pos) (d : dir) : Pos :=
  match d with
  | U => (p.1 - 1, p.2)
  | D => (p.1 + 1, p.2)
  | L => (p.1, p.2 - 1)
  | R => (p.1, p.2 + 1)
  end.

#[global] Instance inr_dec p : Decision (inr p).
Proof. unfold inr. apply _. Defined.

(** Two different cells share a row, a column or a 3x3 box. *)
Definition same_unit (p q : Pos) : Prop :=
  p <> q /\
  (p.1 = q.1 \/ p.2 = q.2 \/ (p.1 `div` 3 = q.1 `div` 3 /\ p.2 `div` 3 = q.2 `div` 3)).

#[global] Instance same_unit_dec p q : Decision (same_unit p q).
Proof. unfold same_unit. apply _. Defined.

(** The value [v] of the cell [p] has been cleared from the domain of every
    unassigned neighbour of [p]. *)
Definition value_pruned (b : Board) (p : Pos) (v : Z) : Prop :=
  forall q, q ∈ peers p -> unassigned_at b q ->
    domain (cell_at b q) !! Z.to_nat (v - 1) = Some 0.

(** The dot on side [d] of the cell [p], whose value is [v], has been
    applied to the unassigned neighbour on that side. *)
Definition dot_pruned (b : Board) (p : Pos) (v : Z) (d : dir) : Prop :=
  dot_of (cell_at b p) d <> "0"%string ->
  unassigned_at b (neighbour p d) ->
  forall remain, dot_remains (dot_of (cell_at b p) d) v = Ret remain ->
  forall k, 0 <= k < 9 -> py_in (k + 1) remain = false ->
    domain (cell_at b (neighbour p d)) !! Z.to_nat k = Some 0.

(** No unassigned neighbour of [p] has an empty domain. *)
Definition no_wipeout (b : Board) (p : Pos) : Prop :=
  forall q, q ∈ peers p -> unassigned_at b q ->
    remaining_value_count (cell_at b q) <> 0.

Definition opposite (d : dir) : dir :=
  match d with U => D | D => U | L => R | R => L end.

(** ** Vocabulary of the variable ordering *)

Definition count_at (b : Board) (p : Pos) : Z :=
  remaining_value_count (cell_at b p).

(** The degree as the loops of [unassigned_neighbors_count] add it up. *)
Definition degree (b : Board) (p : Pos) : Z :=
  Z.of_nat (length (filter (unassigned_at b) (peers p))).

(** The degree in the words of the specification: how many unassigned cells
    share a row, a column or a box with [p]. *)
Definition unit_degree (b : Board) (p : Pos) : Z :=
  Z.of_nat (length (filter (fun q => same_unit p q /\ unassigned_at b q) scan)).

(** [p] comes strictly before [q] in the row-major scan. *)
Definition row_major_lt (p q : Pos) : Prop :=
  p.1 < q.1 \/ (p.1 = q.1 /\ p.2 < q.2).

#[global] Instance row_major_lt_dec p q : Decision (row_major_lt p q).
Proof. unfold row_major_lt. apply _. Defined.

(** State of the MRV loop after the cells [seen]. *)
Definition is_mrv (b : Board) (seen : list Pos) (curr : option Z)
    (mrv : list Pos) : Prop :=
  match curr with
  | None => filter (unassigned_at b) seen = [] /\ mrv = []
  | Some m =>
      mrv <> [] /\
      (forall p, p ∈ seen -> unassigned_at b p -> m <= count_at b p) /\
      mrv = filter (fun p => unassigned_at b p /\ count_at b p = m) seen
  end.

(** State of the degree loop after the candidates [seen]. *)
Definition is_selected (b : Board) (seen : list Pos) (selected : option Pos)
    (deg : Z) : Prop :=
  match selected with
  | None => seen = []
  | Some s =>
      deg = degree b s /\
      exists l1 l2, seen = l1 ++ s :: l2 /\
        (forall q, q ∈ l1 -> degree b q < deg) /\
        (forall q, q ∈ l2 -> degree b q <= deg)
  end.

(** ** Vocabulary of the search *)

(** Digit [val] is still in the domain of the cell [p]. *)
Definition candidate (b : Board) (p : Pos) (val : Z) : Prop :=
  domain (cell_at b p) !!! Z.to_nat (val - 1) <> 0.

#[global] Instance candidate_dec b p val : Decision (candidate b p val).
Proof. unfold candidate. apply _. Defined.

(** The board after [var.value = str(val)] at the cell [p]. *)
Definition assign (b : Board) (p : Pos) (val : Z) : Board :=
  put b p (with_value (cell_at b p) (py_str val)).

(** One candidate of the loop of [backtrack]: after the assignment either
    [forward_check] reports an empty domain or the recursive call [rec]
    returns [False] and leaves the board as it found it ... *)
Definition attempt_fails (rec : Board -> result (Board * bool)) (b : Board)
    (p : Pos) (val : Z) : Prop :=
  exists b2 ok original,
    forward_check (assign b p val) p.1 p.2 = Ret (b2, ok, original) /\
    (ok = false \/ rec b2 = Ret (b2, false)).

(** ... or [forward_check] reports consistency and the recursive call
    returns the board [b']. *)
Definition attempt_succeeds (rec : Board -> result (Board * bool)) (b : Board)
    (p : Pos) (val : Z) (b' : Board) : Prop :=
  exists b2 original,
    forward_check (assign b p val) p.1 p.2 = Ret (b2, true, original) /\
    rec b2 = Ret (b', true).

(** A recursive call that returns [False] has restored the board. *)
Definition atomic (rec : Board -> result (Board * bool)) : Prop :=
  forall b2 b3, wf_board b2 = true -> rec b2 = Ret (b3, false) -> b3 = b2.

(** Every cell of the board is assigned. *)
Definition complete (b : Board) : bool :=
  forallb (fun p => assigned (cell_at b p)) scan.

(** How many cells are still unassigned. *)
Definition unassigned_count (b : Board) : nat :=
  length (filter (unassigned_at b) scan).

(** The dot fields of all cells of the board. *)
Definition board_dots (b : Board) : list (list (string * string * string * string)) :=
  map (map dots) b.

(** ** Vocabulary of soundness *)

(** The number a value string stands for (0 when it is no number). *)
Definition val_at (b : Board) (p : Pos) : Z :=
  match py_int (value (cell_at b p)) with
  | Ret v => v
  | _ => 0
  end.

(** What a dot demands of the two values it joins: a white dot ("1")
    consecutive values, a black dot ("2") one value the double of the other. *)
Definition dot_holds (dot : string) (v w : Z) : Prop :=
  (dot = "1"%string -> w = v - 1 \/ w = v + 1) /\
  (dot = "2"%string -> v = 2 * w \/ w = 2 * v).

Definition dot_holdsb (dot : string) (v w : Z) : bool :=
  if String.eqb dot "1" then (w =? v - 1) || (w =? v + 1)
  else if String.eqb dot "2" then (v =? 2 * w) || (w =? 2 * v)
  else true.

Definition dirs : list dir := [U; D; L; R].

(** The assigned cells do not contradict each other: no value twice in a
    row, column or box, and every dot between two assigned cells holds. *)
Definition conflict_free (b : Board) : Prop :=
  (forall p q, inr p -> inr q -> same_unit p q ->
     ~ unassigned_at b p -> ~ unassigned_at b q ->
     value (cell_at b p) <> value (cell_at b q)) /\
  (forall p d, inr p -> inr (neighbour p d) ->
     ~ unassigned_at b p -> ~ unassigned_at b (neighbour p d) ->
     dot_holds (dot_of (cell_at b p) d) (val_at b p) (val_at b (neighbour p d))).

(** Every assigned cell has been propagated to its unassigned neighbours. *)
Definition propagated (b : Board) : Prop :=
  forall p, inr p -> ~ unassigned_at b p ->
    value_pruned b p (val_at b p) /\ forall d, dot_pruned b p (val_at b p) d.

(** The two conditions as checks that run on a board. *)
Definition clues_consistent (b : Board) : bool :=
  forallb (fun p =>
    negb (assigned (cell_at b p))
    || (forallb (fun q =>
          negb (assigned (cell_at b q))
          || negb (String.eqb (value (cell_at b p)) (value (cell_at b q))))
          (peers p)
        && forallb (fun d =>
             negb (bool_decide (inr (neighbour p d)))
             || negb (assigned (cell_at b (neighbour p d)))
             || dot_holdsb (dot_of (cell_at b p) d) (val_at b p)
                  (val_at b (neighbour p d)))
             dirs))
    scan.

Definition swept (b : Board) : bool :=
  forallb (fun p =>
    negb (assigned (cell_at b p))
    || (forallb (fun q =>
          assigned (cell_at b q)
          || (domain (cell_at b q) !!! Z.to_nat (val_at b p - 1) =? 0))
          (peers p)
        && forallb (fun d =>
             String.eqb (dot_of (cell_at b p) d) "0"
             || assigned (cell_at b (neighbour p d))
             || match dot_remains (dot_of (cell_at b p) d) (val_at b p) with
                | Ret remain =>
                    forallb (fun k =>
                      py_in (k + 1) remain
                      || (domain (cell_at b (neighbour p d)) !!! Z.to_nat k =? 0))
                      (range 0 9)
                | _ => true
                end)
             dirs))
    scan.

(** A solved grid: every cell holds one of the digits 1 to 9, no two cells
    of a row, column or box hold the same value, and every dot holds. *)
Definition solved (b : Board) : Prop :=
  (forall p, inr p -> exists v, 1 <= v <= 9 /\ value (cell_at b p) = py_str v) /\
  (forall p q, inr p -> inr q -> same_unit p q ->
     value (cell_at b p) <> value (cell_at b q)) /\
  (forall p d, inr p -> inr (neighbour p d) ->
     dot_holds (dot_of (cell_at b p) d) (val_at b p) (val_at b (neighbour p d))).

(** ** Example puzzles *)

(** A solved grid, used to build the examples below. *)
Definition solved_grid : list (list string) :=
  [["1"; "2"; "3"; "4"; "5"; "6"; "7"; "8"; "9"];
   ["4"; "5"; "6"; "7"; "8"; "9"; "1"; "2"; "3"];
   ["7"; "8"; "9"; "1"; "2"; "3"; "4"; "5"; "6"];
   ["2"; "3"; "4"; "5"; "6"; "7"; "8"; "9"; "1"];
   ["5"; "6"; "7"; "8"; "9"; "1"; "2"; "3"; "4"];
   ["8"; "9"; "1"; "2"; "3"; "4"; "5"; "6"; "7"];
   ["3"; "4"; "5"; "6"; "7"; "8"; "9"; "1"; "2"];
   ["6"; "7"; "8"; "9"; "1"; "2"; "3"; "4"; "5"];
   ["9"; "1"; "2"; "3"; "4"; "5"; "6"; "7"; "8"]]%string.

(** The first row of the solved grid replaced by [row]. *)
Definition with_first_row (row : list string) : list (list string) :=
  row :: drop 1 solved_grid.

Definition no_hdots : list (list string) := replicate 9 (replicate 8 "0"%string).
Definition no_vdots : list (list string) := replicate 8 (replicate 9 "0"%string).

(** A white dot between the first two cells of the first row. *)
Definition some_hdots : list (list string) :=
  ["1"; "0"; "0"; "0"; "0"; "0"; "0"; "0"]%string :: replicate 8 (replicate 8 "0"%string).

(** Two cells of the first row are open; the clues are consistent. *)
Definition open_clues : list (list string) :=
  with_first_row ["0"; "0"; "3"; "4"; "5"; "6"; "7"; "8"; "9"]%string.

(** The first cell is open and the digit 3 is given twice in the first row. *)
Definition conflicting_clues : list (list string) :=
  with_first_row ["0"; "3"; "3"; "4"; "5"; "6"; "7"; "8"; "9"]%string.

(** Two cells of the first row are open and both can only take the digit 1
    (column 2 already holds a 2 in its last row). *)
Definition dead_end_clues : list (list string) :=
  take 8 (with_first_row ["0"; "0"; "3"; "4"; "5"; "6"; "7"; "8"; "9"]%string)
  ++ [["9"; "2"; "2"; "3"; "4"; "5"; "6"; "7"; "8"]%string].

Definition board_of (r : result Board) : Board :=
  match r with
  | Ret b => b
  | _ => []
  end.

Definition open_board : Board :=
  Eval vm_compute in board_of (parse_file open_clues some_hdots no_vdots).

Definition conflicting_board : Board :=
  Eval vm_compute in board_of (parse_file conflicting_clues no_hdots no_vdots).

Definition dead_end_board : Board :=
  Eval vm_compute in board_of (parse_file dead_end_clues no_hdots no_vdots).

(** The board a search leaves behind. *)
Definition search_board (b : Board) : Board :=
  match backtracking_search b with
  | Ret (b', _) => b'
  | _ => []
  end.

Definition open_solution : Board := Eval vm_compute in search_board open_board.

Definition conflicting_solution : Board :=
  Eval vm_compute in search_board conflicting_board.

(** One operation of the search, from the board it is called with to the
    board it leaves behind.  [select_variable] returns a position and no
    board: the board after it is the board before it. *)
Inductive search_op (b b' : Board) : Prop :=
  | op_forward_check i j consistent original :
      forward_check b i j = Ret (b', consistent, original) -> search_op b b'
  | op_remove_inferences original :
      remove_inferences b original = Ret b' -> search_op b b'
  | op_select_variable selected :
      select_variable b = Ret selected -> b' = b -> search_op b b'
  | op_backtrack n result :
      backtrack n b = Ret (b', result) -> search_op b b'.

(** The first cell is open and every digit is excluded for it: 2 to 9 by its
    row, 1 by a (wrong) clue below it. *)
Definition wiped_clues : list (list string) :=
  ["0"; "2"; "3"; "4"; "5"; "6"; "7"; "8"; "9"]%string
  :: ["1"; "5"; "6"; "7"; "8"; "9"; "1"; "2"; "3"]%string
  :: drop 2 solved_grid.

Definition wiped_board : Board :=
  Eval vm_compute in board_of (parse_file wiped_clues no_hdots no_vdots).

(** ** Vocabulary for the exact effect of the pruning *)

(** What the sweep of the assigned cell [p] with value [v] rules out:
    digit [k + 1] at [q] when [q] shares a unit with [p] and [k + 1] is [v],
    or when [q] is the neighbour of [p] across a dot and [k + 1] is not among
    the values [dot_remains] leaves. *)
Definition excluded (b : Board) (p : Pos) (v : Z) (q : Pos) (k : nat) : bool :=
  bool_decide (q ∈ peers p) && bool_decide (k = Z.to_nat (v - 1))
  || existsb (fun d =>
       bool_decide (q = neighbour p d)
       && negb (String.eqb (dot_of (cell_at b p) d) "0")
       && match dot_remains (dot_of (cell_at b p) d) v with
          | Ret remain => negb (py_in (Z.of_nat k + 1) remain)
          | _ => false
          end) dirs.

(** Every domain entry of [b'] that [E] does not name is the entry of [b]. *)
Definition keeps_unless (E : Pos -> nat -> Prop) (b b' : Board) : Prop :=
  forall q k, inr q -> ~ E q k ->
    domain (cell_at b' q) !! k = domain (cell_at b q) !! k.

(** The domain of [q] after the sweep of [p]: the excluded entries of an
    unassigned cell are 0, every other entry is as it was. *)
Definition swept_domain (b : Board) (p : Pos) (v : Z) (q : Pos) : list Z :=
  imap (fun k x =>
          if negb (assigned (cell_at b q)) && excluded b p v q k then 0 else x)
       (domain (cell_at b q)).

(** Digit [k + 1] at [q] is excluded by one of the given clues among
    [cells]. *)
Definition excluded_by (b : Board) (cells : list Pos) (q : Pos) (k : nat) : bool :=
  existsb (fun p => assigned (cell_at b p) && excluded b p (val_at b p) q k) cells.

(** ** Vocabulary for the completeness of the search *)

(** [sol] is a solution of the puzzle that the board [b] can still reach:
    it gives every cell a digit, no digit twice in a row, column or box,
    every dot of the board holds between the two cells it joins, it assigns
    every assigned cell the value the cell holds, and its digit is still in
    the domain of every unassigned cell. *)
Definition fits (sol : Pos -> Z) (b : Board) : Prop :=
  (forall p, inr p -> 1 <= sol p <= 9) /\
  (forall p q, inr p -> inr q -> same_unit p q -> sol p <> sol q) /\
  (forall p d, inr p -> inr (neighbour p d) ->
     dot_holds (dot_of (cell_at b p) d) (sol p) (sol (neighbour p d))) /\
  (forall p, inr p -> ~ unassigned_at b p ->
     value (cell_at b p) = py_str (sol p)) /\
  (forall p, inr p -> unassigned_at b p -> candidate b p (sol p)).

(** [fits], as a test. *)
Definition fitsb (sol : Pos -> Z) (b : Board) : bool :=
  forallb (fun p =>
    (1 <=? sol p) && (sol p <=? 9)
    && forallb (fun q => negb (sol p =? sol q)) (peers p)
    && forallb (fun d =>
         negb (bool_decide (inr (neighbour p d)))
         || dot_holdsb (dot_of (cell_at b p) d) (sol p) (sol (neighbour p d)))
         dirs
    && (if assigned (cell_at b p)
        then String.eqb (value (cell_at b p)) (py_str (sol p))
        else negb (domain (cell_at b p) !!! Z.to_nat (sol p - 1) =? 0)))
    scan.

(** ** Vocabulary for [parse_file] *)

(** [parse_file] up to its last loop: the board as read, before any clue is
    swept. *)
Definition read_board (vals hdots vdots : list (list string)) : result Board :=
  let board :=
    map (fun i => map (fun val => mkVar val DOMAIN "0" "0" "0" "0") (tokens vals i))
        (range 0 NUM_ROWS) in
  board ← dots_lines set_dots_h board hdots (range 0 NUM_ROWS);
  dots_lines set_dots_v board vdots (range 0 (NUM_ROWS - 1)).

(** The token at line [p.1], place [p.2] of a block, "0" where the block has
    none. *)
Definition tok_at (lines : list (list string)) (p : Pos) : string :=
  if (0 <=? p.1) && (0 <=? p.2)
  then default "0"%string (tokens lines p.1 !! Z.to_nat p.2)
  else "0"%string.

(** A well-formed input: nine rows of nine digits, at most eight horizontal
    dots in each of the nine rows and at most nine vertical dots in each of
    the eight rows, every dot "0", "1" or "2". *)
Definition wf_input (vals hdots vdots : list (list string)) : bool :=
  forallb (fun i =>
    bool_decide (length (tokens vals i) = 9%nat)
    && forallb (fun s => bool_decide (s ∈ digits)) (tokens vals i)
    && bool_decide (length (tokens hdots i) <= 8)%nat
    && forallb (fun s => bool_decide (s ∈ dot_types)) (tokens hdots i))
    (range 0 9)
  && forallb (fun i =>
       bool_decide (length (tokens vdots i) <= 9)%nat
       && forallb (fun s => bool_decide (s ∈ dot_types)) (tokens vdots i))
       (range 0 8).

(** Row-major order on the places of a block. *)
Definition before (p q : Pos) : bool :=
  (p.1 <? q.1) || ((p.1 =? q.1) && (p.2 <? q.2)).

(** The cell at [q] once the horizontal dots before place [hpos] and the
    vertical dots before place [vpos] have been written. *)
Definition parsed_cell (vals hdots vdots : list (list string))
    (hpos vpos : Pos) (q : Pos) : Var :=
  mkVar (tok_at vals q) DOMAIN
    (if before (q.1 - 1, q.2) vpos then tok_at vdots (q.1 - 1, q.2) else "0"%string)
    (if before q vpos then tok_at vdots q else "0"%string)
    (if before (q.1, q.2 - 1) hpos then tok_at hdots (q.1, q.2 - 1) else "0"%string)
    (if before q hpos then tok_at hdots q else "0"%string).

(** The cell [parse_file] reads at [q]: the value given there, the full
    domain, and on each side the dot the input puts between the two cells. *)
Definition given_cell (vals hdots vdots : list (list string)) (q : Pos) : Var :=
  mkVar (tok_at vals q) DOMAIN
    (tok_at vdots (q.1 - 1, q.2))
    (if q.1 <? 8 then tok_at vdots q else "0"%string)
    (tok_at hdots (q.1, q.2 - 1))
    (tok_at hdots q).

(** [sol] solves the puzzle of the input: a digit in every cell, no digit
    twice in a row, column or box, every dot of the input respected by the
    two cells it lies between, and every given value kept. *)
Definition solves (sol : Pos -> Z) (vals hdots vdots : list (list string)) : Prop :=
  (forall p, inr p -> 1 <= sol p <= 9) /\
  (forall p q, inr p -> inr q -> same_unit p q -> sol p <> sol q) /\
  (forall p, inr p -> inr (neighbour p R) ->
     dot_holds (tok_at hdots p) (sol p) (sol (neighbour p R))) /\
  (forall p, inr p -> inr (neighbour p D) ->
     dot_holds (tok_at vdots p) (sol p) (sol (neighbour p D))) /\
  (forall p, inr p -> tok_at vals p <> "0"%string -> tok_at vals p = py_str (sol p)).

(** [solves], as a test. *)
Definition solvesb (sol : Pos -> Z) (vals hdots vdots : list (list string)) : bool :=
  forallb (fun p =>
    (1 <=? sol p) && (sol p <=? 9)
    && forallb (fun q => negb (sol p =? sol q)) (peers p)
    && (negb (bool_decide (inr (neighbour p R)))
        || dot_holdsb (tok_at hdots p) (sol p) (sol (neighbour p R)))
    && (negb (bool_decide (inr (neighbour p D)))
        || dot_holdsb (tok_at vdots p) (sol p) (sol (neighbour p D)))
    && (String.eqb (tok_at vals p) "0"
        || String.eqb (tok_at vals p) (py_str (sol p))))
    scan.

(** ** Vocabulary for [remove_inferences] *)

(** The domain a change record holds for the cell [q]: the one of its last
    entry for [q], if it has any. *)
Definition saved_domain (original : Original) (q : Pos) : option (list Z) :=
  snd <$> last (filter (fun e : Z * Z * list Z => e.1 = q) original).

(** ** Further example data *)

(** The board a call of [forward_check] leaves behind. *)
Definition checked_board (r : result (Board * bool * Original)) : Board :=
  match r with
  | Ret (b, _, _) => b
  | _ => []
  end.

(** Every one of the nine value rows has nine tokens. *)
Definition nine_by_nine (vals : list (list string)) : bool :=
  forallb (fun r => bool_decide (length (tokens vals r) = 9%nat)) (range 0 9).

(** A line of horizontal dots with a ninth dot. *)
Definition long_hdots : list (list string) := [replicate 9 "1"%string].

(** * The model at work *)

Example range_1_4 : range 1 4 = [1; 2; 3].
Proof. reflexivity. Qed.

Example getitem_last : getitem [10; 20; 30] (-1) = Ret 30.
Proof. reflexivity. Qed.

Example getitem_out_of_range : getitem [10; 20; 30] 3 = Raise IndexError.
Proof. reflexivity. Qed.

Example setitem_second : setitem [10; 20; 30] 1 0 = Ret [10; 0; 30].
Proof. reflexivity. Qed.

Example py_str_7 : py_str 7 = "7"%string.
Proof. reflexivity. Qed.

Example py_int_7 : py_int "7" = Ret 7.
Proof. reflexivity. Qed.

Example py_int_no_number : py_int "x" = Raise ValueError.
Proof. reflexivity. Qed.

Example dot_remains_white_1 : dot_remains "1" 1 = Ret [2].
Proof. reflexivity. Qed.

Example dot_remains_white_5 : dot_remains "1" 5 = Ret [4; 6].
Proof. reflexivity. Qed.

Example dot_remains_black_4 : dot_remains "2" 4 = Ret [2; 8].
Proof. reflexivity. Qed.

Example dot_remains_black_5 : dot_remains "2" 5 = Ret [].
Proof. reflexivity. Qed.

Example dot_remains_no_dot : dot_remains "0" 5 = Raise UnboundLocalError.
Proof. reflexivity. Qed.

Example box_indexes_4_7 :
  box_indexes 4 7 =
    [(3, 6); (3, 7); (3, 8); (4, 6); (4, 7); (4, 8); (5, 6); (5, 7); (5, 8)].
Proof. reflexivity. Qed.

Example row_cells_0_2 :
  row_cells 0 2 = [(0, 0); (0, 1); (0, 3); (0, 4); (0, 5); (0, 6); (0, 7); (0, 8)].
Proof. reflexivity. Qed.

Example box_cells_4_7 : box_cells 4 7 = [(3, 6); (3, 8); (5, 6); (5, 8)].
Proof. reflexivity. Qed.

(** The white dot of [some_hdots] has pruned the first two cells of
    [open_board]: 1 next to 2. *)
Example open_board_domains :
  map (fun c => (value c, domain c, right c)) (take 2 (open_board !!! 0%nat)) =
    [("0"%string, [1; 0; 0; 0; 0; 0; 0; 0; 0], "1"%string);
     ("0"%string, [0; 1; 0; 0; 0; 0; 0; 0; 0], "0"%string)].
Proof. reflexivity. Qed.

Example select_variable_open : select_variable open_board = Ret (Some (0, 0)).
Proof. by vm_compute. Qed.

Example search_open :
  backtracking_search open_board = Ret (open_solution, true) /\
  map (map value) open_solution = solved_grid.
Proof. by vm_compute. Qed.

(** On [dead_end_board] the first two cells can both only take 1: the first
    assignment empties the domain of the second cell, [forward_check] reports
    it, and the search gives up. *)
Example forward_check_dead_end :
  exists b' original,
    forward_check (assign dead_end_board (0, 0) 1) 0 0 = Ret (b', false, original) /\
    domain (cell_at b' (0, 1)) = [0; 0; 0; 0; 0; 0; 0; 0; 0] /\
    In ((0, 1), [1; 0; 0; 0; 0; 0; 0; 0; 0]) original.
Proof. eexists _, _. split; [by vm_compute|]. split; [by vm_compute|]. simpl. tauto. Qed.

Example search_dead_end :
  backtracking_search dead_end_board = Ret (dead_end_board, false).
Proof. by vm_compute. Qed.

Example search_wiped :
  remaining_value_count (cell_at wiped_board (0, 0)) = 0 /\
  backtracking_search wiped_board = Ret (wiped_board, false).
Proof. by vm_compute. Qed.
(** * Verification *)

(** ** The result monad *)

Lemma bind_Ret {A B} (a : A) (f : A -> result B) : (Ret a ≫= f) = f a.
Proof. reflexivity. Qed.

Lemma bind_inv {A B} (m : result A) (f : A -> result B) (r : B) :
  m ≫= f = Ret r -> exists a, m = Ret a /\ f a = Ret r.
Proof. destruct m as [a| |]; simpl; [eauto | discriminate..]. Qed.

(** Runs the binds whose first computation has returned. *)
Ltac rsimpl := cbn [mbind result_bind mret result_ret fst snd].
Tactic Notation "rsimpl" "in" hyp(H) :=
  cbn [mbind result_bind mret result_ret fst snd] in H.

(** Splits a hypothesis [x ← m; k = Ret r] into [m = Ret x] and the rest. *)
Ltac bind_inv H :=
  let a := fresh "a" in
  let Ha := fresh "Ha" in
  apply bind_inv in H; destruct H as (a & Ha & H).

(** ** Ranges and indices *)

Lemma range_9 : range 0 9 = [0; 1; 2; 3; 4; 5; 6; 7; 8].
Proof. reflexivity. Qed.

Lemma elem_of_range lo hi k : k ∈ range lo hi <-> lo <= k < hi.
Proof.
  unfold range. rewrite list_elem_of_fmap. split.
  - intros (n & -> & Hn). apply elem_of_seq in Hn. lia.
  - intros Hk. exists (Z.to_nat (k - lo)). split; [lia|].
    apply elem_of_seq. lia.
Qed.

Lemma index_in_range {A} (l : list A) i :
  0 <= i < len l -> index l i = Ret (Z.to_nat i).
Proof.
  intros Hi. unfold index.
  destruct (Z.leb_spec 0 i), (Z.ltb_spec i (len l)); simpl; try lia. done.
Qed.

Lemma getitem_in_range {A} `{Inhabited A} (l : list A) i :
  0 <= i < len l -> getitem l i = Ret (l !!! Z.to_nat i).
Proof.
  intros Hi. unfold getitem. rewrite index_in_range by done. simpl.
  destruct (lookup_lt_is_Some_2 l (Z.to_nat i)) as [x Hx]; [unfold len in Hi; lia|].
  rewrite Hx. by rewrite (list_lookup_total_correct _ _ _ Hx).
Qed.

Lemma setitem_in_range {A} (l : list A) i x :
  0 <= i < len l -> setitem l i x = Ret (<[Z.to_nat i := x]> l).
Proof. intros Hi. unfold setitem. by rewrite index_in_range. Qed.

(** ** Decimal strings of the digits *)

Lemma to_int_not_nil v : Z.to_int v <> Decimal.Pos Decimal.Nil /\ Z.to_int v <> Decimal.Neg Decimal.Nil.
Proof.
  split; intros E; pose proof (f_equal Z.of_int E) as E';
    rewrite DecimalZ.of_to in E'; subst v; discriminate E.
Qed.

Lemma py_int_str v : py_int (py_str v) = Ret v.
Proof.
  unfold py_int, py_str. destruct (to_int_not_nil v) as [H1 H2].
  rewrite NilZero.isi by done. by rewrite DecimalZ.of_to.
Qed.

Lemma py_str_inj v w : py_str v = py_str w -> v = w.
Proof.
  intros E. apply (f_equal py_int) in E. rewrite !py_int_str in E. congruence.
Qed.

Lemma py_str_0 : py_str 0 = "0"%string.
Proof. reflexivity. Qed.

(** ** The board as a total map *)

Lemma shape_row b i :
  shape b -> 0 <= i < 9 -> length (b !!! Z.to_nat i) = 9%nat.
Proof.
  intros [Hl Hr] Hi.
  destruct (lookup_lt_is_Some_2 b (Z.to_nat i)) as [row Hrow]; [lia|].
  rewrite (list_lookup_total_correct _ _ _ Hrow).
  by apply (Forall_lookup_1 _ _ _ _ Hr Hrow).
Qed.

Lemma cell_Ret b i j :
  shape b -> inr (i, j) -> cell b i j = Ret (cell_at b (i, j)).
Proof.
  intros Hs [Hi Hj]. simpl in *. unfold cell, cell_at.
  rewrite getitem_in_range by (unfold len; destruct Hs; lia). simpl.
  rewrite getitem_in_range; [done|]. unfold len. rewrite shape_row by done. lia.
Qed.

Lemma set_cell_Ret b i j c :
  shape b -> inr (i, j) -> set_cell b i j c = Ret (put b (i, j) c).
Proof.
  intros Hs [Hi Hj]. simpl in *. unfold set_cell, put.
  rewrite getitem_in_range by (unfold len; destruct Hs; lia). simpl.
  rewrite setitem_in_range by (unfold len; rewrite shape_row by done; lia). simpl.
  rewrite setitem_in_range by (unfold len; destruct Hs; lia). done.
Qed.

Lemma shape_put b p c : shape b -> inr p -> shape (put b p c).
Proof.
  intros Hs [Hi Hj]. pose proof Hs as [Hl Hr]. unfold put. split.
  - by rewrite length_insert.
  - apply Forall_insert; [done|]. simpl. rewrite length_insert. by apply shape_row.
Qed.

Lemma cell_at_put b p q c :
  shape b -> inr p -> inr q ->
  cell_at (put b p c) q = if decide (p = q) then c else cell_at b q.
Proof.
  intros Hs [Hp1 Hp2] [Hq1 Hq2]. destruct Hs as [Hl Hr]. unfold cell_at, put.
  destruct p as [i j], q as [k l]; simpl in *.
  destruct (decide (i = k)) as [->|Hik].
  - rewrite list_lookup_total_insert_eq by lia.
    destruct (decide (j = l)) as [->|Hjl].
    + rewrite decide_True by done.
      rewrite list_lookup_total_insert_eq; [done|].
      rewrite shape_row; [lia| by split | done].
    + rewrite decide_False by congruence.
      rewrite list_lookup_total_insert_ne by lia. done.
  - rewrite decide_False by congruence.
    rewrite list_lookup_total_insert_ne by lia. done.
Qed.

Lemma cell_at_put_eq b p c : shape b -> inr p -> cell_at (put b p c) p = c.
Proof. intros. rewrite cell_at_put by done. by rewrite decide_True. Qed.

Lemma cell_at_put_ne b p q c :
  shape b -> inr p -> inr q -> p <> q -> cell_at (put b p c) q = cell_at b q.
Proof. intros. rewrite cell_at_put by done. by rewrite decide_False. Qed.

Lemma board_ext b b' :
  shape b -> shape b' ->
  (forall p, inr p -> cell_at b p = cell_at b' p) -> b = b'.
Proof.
  intros [Hl Hr] [Hl' Hr'] Heq.
  apply list_eq_same_length with 9%nat; [done..|].
  intros i row row' Hi Hrow Hrow'.
  pose proof (Forall_lookup_1 _ _ _ _ Hr Hrow) as Hlen.
  pose proof (Forall_lookup_1 _ _ _ _ Hr' Hrow') as Hlen'.
  apply list_eq_same_length with 9%nat; [done..|].
  intros j c c' Hj Hc Hc'.
  specialize (Heq (Z.of_nat i, Z.of_nat j)). unfold cell_at, inr in Heq.
  simpl in Heq. rewrite !Nat2Z.id in Heq.
  rewrite (list_lookup_total_correct _ _ _ Hrow) in Heq.
  rewrite (list_lookup_total_correct _ _ _ Hrow') in Heq.
  rewrite (list_lookup_total_correct _ _ _ Hc) in Heq.
  rewrite (list_lookup_total_correct _ _ _ Hc') in Heq.
  apply Heq. lia.
Qed.

(** The positions of the board, one by one. *)
Lemma inr_cases p :
  inr p -> p ∈ scan.
Proof.
  destruct p as [i j]. intros [Hi Hj]. simpl in *.
  unfold scan. apply list_elem_of_bind. exists i. split.
  - apply list_elem_of_bind. exists j. split; [apply list_elem_of_singleton; done|].
    apply elem_of_range. unfold NUM_COLS. lia.
  - apply elem_of_range. unfold NUM_ROWS. lia.
Qed.

Lemma scan_inr p : p ∈ scan -> inr p.
Proof.
  unfold scan. intros Hp. apply list_elem_of_bind in Hp as (i & Hp & Hi).
  apply list_elem_of_bind in Hp as (j & Hp & Hj).
  apply list_elem_of_singleton in Hp as ->.
  apply elem_of_range in Hi, Hj. unfold NUM_ROWS, NUM_COLS in *. split; simpl; lia.
Qed.

(** ** Well-formed boards *)

Lemma wf_board_shape b : wf_board b = true -> shape b.
Proof.
  unfold wf_board. rewrite !andb_true_iff. intros [[Hl Hr] _]. split.
  - by apply bool_decide_eq_true in Hl.
  - apply Forall_forall. intros row Hrow.
    rewrite forallb_forall in Hr. apply list_elem_of_In in Hrow.
    specialize (Hr _ Hrow). by apply bool_decide_eq_true in Hr.
Qed.

Lemma wf_board_at b p :
  wf_board b = true -> inr p ->
  wf_cell (cell_at b p) = true /\ wf_edges b p = true.
Proof.
  unfold wf_board. rewrite !andb_true_iff. intros [_ Hc] Hp.
  rewrite forallb_forall in Hc. apply inr_cases, list_elem_of_In in Hp.
  specialize (Hc _ Hp). by apply andb_true_iff in Hc.
Qed.

Lemma wf_board_intro b :
  shape b ->
  (forall p, inr p -> wf_cell (cell_at b p) = true /\ wf_edges b p = true) ->
  wf_board b = true.
Proof.
  intros [Hl Hr] Hc. unfold wf_board. rewrite !andb_true_iff. repeat split.
  - by apply bool_decide_eq_true.
  - apply forallb_forall. intros row Hrow. apply bool_decide_eq_true.
    rewrite Forall_forall in Hr. apply Hr. by apply list_elem_of_In.
  - apply forallb_forall. intros p Hp. apply andb_true_iff.
    apply Hc, scan_inr. by apply list_elem_of_In.
Qed.

Lemma wf_cell_inv c :
  wf_cell c = true ->
  value c ∈ digits /\ length (domain c) = 9%nat /\
  (forall k x, domain c !! k = Some x -> x = 0 \/ x = 1) /\
  up c ∈ dot_types /\ down c ∈ dot_types /\
  left c ∈ dot_types /\ right c ∈ dot_types.
Proof.
  unfold wf_cell. rewrite !andb_true_iff, !bool_decide_eq_true.
  intros [[[[[[Hv Hl] He] Hu] Hd] Hle] Hri]. repeat split; try done.
  intros k x Hk. rewrite forallb_forall in He.
  apply list_elem_of_lookup_2, list_elem_of_In in Hk. specialize (He _ Hk). lia.
Qed.

Lemma wf_cell_intro c :
  value c ∈ digits -> length (domain c) = 9%nat ->
  (forall k x, domain c !! k = Some x -> x = 0 \/ x = 1) ->
  up c ∈ dot_types -> down c ∈ dot_types ->
  left c ∈ dot_types -> right c ∈ dot_types ->
  wf_cell c = true.
Proof.
  intros Hv Hl He Hu Hd Hle Hri. unfold wf_cell.
  rewrite !andb_true_iff, !bool_decide_eq_true. repeat split; try done.
  apply forallb_forall. intros x Hx.
  apply list_elem_of_In, list_elem_of_lookup_1 in Hx as [k Hk].
  destruct (He _ _ Hk); subst; done.
Qed.

Lemma narrowed_refl d : narrowed d d.
Proof. split; [done|]. intros; by right. Qed.

Lemma narrowed_trans d1 d2 d3 : narrowed d1 d2 -> narrowed d2 d3 -> narrowed d1 d3.
Proof.
  intros [Hl1 H1] [Hl2 H2]. split; [congruence|].
  intros k x Hk. destruct (H2 _ _ Hk) as [->|Hk2]; [by left|]. eauto.
Qed.

Lemma narrowed_insert d k : narrowed d (<[k := 0]> d).
Proof.
  split; [by rewrite length_insert|]. intros k' x Hk'.
  destruct (decide (k = k')) as [->|Hne].
  - destruct (decide (k' < length d)%nat).
    + rewrite list_lookup_insert_eq in Hk' by done. left. congruence.
    + rewrite list_insert_ge in Hk' by lia. by right.
  - rewrite list_lookup_insert_ne in Hk' by done. by right.
Qed.

Lemma wf_cell_with_domain c d :
  wf_cell c = true -> narrowed (domain c) d -> wf_cell (with_domain c d) = true.
Proof.
  intros Hc [Hl Hn]. apply wf_cell_inv in Hc as (Hv & Hlen & He & Hu & Hd & Hle & Hri).
  apply wf_cell_intro; simpl; try done; [congruence|].
  intros k x Hk. destruct (Hn _ _ Hk) as [->|Hk']; [by left | eauto].
Qed.

Lemma wf_cell_with_value c s :
  wf_cell c = true -> s ∈ digits -> wf_cell (with_value c s) = true.
Proof.
  intros Hc Hs. apply wf_cell_inv in Hc as (Hv & Hlen & He & Hu & Hd & Hle & Hri).
  by apply wf_cell_intro.
Qed.

Lemma wf_edges_ext b b' p :
  (forall q, inr q -> dots (cell_at b' q) = dots (cell_at b q)) ->
  inr p -> wf_edges b' p = wf_edges b p.
Proof.
  intros Hd [Hp1 Hp2]. unfold wf_edges. cbv zeta.
  assert (Hf : forall q, inr q ->
    up (cell_at b' q) = up (cell_at b q) /\ down (cell_at b' q) = down (cell_at b q) /\
    left (cell_at b' q) = left (cell_at b q) /\ right (cell_at b' q) = right (cell_at b q)).
  { intros q Hq. specialize (Hd q Hq). unfold dots in Hd. by injection Hd. }
  destruct (Hf p) as (-> & -> & -> & ->); [done|].
  f_equal; [f_equal; [f_equal|]|].
  - destruct (Z.eqb_spec p.1 0); [done|].
    destruct (Hf (p.1 - 1, p.2)) as (_ & -> & _); [split; simpl; lia|done].
  - destruct (Z.eqb_spec p.1 8); [done|].
    destruct (Hf (p.1 + 1, p.2)) as (-> & _); [split; simpl; lia|done].
  - destruct (Z.eqb_spec p.2 0); [done|].
    destruct (Hf (p.1, p.2 - 1)) as (_ & _ & _ & ->); [split; simpl; lia|done].
  - destruct (Z.eqb_spec p.2 8); [done|].
    destruct (Hf (p.1, p.2 + 1)) as (_ & _ & -> & _); [split; simpl; lia|done].
Qed.

Lemma with_domain_dots c d : dots (with_domain c d) = dots c.
Proof. reflexivity. Qed.

Lemma with_value_dots c s : dots (with_value c s) = dots c.
Proof. reflexivity. Qed.

(** ** Pruning steps *)

Lemma prunes_refl ps b : shape b -> prunes ps b b.
Proof.
  intros Hs. split; [done|]. intros p Hp. split; [by destruct (cell_at b p)|].
  split; [apply narrowed_refl | done].
Qed.

Lemma prunes_trans ps b1 b2 b3 :
  prunes ps b1 b2 -> prunes ps b2 b3 -> prunes ps b1 b3.
Proof.
  intros [Hs2 H12] [Hs3 H23]. split; [done|]. intros p Hp.
  destruct (H12 p Hp) as (E1 & N1 & F1), (H23 p Hp) as (E2 & N2 & F2).
  split; [|split].
  - rewrite E2. rewrite E1 at 1. reflexivity.
  - by eapply narrowed_trans.
  - intros Hc. rewrite F2, F1; try done.
    destruct Hc as [Hc|Hc]; [by left|]. right. by rewrite F1 by (by right).
Qed.

Lemma prunes_mono ps ps' b b' :
  ps ⊆ ps' -> prunes ps b b' -> prunes ps' b b'.
Proof.
  intros Hsub [Hs H]. split; [done|]. intros p Hp.
  destruct (H p Hp) as (E & N & F). repeat split; try done; try apply N.
  intros [Hc|Hc]; apply F; [left|by right]. intros Hin. by apply Hc, Hsub.
Qed.

Lemma prunes_value ps b b' p :
  prunes ps b b' -> inr p -> value (cell_at b' p) = value (cell_at b p).
Proof. intros [_ H] Hp. destruct (H p Hp) as (E & _). by rewrite E. Qed.

Lemma prunes_assigned ps b b' p :
  prunes ps b b' -> inr p -> assigned (cell_at b' p) = assigned (cell_at b p).
Proof. intros H Hp. unfold assigned. by rewrite (prunes_value _ _ _ _ H Hp). Qed.

Lemma prunes_dots ps b b' p :
  prunes ps b b' -> inr p -> dots (cell_at b' p) = dots (cell_at b p).
Proof. intros [_ H] Hp. destruct (H p Hp) as (E & _). by rewrite E. Qed.

Lemma prunes_wf ps b b' :
  wf_board b = true -> prunes ps b b' -> wf_board b' = true.
Proof.
  intros Hwf Hpr. pose proof Hpr as [Hs H]. apply wf_board_intro; [done|].
  intros p Hp. destruct (wf_board_at b p Hwf Hp) as [Hc He].
  destruct (H p Hp) as (E & N & _). split.
  - rewrite E. by apply wf_cell_with_domain.
  - rewrite <- He. apply wf_edges_ext; [|done].
    intros q Hq. by eapply prunes_dots.
Qed.

(** Writing one narrowed domain into an unassigned cell is a pruning step. *)
Lemma prunes_put b p d :
  shape b -> inr p -> unassigned_at b p ->
  narrowed (domain (cell_at b p)) d ->
  prunes [p] b (put b p (with_domain (cell_at b p) d)).
Proof.
  intros Hs Hp Hu Hn. split; [by apply shape_put|]. intros q Hq.
  rewrite cell_at_put by done. destruct (decide (p = q)) as [<-|Hne].
  - split; [done|]. split; [done|].
    intros [Hc|Hc]; [|unfold unassigned_at in Hu; congruence].
    exfalso. apply Hc. by apply list_elem_of_singleton.
  - split; [by destruct (cell_at b q)|]. split; [apply narrowed_refl|done].
Qed.

(** ** The neighbours of a cell *)

Lemma forall_scan (P : Pos -> bool) :
  forallb P scan = true -> forall p, inr p -> P p = true.
Proof.
  intros H p Hp. rewrite forallb_forall in H.
  by apply H, list_elem_of_In, inr_cases.
Qed.

Lemma forall_scan2 (P : Pos -> Pos -> bool) :
  forallb (fun p => forallb (P p) scan) scan = true ->
  forall p q, inr p -> inr q -> P p q = true.
Proof.
  intros H p q Hp Hq. apply (forall_scan (P p)); [|done].
  by apply (forall_scan (fun p => forallb (P p) scan)).
Qed.

Lemma peers_inr p : inr p -> Forall inr (peers p).
Proof.
  intros Hp.
  apply (forall_scan (fun p => bool_decide (Forall inr (peers p)))) in Hp;
    [by apply bool_decide_eq_true in Hp | by vm_compute].
Qed.

Lemma peers_NoDup p : inr p -> NoDup (peers p).
Proof.
  intros Hp.
  apply (forall_scan (fun p => bool_decide (NoDup (peers p)))) in Hp;
    [by apply bool_decide_eq_true in Hp | by vm_compute].
Qed.

Lemma peers_same_unit p q :
  inr p -> inr q -> q ∈ peers p <-> same_unit p q.
Proof.
  intros Hp Hq.
  pose proof (forall_scan2
    (fun p q => bool_decide (q ∈ peers p <-> same_unit p q))) as H.
  specialize (H ltac:(by vm_compute) p q Hp Hq).
  by apply bool_decide_eq_true in H.
Qed.

Lemma same_unit_sym p q : same_unit p q -> same_unit q p.
Proof. unfold same_unit. intros [Hne H]. split; [congruence|]. intuition congruence. Qed.

Lemma peers_sym p q : inr p -> inr q -> q ∈ peers p -> p ∈ peers q.
Proof.
  intros Hp Hq H. apply peers_same_unit; [done..|].
  by apply same_unit_sym, peers_same_unit.
Qed.

Lemma peers_irrefl p : inr p -> p ∉ peers p.
Proof. intros Hp H. apply peers_same_unit in H; [|done..]. by destruct H. Qed.

Lemma neighbour_peer p d : inr p -> inr (neighbour p d) -> neighbour p d ∈ peers p.
Proof.
  intros Hp Hn. apply peers_same_unit; [done..|].
  destruct p as [i j]. unfold same_unit. destruct d; simpl; split;
    try (intros E; injection E; lia); auto.
Qed.

(** ** The steps of [forward_check] *)

Lemma wf_domain_len b p :
  wf_board b = true -> inr p -> len (domain (cell_at b p)) = 9.
Proof.
  intros Hwf Hp. destruct (wf_board_at b p Hwf Hp) as [Hc _].
  apply wf_cell_inv in Hc as (_ & Hl & _). unfold len. lia.
Qed.

Lemma zero_entry_Ret b p k :
  wf_board b = true -> inr p -> 0 <= k < 9 ->
  zero_entry b p.1 p.2 k =
    Ret (put b p (with_domain (cell_at b p)
                    (<[Z.to_nat k := 0]> (domain (cell_at b p))))).
Proof.
  intros Hwf Hp Hk. pose proof (wf_board_shape b Hwf) as Hs.
  destruct p as [i j]. unfold zero_entry. simpl.
  rewrite cell_Ret by done. simpl.
  rewrite setitem_in_range by (rewrite wf_domain_len by done; lia). simpl.
  by rewrite set_cell_Ret.
Qed.

Lemma zero_entry_prunes b p k :
  wf_board b = true -> inr p -> unassigned_at b p ->
  prunes [p] b (put b p (with_domain (cell_at b p)
                           (<[Z.to_nat k := 0]> (domain (cell_at b p))))).
Proof.
  intros Hwf Hp Hu. apply prunes_put; [by apply wf_board_shape|done..|].
  apply narrowed_insert.
Qed.

(** A candidate that is gone stays gone. *)
Lemma narrowed_zero d d' k :
  narrowed d d' -> d !! k = Some 0 -> d' !! k = Some 0.
Proof.
  intros [Hl Hn] Hk.
  destruct (lookup_lt_is_Some_2 d' k) as [x Hx].
  { rewrite Hl. by apply lookup_lt_Some in Hk. }
  destruct (Hn _ _ Hx) as [->|Hx']; [done|congruence].
Qed.

Lemma prunes_zero ps b b' p k :
  prunes ps b b' -> inr p ->
  domain (cell_at b p) !! k = Some 0 -> domain (cell_at b' p) !! k = Some 0.
Proof.
  intros [_ H] Hp Hk. destruct (H p Hp) as (_ & N & _).
  by eapply narrowed_zero.
Qed.

Lemma prunes_unassigned ps b b' p :
  prunes ps b b' -> inr p -> unassigned_at b p <-> unassigned_at b' p.
Proof. intros H Hp. unfold unassigned_at. by rewrite (prunes_assigned _ _ _ _ H Hp). Qed.

Lemma prunes_outside ps b b' p :
  prunes ps b b' -> inr p -> p ∉ ps -> cell_at b' p = cell_at b p.
Proof. intros [_ H] Hp Hn. destruct (H p Hp) as (_ & _ & F). apply F. by left. Qed.

Lemma prunes_tail p ps b b' : prunes ps b b' -> prunes (p :: ps) b b'.
Proof. apply prunes_mono. intros q Hq. apply elem_of_cons. by right. Qed.

Lemma prunes_head p ps b b' : prunes [p] b b' -> prunes (p :: ps) b b'.
Proof.
  apply prunes_mono. intros q Hq. apply list_elem_of_singleton in Hq as ->.
  apply elem_of_cons. by left.
Qed.

Lemma prune_loop_spec b v ps :
  wf_board b = true -> 1 <= v <= 9 -> Forall inr ps -> NoDup ps ->
  exists b' ok, prune_loop b v ps = Ret (b', ok) /\ prunes ps b b' /\
    (ok = true ->
       (forall q, q ∈ ps -> unassigned_at b q ->
          domain (cell_at b' q) !! Z.to_nat (v - 1) = Some 0 /\
          remaining_value_count (cell_at b' q) <> 0)) /\
    (ok = false ->
       exists q, q ∈ ps /\ unassigned_at b q /\
                 remaining_value_count (cell_at b' q) = 0).
Proof.
  intros Hwf Hv Hin Hnd. revert b Hwf.
  induction ps as [|p rest IH]; intros b Hwf.
  - exists b, true. split; [done|]. split; [by apply prunes_refl, wf_board_shape|].
    split; [|done]. intros _ q Hq. by apply elem_of_nil in Hq.
  - apply Forall_cons in Hin as [Hp Hin]. apply NoDup_cons in Hnd as [Hnp Hnd].
    pose proof (wf_board_shape b Hwf) as Hs.
    destruct p as [k l]. simpl. rewrite cell_Ret by done. simpl.
    destruct (assigned (cell_at b (k, l))) eqn:Has.
    + destruct (IH Hin Hnd b Hwf) as (b' & ok & -> & Hpr & Ht & Hf).
      exists b', ok. split; [done|]. split.
      { by apply prunes_tail. }
      split.
      * intros Hok q Hq Hu. apply Ht; [done| |done].
        apply elem_of_cons in Hq as [->|Hq]; [|done].
        unfold unassigned_at in Hu. congruence.
      * intros Hok. destruct (Hf Hok) as (q & Hq & Hu & Hc).
        exists q. split; [apply elem_of_cons; by right|done].
    + rewrite (zero_entry_Ret b (k, l)) by (done || lia). simpl.
      set (b1 := put b (k, l) _).
      assert (Hp1 : prunes [(k, l)] b b1) by (by apply zero_entry_prunes).
      assert (Hwf1 : wf_board b1 = true) by (by eapply prunes_wf).
      rewrite cell_Ret by (done || by apply wf_board_shape). simpl.
      assert (Hz : domain (cell_at b1 (k, l)) !! Z.to_nat (v - 1) = Some 0).
      { unfold b1. rewrite cell_at_put_eq by done. simpl.
        apply list_lookup_insert_eq.
        pose proof (wf_domain_len b (k, l) Hwf Hp). unfold len in *. lia. }
      destruct (Z.eqb_spec (remaining_value_count (cell_at b1 (k, l))) 0) as [Hc|Hc].
      * exists b1, false. split; [done|]. split.
        { by apply prunes_head. }
        split; [done|]. intros _. exists (k, l). split; [apply elem_of_cons; by left|done].
      * destruct (IH Hin Hnd b1 Hwf1) as (b' & ok & -> & Hpr & Ht & Hf).
        exists b', ok. split; [done|].
        assert (Hpr' : prunes ((k, l) :: rest) b b').
        { eapply prunes_trans; [by apply prunes_head|by apply prunes_tail]. }
        split; [done|]. split.
        -- intros Hok q Hq Hu. apply elem_of_cons in Hq as [->|Hq].
           ++ rewrite (prunes_outside _ _ _ _ Hpr Hp Hnp). done.
           ++ apply Ht; [done..|].
              rewrite Forall_forall in Hin.
              by apply (prunes_unassigned _ _ _ _ Hp1); [apply Hin|].
        -- intros Hok. destruct (Hf Hok) as (q & Hq & Hu & Hc0).
           exists q. split; [apply elem_of_cons; by right|]. split; [|done].
           rewrite Forall_forall in Hin.
           by apply (prunes_unassigned _ _ _ _ Hp1); [apply Hin|].
Qed.

Lemma clear_not_in_spec b p remain ks :
  wf_board b = true -> inr p -> unassigned_at b p ->
  Forall (fun k => 0 <= k < 9) ks ->
  exists b', clear_not_in b p.1 p.2 remain ks = Ret b' /\ prunes [p] b b' /\
    forall k, k ∈ ks -> py_in (k + 1) remain = false ->
      domain (cell_at b' p) !! Z.to_nat k = Some 0.
Proof.
  intros Hwf Hp Hu Hks. revert b Hwf Hu.
  induction ks as [|k rest IH]; intros b Hwf Hu.
  - exists b. split; [done|]. split; [by apply prunes_refl, wf_board_shape|].
    intros k Hk. by apply elem_of_nil in Hk.
  - apply Forall_cons in Hks as [Hk Hks]. simpl.
    destruct (py_in (k + 1) remain) eqn:Hin; simpl.
    + destruct (IH Hks b Hwf Hu) as (b' & -> & Hpr & Hz).
      exists b'. split; [done|]. split; [done|].
      intros k' Hk' Hn. apply elem_of_cons in Hk' as [->|Hk']; [congruence|].
      by apply Hz.
    + rewrite (zero_entry_Ret b p) by done. simpl.
      set (b1 := put b p _).
      assert (Hp1 : prunes [p] b b1) by (by apply zero_entry_prunes).
      assert (Hwf1 : wf_board b1 = true) by (by eapply prunes_wf).
      assert (Hu1 : unassigned_at b1 p) by (by apply (prunes_unassigned _ _ _ _ Hp1)).
      destruct (IH Hks b1 Hwf1 Hu1) as (b' & -> & Hpr & Hz).
      exists b'. split; [done|]. split; [by eapply prunes_trans|].
      intros k' Hk' Hn. apply elem_of_cons in Hk' as [->|Hk']; [|by apply Hz].
      apply (prunes_zero _ _ _ _ _ Hpr Hp).
      unfold b1. rewrite cell_at_put_eq by (done || by apply wf_board_shape).
      simpl. apply list_lookup_insert_eq.
      pose proof (wf_domain_len b p Hwf Hp). unfold len in *. lia.
Qed.

Lemma dot_remains_Ret dot v :
  dot ∈ dot_types -> dot <> "0"%string -> exists remain, dot_remains dot v = Ret remain.
Proof.
  intros Hd Hne. unfold dot_types in Hd.
  apply elem_of_cons in Hd as [->|Hd]; [done|].
  apply elem_of_cons in Hd as [->|Hd].
  - unfold dot_remains. simpl. repeat case_match; eauto.
  - apply list_elem_of_singleton in Hd as ->. unfold dot_remains. simpl.
    pose proof (Z.mod_pos_bound v 2 ltac:(lia)).
    repeat case_match; eauto; lia.
Qed.

Lemma dot_prune_spec b dot v q :
  wf_board b = true -> dot ∈ dot_types -> (dot <> "0"%string -> inr q) ->
  exists b' ok, dot_prune b dot v q.1 q.2 = Ret (b', ok) /\ prunes [q] b b' /\
    (ok = true ->
       (forall r, inr r -> remaining_value_count (cell_at b r) <> 0 ->
                  remaining_value_count (cell_at b' r) <> 0) /\
       (dot <> "0"%string -> unassigned_at b q ->
        forall remain, dot_remains dot v = Ret remain ->
        forall k, 0 <= k < 9 -> py_in (k + 1) remain = false ->
          domain (cell_at b' q) !! Z.to_nat k = Some 0)) /\
    (ok = false ->
       dot <> "0"%string /\ unassigned_at b q /\
       remaining_value_count (cell_at b' q) = 0).
Proof.
  intros Hwf Hd Hq. pose proof (wf_board_shape b Hwf) as Hs.
  unfold dot_prune. destruct (String.eqb_spec dot "0") as [->|Hne].
  - exists b, true. split; [done|]. split; [by apply prunes_refl|].
    split; [|done]. intros _. split; [done|]. by intros [].
  - specialize (Hq Hne). destruct q as [k l]. simpl.
    rewrite cell_Ret by done. simpl.
    destruct (assigned (cell_at b (k, l))) eqn:Has.
    + exists b, true. split; [done|]. split; [by apply prunes_refl|].
      split; [|done]. intros _. split; [done|].
      unfold unassigned_at. intros _ Hu. congruence.
    + destruct (dot_remains_Ret dot v Hd Hne) as [remain Hrem]. rewrite Hrem. simpl.
      rewrite wf_domain_len by done.
      destruct (clear_not_in_spec b (k, l) remain (range 0 9) Hwf Hq Has)
        as (b' & E & Hpr & Hz).
      { apply Forall_forall. intros x Hx. by apply elem_of_range in Hx. }
      cbn [fst snd] in E. rewrite E. rsimpl.
      rewrite cell_Ret by (done || by destruct Hpr). rsimpl.
      destruct (Z.eqb_spec (remaining_value_count (cell_at b' (k, l))) 0) as [Hc|Hc].
      * exists b', false. split; [done|]. split; [done|]. split; [done|].
        intros _. done.
      * exists b', true. split; [done|]. split; [done|]. split; [|done].
        intros _. split.
        -- intros r Hr Hcr. destruct (decide (r = (k, l))) as [->|Hrne]; [done|].
           rewrite (prunes_outside _ _ _ _ Hpr Hr); [done|].
           intros Hin. by apply list_elem_of_singleton in Hin.
        -- intros _ _ remain' Hrem' i Hi Hni.
           assert (remain' = remain) as -> by congruence.
           apply Hz; [|done]. by apply elem_of_range.
Qed.

Lemma save_loop_spec b ps original :
  shape b -> Forall inr ps ->
  save_loop b ps original = Ret (original ++ snapshot b ps).
Proof.
  intros Hs Hin. revert original.
  induction ps as [|[k l] rest IH]; intros original.
  - simpl. unfold snapshot. simpl. by rewrite app_nil_r.
  - apply Forall_cons in Hin as [Hp Hin]. simpl.
    rewrite cell_Ret by done. rsimpl. unfold snapshot.
    rewrite filter_cons.
    destruct (decide (unassigned_at b (k, l))) as [Hu|Hu]; unfold unassigned_at in Hu.
    + rewrite Hu. rewrite IH by done.
      unfold snapshot. simpl. by rewrite <- app_assoc.
    + apply not_false_is_true in Hu. rewrite Hu. by apply IH.
Qed.

Lemma snapshot_app b l1 l2 : snapshot b (l1 ++ l2) = snapshot b l1 ++ snapshot b l2.
Proof. unfold snapshot. by rewrite filter_app, fmap_app. Qed.

Lemma prune_loop_keeps b v ps b' :
  wf_board b = true -> 1 <= v <= 9 -> Forall inr ps -> NoDup ps ->
  prune_loop b v ps = Ret (b', true) ->
  prunes ps b b' /\
  (forall q, q ∈ ps -> unassigned_at b q ->
     domain (cell_at b' q) !! Z.to_nat (v - 1) = Some 0 /\
     remaining_value_count (cell_at b' q) <> 0) /\
  (forall r, inr r -> remaining_value_count (cell_at b r) <> 0 ->
             remaining_value_count (cell_at b' r) <> 0).
Proof.
  intros Hwf Hv Hin Hnd E.
  destruct (prune_loop_spec b v ps Hwf Hv Hin Hnd) as (b1 & ok & E1 & Hpr & Ht & _).
  rewrite E in E1. injection E1 as <- <-. specialize (Ht eq_refl).
  split; [done|]. split; [done|].
  intros r Hr Hc. destruct (decide (r ∈ ps)) as [Hrin|Hrout].
  - destruct (assigned (cell_at b r)) eqn:Has.
    + destruct Hpr as [_ H]. destruct (H r Hr) as (_ & _ & F).
      rewrite F; [done | by right].
    + by apply Ht.
  - by rewrite (prunes_outside _ _ _ _ Hpr Hr Hrout).
Qed.

Lemma wf_dot_types b p d :
  wf_board b = true -> inr p -> dot_of (cell_at b p) d ∈ dot_types.
Proof.
  intros Hwf Hp. destruct (wf_board_at b p Hwf Hp) as [Hc _].
  apply wf_cell_inv in Hc as (_ & _ & _ & Hu & Hd & Hl & Hr). by destruct d.
Qed.

(** No dot leads out of the grid. *)
Lemma wf_neighbour_inr b p d :
  wf_board b = true -> inr p -> dot_of (cell_at b p) d <> "0"%string ->
  inr (neighbour p d).
Proof.
  intros Hwf Hp Hd. destruct (wf_board_at b p Hwf Hp) as [_ He].
  unfold wf_edges in He. cbv zeta in He. rewrite !andb_true_iff in He.
  destruct He as [[[Hu Hdn] Hl] Hr]. destruct Hp as [Hp1 Hp2].
  destruct p as [i j]. simpl in *.
  destruct d; simpl in *; split; simpl; try lia.
  - destruct (Z.eqb_spec i 0); [|lia]. by apply String.eqb_eq in Hu.
  - destruct (Z.eqb_spec i 8); [|lia]. by apply String.eqb_eq in Hdn.
  - destruct (Z.eqb_spec j 0); [|lia]. by apply String.eqb_eq in Hl.
  - destruct (Z.eqb_spec j 8); [|lia]. by apply String.eqb_eq in Hr.
Qed.

(** The dot on an edge reads the same from both sides. *)
Lemma wf_dot_sym b p d :
  wf_board b = true -> inr p -> inr (neighbour p d) ->
  dot_of (cell_at b (neighbour p d)) (opposite d) = dot_of (cell_at b p) d.
Proof.
  intros Hwf Hp Hn. destruct (wf_board_at b p Hwf Hp) as [_ He].
  unfold wf_edges in He. cbv zeta in He. rewrite !andb_true_iff in He.
  destruct He as [[[Hu Hdn] Hl] Hr]. destruct Hn as [Hn1 Hn2].
  destruct p as [i j]. simpl in *.
  destruct d; simpl in *.
  - destruct (Z.eqb_spec i 0); [lia|]. by apply String.eqb_eq in Hu.
  - destruct (Z.eqb_spec i 8); [lia|]. by apply String.eqb_eq in Hdn.
  - destruct (Z.eqb_spec j 0); [lia|]. by apply String.eqb_eq in Hl.
  - destruct (Z.eqb_spec j 8); [lia|]. by apply String.eqb_eq in Hr.
Qed.

Lemma dot_step_spec b p v d :
  wf_board b = true -> inr p ->
  exists b' ok,
    dot_prune b (dot_of (cell_at b p) d) v (neighbour p d).1 (neighbour p d).2
      = Ret (b', ok) /\
    prunes (peers p) b b' /\
    (ok = true ->
       (forall r, inr r -> remaining_value_count (cell_at b r) <> 0 ->
                  remaining_value_count (cell_at b' r) <> 0) /\
       (dot_of (cell_at b p) d <> "0"%string -> unassigned_at b (neighbour p d) ->
        forall remain, dot_remains (dot_of (cell_at b p) d) v = Ret remain ->
        forall k, 0 <= k < 9 -> py_in (k + 1) remain = false ->
          domain (cell_at b' (neighbour p d)) !! Z.to_nat k = Some 0)) /\
    (ok = false ->
       exists q, q ∈ peers p /\ unassigned_at b q /\
                 remaining_value_count (cell_at b' q) = 0).
Proof.
  intros Hwf Hp.
  destruct (dot_prune_spec b (dot_of (cell_at b p) d) v (neighbour p d) Hwf)
    as (b' & ok & E & Hpr & Ht & Hf).
  { by apply wf_dot_types. }
  { by apply wf_neighbour_inr. }
  exists b', ok. split; [done|]. split; [|split; [done|]].
  - destruct (decide (dot_of (cell_at b p) d = "0"%string)) as [E0|Hne].
    + rewrite E0 in E. unfold dot_prune in E. simpl in E. injection E as <- _.
      by apply prunes_refl, wf_board_shape.
    + eapply prunes_mono; [|done]. intros q Hq.
      apply list_elem_of_singleton in Hq as ->.
      apply neighbour_peer; [done|]. by eapply wf_neighbour_inr.
  - intros Hok. destruct (Hf Hok) as (Hne & Hu & Hc).
    exists (neighbour p d). split; [|done].
    apply neighbour_peer; [done|]. by eapply wf_neighbour_inr.
Qed.

(** ** [forward_check] as a whole *)

Lemma forward_check_spec b p v :
  wf_board b = true -> inr p ->
  py_int (value (cell_at b p)) = Ret v -> 1 <= v <= 9 ->
  exists b' ok,
    forward_check b p.1 p.2 = Ret (b', ok, snapshot b (peers p)) /\
    prunes (peers p) b b' /\
    (ok = true ->
       value_pruned b' p v /\ (forall d, dot_pruned b' p v d) /\ no_wipeout b' p) /\
    (ok = false ->
       exists q, q ∈ peers p /\ unassigned_at b' q /\
                 remaining_value_count (cell_at b' q) = 0).
Proof.
  intros Hwf Hp Hv Hv9. pose proof (wf_board_shape b Hwf) as Hs.
  pose proof (peers_inr p Hp) as Hin. pose proof (peers_NoDup p Hp) as Hnd.
  pose proof (peers_irrefl p Hp) as Hirr.
  assert (Hinr : forall q, q ∈ peers p -> inr q).
  { intros q Hq. rewrite Forall_forall in Hin. by apply Hin. }
  assert (Hsub1 : row_cells p.1 p.2 ⊆ peers p).
  { intros q Hq. unfold peers. apply elem_of_app. by left. }
  assert (Hsub2 : col_cells p.1 p.2 ⊆ peers p).
  { intros q Hq. unfold peers. rewrite !elem_of_app. right. by left. }
  assert (Hsub3 : box_cells p.1 p.2 ⊆ peers p).
  { intros q Hq. unfold peers. rewrite !elem_of_app. right. by right. }
  assert (Hsnap : (([] ++ snapshot b (row_cells p.1 p.2)) ++ snapshot b (col_cells p.1 p.2))
                    ++ snapshot b (box_cells p.1 p.2) = snapshot b (peers p)).
  { unfold peers. rewrite !snapshot_app. simpl. by rewrite app_assoc. }
  unfold peers in Hin, Hnd.
  apply Forall_app in Hin as [Hin1 Hin23]. apply Forall_app in Hin23 as [Hin2 Hin3].
  apply NoDup_app in Hnd as (Hnd1 & _ & Hnd23).
  apply NoDup_app in Hnd23 as (Hnd2 & _ & Hnd3).
  unfold forward_check.
  rewrite save_loop_spec by done. rsimpl.
  rewrite save_loop_spec by done. rsimpl.
  rewrite save_loop_spec by done. rsimpl.
  rewrite Hsnap. clear Hsnap.
  rewrite (cell_Ret b) by (done || by destruct p). rsimpl.
  replace (p.1, p.2) with p by (by destruct p). rewrite Hv. rsimpl.
  (* the row *)
  destruct (prune_loop_spec b v _ Hwf Hv9 Hin1 Hnd1) as (b1 & ok1 & E1 & P1 & _ & F1).
  rewrite E1. unfold and_then at 1. rsimpl.
  assert (A1 : prunes (peers p) b b1) by exact (prunes_mono _ _ _ _ Hsub1 P1).
  destruct ok1.
  2:{ exists b1, false. split; [done|]. split; [done|]. split; [done|]. intros _.
      destruct (F1 eq_refl) as (q & Hq & Hu & Hc). exists q.
      split; [by apply Hsub1|]. split; [|done].
      apply (prunes_unassigned _ _ _ _ A1); [apply Hinr; by apply Hsub1|done]. }
  destruct (prune_loop_keeps _ _ _ _ Hwf Hv9 Hin1 Hnd1 E1) as (_ & T1 & K1). clear F1.
  assert (Hwf1 : wf_board b1 = true) by (by eapply prunes_wf).
  (* the column *)
  destruct (prune_loop_spec b1 v _ Hwf1 Hv9 Hin2 Hnd2) as (b2 & ok2 & E2 & P2 & _ & F2).
  rewrite E2. unfold and_then at 1. rsimpl.
  assert (S2 : prunes (peers p) b1 b2) by exact (prunes_mono _ _ _ _ Hsub2 P2).
  assert (A2 : prunes (peers p) b b2) by (by eapply prunes_trans).
  destruct ok2.
  2:{ exists b2, false. split; [done|]. split; [done|]. split; [done|]. intros _.
      destruct (F2 eq_refl) as (q & Hq & Hu & Hc). exists q.
      split; [by apply Hsub2|]. split; [|done].
      apply (prunes_unassigned _ _ _ _ S2); [apply Hinr; by apply Hsub2|done]. }
  destruct (prune_loop_keeps _ _ _ _ Hwf1 Hv9 Hin2 Hnd2 E2) as (_ & T2 & K2). clear F2.
  assert (Hwf2 : wf_board b2 = true) by (by eapply prunes_wf).
  (* the box *)
  destruct (prune_loop_spec b2 v _ Hwf2 Hv9 Hin3 Hnd3) as (b3 & ok3 & E3 & P3 & _ & F3).
  rewrite E3. unfold and_then at 1. rsimpl.
  assert (S3 : prunes (peers p) b2 b3) by exact (prunes_mono _ _ _ _ Hsub3 P3).
  assert (A3 : prunes (peers p) b b3) by (by eapply prunes_trans).
  destruct ok3.
  2:{ exists b3, false. split; [done|]. split; [done|]. split; [done|]. intros _.
      destruct (F3 eq_refl) as (q & Hq & Hu & Hc). exists q.
      split; [by apply Hsub3|]. split; [|done].
      apply (prunes_unassigned _ _ _ _ S3); [apply Hinr; by apply Hsub3|done]. }
  destruct (prune_loop_keeps _ _ _ _ Hwf2 Hv9 Hin3 Hnd3 E3) as (_ & T3 & K3). clear F3.
  assert (Hwf3 : wf_board b3 = true) by (by eapply prunes_wf).
  rewrite (cell_Ret b3) by (by destruct p, A3). rsimpl.
  replace (p.1, p.2) with p by (by destruct p).
  (* the four dots *)
  destruct (dot_step_spec b3 p v U Hwf3 Hp) as (b4 & ok4 & E4 & S4 & T4 & F4).
  cbn [dot_of neighbour fst snd] in E4. rewrite E4. unfold and_then at 1. rsimpl.
  assert (A4 : prunes (peers p) b b4) by (by eapply prunes_trans).
  destruct ok4.
  2:{ exists b4, false. split; [done|]. split; [done|]. split; [done|]. intros _.
      destruct (F4 eq_refl) as (q & Hq & Hu & Hc). exists q.
      split; [done|]. split; [|done].
      apply (prunes_unassigned _ _ _ _ S4); [by apply Hinr|done]. }
  destruct (T4 eq_refl) as [K4 Z4]. clear T4 F4.
  assert (Hwf4 : wf_board b4 = true) by (by eapply prunes_wf).
  assert (C4 : cell_at b4 p = cell_at b3 p) by (by eapply prunes_outside).
  destruct (dot_step_spec b4 p v D Hwf4 Hp) as (b5 & ok5 & E5 & S5 & T5 & F5).
  rewrite C4 in E5.
  cbn [dot_of neighbour fst snd] in E5. rewrite E5. unfold and_then at 1. rsimpl.
  assert (A5 : prunes (peers p) b b5) by (by eapply prunes_trans).
  destruct ok5.
  2:{ exists b5, false. split; [done|]. split; [done|]. split; [done|]. intros _.
      destruct (F5 eq_refl) as (q & Hq & Hu & Hc). exists q.
      split; [done|]. split; [|done].
      apply (prunes_unassigned _ _ _ _ S5); [by apply Hinr|done]. }
  destruct (T5 eq_refl) as [K5 Z5]. clear T5 F5.
  assert (Hwf5 : wf_board b5 = true) by (by eapply prunes_wf).
  assert (C5 : cell_at b5 p = cell_at b3 p).
  { rewrite <- C4. by eapply prunes_outside. }
  destruct (dot_step_spec b5 p v L Hwf5 Hp) as (b6 & ok6 & E6 & S6 & T6 & F6).
  rewrite C5 in E6.
  cbn [dot_of neighbour fst snd] in E6. rewrite E6. unfold and_then at 1. rsimpl.
  assert (A6 : prunes (peers p) b b6) by (by eapply prunes_trans).
  destruct ok6.
  2:{ exists b6, false. split; [done|]. split; [done|]. split; [done|]. intros _.
      destruct (F6 eq_refl) as (q & Hq & Hu & Hc). exists q.
      split; [done|]. split; [|done].
      apply (prunes_unassigned _ _ _ _ S6); [by apply Hinr|done]. }
  destruct (T6 eq_refl) as [K6 Z6]. clear T6 F6.
  assert (Hwf6 : wf_board b6 = true) by (by eapply prunes_wf).
  assert (C6 : cell_at b6 p = cell_at b3 p).
  { rewrite <- C5. by eapply prunes_outside. }
  destruct (dot_step_spec b6 p v R Hwf6 Hp) as (b7 & ok7 & E7 & S7 & T7 & F7).
  rewrite C6 in E7.
  cbn [dot_of neighbour fst snd] in E7. rewrite E7. unfold and_then at 1. rsimpl.
  assert (A7 : prunes (peers p) b b7) by (by eapply prunes_trans).
  destruct ok7.
  2:{ exists b7, false. split; [done|]. split; [done|]. split; [done|]. intros _.
      destruct (F7 eq_refl) as (q & Hq & Hu & Hc). exists q.
      split; [done|]. split; [|done].
      apply (prunes_unassigned _ _ _ _ S7); [by apply Hinr|done]. }
  destruct (T7 eq_refl) as [K7 Z7]. clear T7 F7.
  assert (C7 : cell_at b7 p = cell_at b3 p).
  { rewrite <- C6. by eapply prunes_outside. }
  exists b7, true. split; [done|]. split; [done|]. split; [|done]. intros _.
  (* what holds of an unassigned neighbour at the end *)
  assert (Hun : forall q, inr q -> unassigned_at b7 q ->
            unassigned_at b q /\ unassigned_at b1 q /\ unassigned_at b2 q /\
            unassigned_at b3 q /\ unassigned_at b4 q /\ unassigned_at b5 q /\
            unassigned_at b6 q).
  { intros q Hq Hu.
    apply (prunes_unassigned _ _ _ _ S7 Hq) in Hu as Hu6.
    apply (prunes_unassigned _ _ _ _ S6 Hq) in Hu6 as Hu5.
    apply (prunes_unassigned _ _ _ _ S5 Hq) in Hu5 as Hu4.
    apply (prunes_unassigned _ _ _ _ S4 Hq) in Hu4 as Hu3.
    apply (prunes_unassigned _ _ _ _ S3 Hq) in Hu3 as Hu2.
    apply (prunes_unassigned _ _ _ _ S2 Hq) in Hu2 as Hu1.
    apply (prunes_unassigned _ _ _ _ A1 Hq) in Hu1 as Hu0. done. }
  split; [|split].
  - intros q Hq Hu. pose proof (Hinr q Hq) as Hqi.
    destruct (Hun q Hqi Hu) as (Hu0 & Hu1 & Hu2 & _).
    apply (prunes_zero _ _ _ _ _ S7 Hqi), (prunes_zero _ _ _ _ _ S6 Hqi),
          (prunes_zero _ _ _ _ _ S5 Hqi), (prunes_zero _ _ _ _ _ S4 Hqi).
    unfold peers in Hq. rewrite !elem_of_app in Hq. destruct Hq as [Hq|[Hq|Hq]].
    + apply (prunes_zero _ _ _ _ _ S3 Hqi), (prunes_zero _ _ _ _ _ S2 Hqi).
      by apply T1.
    + apply (prunes_zero _ _ _ _ _ S3 Hqi). by apply T2.
    + by apply T3.
  - intros d. unfold dot_pruned. rewrite C7. intros Hne Hu remain Hrem k Hk Hnin.
    assert (Hqi : inr (neighbour p d)).
    { apply (wf_neighbour_inr b3); [done..|]. done. }
    destruct (Hun _ Hqi Hu) as (_ & _ & _ & Hu3 & Hu4 & Hu5 & Hu6).
    destruct d.
    + apply (prunes_zero _ _ _ _ _ S7 Hqi), (prunes_zero _ _ _ _ _ S6 Hqi),
            (prunes_zero _ _ _ _ _ S5 Hqi).
      by eapply Z4.
    + apply (prunes_zero _ _ _ _ _ S7 Hqi), (prunes_zero _ _ _ _ _ S6 Hqi).
      eapply Z5; rewrite ?C4; done.
    + apply (prunes_zero _ _ _ _ _ S7 Hqi).
      eapply Z6; rewrite ?C5; done.
    + eapply Z7; rewrite ?C6; done.
  - intros q Hq Hu. pose proof (Hinr q Hq) as Hqi.
    destruct (Hun q Hqi Hu) as (Hu0 & Hu1 & Hu2 & _).
    apply K7, K6, K5, K4; try done.
    unfold peers in Hq. rewrite !elem_of_app in Hq. destruct Hq as [Hq|[Hq|Hq]].
    + apply K3, K2; try done. by apply T1.
    + apply K3; try done. by apply T2.
    + by apply T3.
Qed.

(** ** Assigning a value and undoing it *)

Lemma py_str_digit v : 0 <= v <= 9 -> py_str v ∈ digits.
Proof.
  intros Hv.
  assert (v = 0 \/ v = 1 \/ v = 2 \/ v = 3 \/ v = 4 \/ v = 5 \/ v = 6 \/
          v = 7 \/ v = 8 \/ v = 9) as Hc by lia.
  repeat (destruct Hc as [->|Hc];
          [by apply (bool_decide_unpack _); vm_compute|]).
  subst. by apply (bool_decide_unpack _); vm_compute.
Qed.

Lemma digit_py_str s : s ∈ digits -> exists v, 0 <= v <= 9 /\ s = py_str v.
Proof.
  unfold digits. intros Hs.
  do 10 (apply elem_of_cons in Hs as [->|Hs];
         [first [exists 0; split; [lia|reflexivity] | exists 1; split; [lia|reflexivity]
                |exists 2; split; [lia|reflexivity] | exists 3; split; [lia|reflexivity]
                |exists 4; split; [lia|reflexivity] | exists 5; split; [lia|reflexivity]
                |exists 6; split; [lia|reflexivity] | exists 7; split; [lia|reflexivity]
                |exists 8; split; [lia|reflexivity] | exists 9; split; [lia|reflexivity]]|]).
  by apply elem_of_nil in Hs.
Qed.

Lemma set_value_Ret b p s :
  shape b -> inr p ->
  set_value b p.1 p.2 s = Ret (put b p (with_value (cell_at b p) s)).
Proof.
  intros Hs Hp. destruct p as [i j]. unfold set_value. simpl.
  rewrite cell_Ret by done. rsimpl. by rewrite set_cell_Ret.
Qed.

Lemma set_domain_Ret b p d :
  shape b -> inr p ->
  set_domain b p.1 p.2 d = Ret (put b p (with_domain (cell_at b p) d)).
Proof.
  intros Hs Hp. destruct p as [i j]. unfold set_domain. simpl.
  rewrite cell_Ret by done. rsimpl. by rewrite set_cell_Ret.
Qed.

Lemma put_value_wf b p s :
  wf_board b = true -> inr p -> s ∈ digits ->
  wf_board (put b p (with_value (cell_at b p) s)) = true.
Proof.
  intros Hwf Hp Hs. pose proof (wf_board_shape b Hwf) as Hsh.
  assert (Hd : forall q, inr q ->
            dots (cell_at (put b p (with_value (cell_at b p) s)) q) = dots (cell_at b q)).
  { intros q Hq. rewrite cell_at_put by done. by destruct (decide (p = q)) as [->|]. }
  apply wf_board_intro; [by apply shape_put|].
  intros q Hq. destruct (wf_board_at b q Hwf Hq) as [Hc He]. split.
  - rewrite cell_at_put by done. destruct (decide (p = q)) as [->|]; [|done].
    by apply wf_cell_with_value.
  - rewrite <- He. by apply wf_edges_ext.
Qed.

Lemma unassigned_value b p : unassigned_at b p <-> value (cell_at b p) = "0"%string.
Proof.
  unfold unassigned_at, assigned. rewrite negb_false_iff. apply String.eqb_eq.
Qed.

Lemma snapshot_cons_unassigned b p rest :
  unassigned_at b p ->
  snapshot b (p :: rest) = (p, domain (cell_at b p)) :: snapshot b rest.
Proof. intros Hu. unfold snapshot. rewrite filter_cons. by rewrite decide_True. Qed.

Lemma snapshot_cons_assigned b p rest :
  ~ unassigned_at b p -> snapshot b (p :: rest) = snapshot b rest.
Proof. intros Hu. unfold snapshot. rewrite filter_cons. by rewrite decide_False. Qed.

(** Putting the saved domains back. *)
Lemma remove_inferences_spec b b' ps :
  shape b' -> Forall inr ps ->
  exists b'', remove_inferences b' (snapshot b ps) = Ret b'' /\ shape b'' /\
    forall q, inr q ->
      cell_at b'' q =
        if decide (q ∈ ps /\ unassigned_at b q)
        then with_domain (cell_at b' q) (domain (cell_at b q))
        else cell_at b' q.
Proof.
  intros Hs Hin. revert b' Hs. induction ps as [|p rest IH]; intros b' Hs.
  - exists b'. split; [done|]. split; [done|]. intros q Hq.
    rewrite decide_False; [done|]. intros [H _]. by apply elem_of_nil in H.
  - apply Forall_cons in Hin as [Hp Hin].
    destruct (decide (unassigned_at b p)) as [Hu|Hu].
    + rewrite snapshot_cons_unassigned by done.
      cbn [remove_inferences]. destruct p as [i j].
      rewrite (set_domain_Ret b' (i, j)) by done. rsimpl.
      set (b1 := put b' (i, j) _).
      destruct (IH Hin b1) as (b'' & E & Hs'' & Hc); [by apply shape_put|].
      rewrite E. exists b''. split; [done|]. split; [done|].
      intros q Hq. rewrite (Hc q Hq). unfold b1. rewrite cell_at_put by done.
      destruct (decide ((i, j) = q)) as [<-|Hne].
      * rewrite (decide_True (P := (i, j) ∈ (i, j) :: rest /\ _))
          by (split; [apply elem_of_cons; by left|done]).
        by destruct (decide _).
      * destruct (decide (q ∈ rest /\ unassigned_at b q)) as [[H1 H2]|Hn].
        -- rewrite decide_True; [done|]. split; [apply elem_of_cons; by right|done].
        -- rewrite decide_False; [done|]. intros [H1 H2]. apply Hn.
           apply elem_of_cons in H1 as [->|H1]; done.
    + rewrite snapshot_cons_assigned by done.
      destruct (IH Hin b' Hs) as (b'' & E & Hs'' & Hc).
      rewrite E. exists b''. split; [done|]. split; [done|].
      intros q Hq. rewrite (Hc q Hq).
      destruct (decide (q ∈ rest /\ unassigned_at b q)) as [[H1 H2]|Hn].
      * rewrite decide_True; [done|]. split; [apply elem_of_cons; by right|done].
      * rewrite decide_False; [done|]. intros [H1 H2]. apply Hn.
        apply elem_of_cons in H1 as [->|H1]; done.
Qed.

(** Undoing a pruning step with its change record gives the board back. *)
Lemma remove_inferences_prunes ps b b' :
  shape b -> Forall inr ps -> prunes ps b b' ->
  remove_inferences b' (snapshot b ps) = Ret b.
Proof.
  intros Hs Hin Hpr. pose proof Hpr as [Hs' H].
  destruct (remove_inferences_spec b b' ps Hs' Hin) as (b'' & E & Hs'' & Hc).
  rewrite E. f_equal. apply board_ext; [done..|].
  intros q Hq. rewrite (Hc q Hq). destruct (H q Hq) as (Eq & _ & F).
  destruct (decide (q ∈ ps /\ unassigned_at b q)) as [[H1 H2]|Hn].
  - rewrite Eq. by destruct (cell_at b q).
  - apply F. destruct (decide (q ∈ ps)); [|by left]. right.
    unfold unassigned_at in Hn. destruct (assigned (cell_at b q)); [done|].
    exfalso. by apply Hn.
Qed.

Lemma put_put b p c c' : shape b -> inr p -> put (put b p c) p c' = put b p c'.
Proof.
  intros Hs Hp. apply board_ext; [by repeat apply shape_put..|].
  intros q Hq. rewrite !cell_at_put by (done || by apply shape_put).
  by destruct (decide (p = q)).
Qed.

Lemma put_same b p : shape b -> inr p -> put b p (cell_at b p) = b.
Proof.
  intros Hs Hp. apply board_ext; [by apply shape_put|done|].
  intros q Hq. rewrite cell_at_put by done. by destruct (decide (p = q)) as [->|].
Qed.

(** The whole cycle: assign, propagate, undo, reset. *)
Lemma assign_undo b p val :
  wf_board b = true -> inr p -> unassigned_at b p -> 1 <= val <= 9 ->
  exists b1 b2 ok,
    set_value b p.1 p.2 (py_str val) = Ret b1 /\
    wf_board b1 = true /\
    b1 = put b p (with_value (cell_at b p) (py_str val)) /\
    forward_check b1 p.1 p.2 = Ret (b2, ok, snapshot b1 (peers p)) /\
    prunes (peers p) b1 b2 /\
    (ok = true ->
       value_pruned b2 p val /\ (forall d, dot_pruned b2 p val d) /\ no_wipeout b2 p) /\
    (ok = false ->
       exists q, q ∈ peers p /\ unassigned_at b2 q /\
                 remaining_value_count (cell_at b2 q) = 0) /\
    remove_inferences b2 (snapshot b1 (peers p)) = Ret b1 /\
    set_value b1 p.1 p.2 "0" = Ret b.
Proof.
  intros Hwf Hp Hu Hv. pose proof (wf_board_shape b Hwf) as Hs.
  set (b1 := put b p (with_value (cell_at b p) (py_str val))).
  assert (Hwf1 : wf_board b1 = true).
  { apply put_value_wf; [done..|]. apply py_str_digit. lia. }
  pose proof (wf_board_shape b1 Hwf1) as Hs1.
  destruct (forward_check_spec b1 p val Hwf1 Hp) as (b2 & ok & E & Hpr & Ht & Hf).
  { unfold b1. rewrite cell_at_put_eq by done. simpl. apply py_int_str. }
  { done. }
  exists b1, b2, ok. split; [by apply set_value_Ret|]. split; [done|].
  split; [done|]. split; [done|]. split; [done|]. split; [done|]. split; [done|].
  split.
  - apply remove_inferences_prunes; [done| |done]. by apply peers_inr.
  - rewrite set_value_Ret by done. f_equal. unfold b1.
    rewrite cell_at_put_eq by done. rewrite put_put by done.
    transitivity (put b p (cell_at b p)); [|by apply put_same]. f_equal.
    apply unassigned_value in Hu. unfold with_value. simpl. rewrite <- Hu.
    by destruct (cell_at b p).
Qed.

(** ** [select_variable] *)

Lemma count_loop_spec b ps cons :
  shape b -> Forall inr ps ->
  count_loop b ps cons =
    Ret (cons + Z.of_nat (length (filter (unassigned_at b) ps))).
Proof.
  intros Hs Hin. revert cons. induction ps as [|[k l] rest IH]; intros cons.
  - simpl. f_equal. lia.
  - apply Forall_cons in Hin as [Hp Hin]. cbn [count_loop].
    rewrite cell_Ret by done. rsimpl. rewrite filter_cons.
    destruct (decide (unassigned_at b (k, l))) as [Hu|Hu]; unfold unassigned_at in Hu.
    + rewrite Hu. cbn [negb]. rewrite IH by done. f_equal. simpl. lia.
    + apply not_false_is_true in Hu. rewrite Hu. cbn [negb]. by rewrite IH.
Qed.

Lemma unassigned_neighbors_count_spec b p :
  shape b -> inr p ->
  unassigned_neighbors_count b p.1 p.2 = Ret (degree b p).
Proof.
  intros Hs Hp. pose proof (peers_inr p Hp) as Hin. unfold peers in Hin.
  apply Forall_app in Hin as [Hin1 Hin23]. apply Forall_app in Hin23 as [Hin2 Hin3].
  unfold unassigned_neighbors_count.
  rewrite count_loop_spec by done. rsimpl.
  rewrite count_loop_spec by done. rsimpl.
  rewrite count_loop_spec by done. f_equal.
  unfold degree, peers. rewrite !filter_app, !length_app. lia.
Qed.

(** The degree of the code is the degree of the specification. *)
Lemma degree_unit_degree b p : inr p -> degree b p = unit_degree b p.
Proof.
  intros Hp. unfold degree, unit_degree. f_equal. apply Permutation_length.
  apply NoDup_Permutation.
  - apply NoDup_filter. by apply peers_NoDup.
  - apply NoDup_filter. by apply (bool_decide_unpack _); vm_compute.
  - intros q. rewrite !list_elem_of_filter. split.
    + intros [Hu Hq]. pose proof (peers_inr p Hp) as Hin.
      rewrite Forall_forall in Hin. pose proof (Hin q Hq) as Hqi.
      split; [split; [|done]|by apply inr_cases]. by apply peers_same_unit.
    + intros [[Hsu Hu] Hq]. split; [done|].
      apply peers_same_unit; [done| |done]. by apply scan_inr.
Qed.

Lemma filter_nil_impl {A} (P Q : A -> Prop) `{!forall x, Decision (P x)}
    `{!forall x, Decision (Q x)} (l : list A) :
  (forall x, x ∈ l -> Q x -> P x) -> filter P l = [] -> filter Q l = [].
Proof.
  intros HQP HP. apply elem_of_nil_inv. intros x Hx.
  apply list_elem_of_filter in Hx as [HQ Hx].
  assert (x ∈ filter P l) as Hin by (apply list_elem_of_filter; eauto).
  rewrite HP in Hin. by apply elem_of_nil in Hin.
Qed.

Lemma mrv_loop_spec b cells seen curr mrv :
  shape b -> Forall inr cells -> is_mrv b seen curr mrv ->
  exists curr' mrv',
    mrv_loop b cells curr mrv = Ret mrv' /\ is_mrv b (seen ++ cells) curr' mrv'.
Proof.
  intros Hs Hin. revert seen curr mrv.
  induction cells as [|[i j] rest IH]; intros seen curr mrv Hinv.
  - exists curr, mrv. rewrite app_nil_r. done.
  - apply Forall_cons in Hin as [Hp Hin]. cbn [mrv_loop].
    rewrite cell_Ret by done. rsimpl.
    replace (seen ++ (i, j) :: rest) with ((seen ++ [(i, j)]) ++ rest)
      by (by rewrite <- app_assoc).
    destruct (decide (unassigned_at b (i, j))) as [Hu|Hu].
    2:{ pose proof Hu as Hu'. unfold unassigned_at in Hu'.
        apply not_false_is_true in Hu'. rewrite Hu'.
        apply IH; [done|]. destruct curr as [m|]; simpl in *.
        - destruct Hinv as (Hne & Hmin & Hm). split; [done|]. split.
          + intros p Hin' Hup. apply elem_of_app in Hin' as [Hin'|Hin']; [by apply Hmin|].
            by apply list_elem_of_singleton in Hin' as ->.
          + rewrite filter_app, <- Hm. rewrite filter_cons, decide_False by tauto.
            by rewrite filter_nil, app_nil_r.
        - destruct Hinv as [Hnone ->]. split; [|done].
          rewrite filter_app, Hnone. by rewrite filter_cons, decide_False. }
    pose proof Hu as Hu'. unfold unassigned_at in Hu'. rewrite Hu'.
    fold (count_at b (i, j)).
    destruct curr as [m|]; simpl in Hinv.
    + destruct Hinv as (Hne & Hmin & Hm).
      destruct (Z.gtb_spec (count_at b (i, j)) m) as [Hgt|Hle].
      { apply IH; [done|]. simpl. split; [done|]. split.
        - intros p Hin' Hup. apply elem_of_app in Hin' as [Hin'|Hin']; [by apply Hmin|].
          apply list_elem_of_singleton in Hin' as ->. lia.
        - rewrite filter_app, <- Hm. rewrite filter_cons, decide_False by lia.
          by rewrite filter_nil, app_nil_r. }
      destruct (Z.eqb_spec (count_at b (i, j)) m) as [Heq|Hneq].
      { apply IH; [done|]. simpl. split; [by destruct mrv|]. split.
        - intros p Hin' Hup. apply elem_of_app in Hin' as [Hin'|Hin']; [by apply Hmin|].
          apply list_elem_of_singleton in Hin' as ->. lia.
        - rewrite filter_app, <- Hm. rewrite filter_cons, decide_True by done.
          by rewrite filter_nil. }
      apply IH; [done|]. simpl. split; [done|]. split.
      * intros p Hin' Hup. apply elem_of_app in Hin' as [Hin'|Hin'].
        -- specialize (Hmin p Hin' Hup). lia.
        -- apply list_elem_of_singleton in Hin' as ->. lia.
      * rewrite filter_app. rewrite filter_cons, decide_True by done.
        rewrite filter_nil.
        rewrite (elem_of_nil_inv (filter _ seen)); [done|].
        intros x Hx. apply list_elem_of_filter in Hx as [[Hux Hcx] Hx].
        specialize (Hmin x Hx Hux). lia.
    + destruct Hinv as [Hnone ->].
      apply IH; [done|]. simpl. split; [done|]. split.
      * intros p Hin' Hup. apply elem_of_app in Hin' as [Hin'|Hin'].
        -- assert (p ∈ filter (unassigned_at b) seen) as Hc
             by (by apply list_elem_of_filter).
           rewrite Hnone in Hc. by apply elem_of_nil in Hc.
        -- apply list_elem_of_singleton in Hin' as ->. lia.
      * rewrite filter_app. rewrite filter_cons, decide_True by done.
        rewrite filter_nil.
        rewrite (filter_nil_impl (unassigned_at b) _ seen); [done| |done].
        by intros x _ [Hux _].
Qed.

Lemma degree_loop_spec b mrv seen selected deg :
  shape b -> Forall inr mrv -> is_selected b seen selected deg ->
  exists selected' deg',
    degree_loop b mrv selected deg = Ret selected' /\
    is_selected b (seen ++ mrv) selected' deg'.
Proof.
  intros Hs Hin. revert seen selected deg.
  induction mrv as [|[i j] rest IH]; intros seen selected deg Hinv.
  - exists selected, deg. by rewrite app_nil_r.
  - apply Forall_cons in Hin as [Hp Hin]. cbn [degree_loop].
    pose proof (unassigned_neighbors_count_spec b (i, j) Hs Hp) as Hdeg.
    cbn [fst snd] in Hdeg. rewrite Hdeg. rsimpl. clear Hdeg.
    replace (seen ++ (i, j) :: rest) with ((seen ++ [(i, j)]) ++ rest)
      by (by rewrite <- app_assoc).
    destruct selected as [s|]; simpl in Hinv.
    + destruct Hinv as (Hd & l1 & l2 & Hseen & H1 & H2).
      destruct (Z.gtb_spec (degree b (i, j)) deg) as [Hgt|Hle].
      * apply IH; [done|]. simpl. split; [done|].
        exists seen, []. split; [done|]. split; [|by intros q Hq; apply elem_of_nil in Hq].
        intros q Hq. rewrite Hseen in Hq.
        apply elem_of_app in Hq as [Hq|Hq]; [specialize (H1 q Hq); lia|].
        apply elem_of_cons in Hq as [->|Hq]; [lia|]. specialize (H2 q Hq). lia.
      * apply IH; [done|]. simpl. split; [done|].
        exists l1, (l2 ++ [(i, j)]). split; [|split; [done|]].
        -- rewrite Hseen. by rewrite <- app_assoc.
        -- intros q Hq. apply elem_of_app in Hq as [Hq|Hq]; [by apply H2|].
           apply list_elem_of_singleton in Hq as ->. lia.
    + subst seen. apply IH; [done|]. simpl. split; [done|].
      exists [], []. split; [done|].
      split; intros q Hq; by apply elem_of_nil in Hq.
Qed.

Lemma StronglySorted_filter {A} (R : relation A) (P : A -> Prop)
    `{!forall x, Decision (P x)} (l : list A) :
  StronglySorted R l -> StronglySorted R (filter P l).
Proof.
  induction 1 as [|x l Hl IH Hx]; [constructor|].
  rewrite filter_cons. destruct (decide (P x)); [|done].
  constructor; [done|]. apply Forall_forall. intros y Hy.
  apply list_elem_of_filter in Hy as [_ Hy]. rewrite Forall_forall in Hx. by apply Hx.
Qed.

Lemma scan_sorted : StronglySorted row_major_lt scan.
Proof. by apply (bool_decide_unpack _); vm_compute. Qed.

(** What [select_variable] returns on a board with an unassigned cell. *)
Lemma select_variable_spec b :
  shape b -> (exists p, inr p /\ unassigned_at b p) ->
  exists s, select_variable b = Ret (Some s) /\ inr s /\ unassigned_at b s /\
    (forall q, inr q -> unassigned_at b q -> count_at b s <= count_at b q) /\
    (forall q, inr q -> unassigned_at b q -> count_at b q = count_at b s ->
       degree b q <= degree b s) /\
    (forall q, inr q -> unassigned_at b q -> count_at b q = count_at b s ->
       degree b q = degree b s -> q <> s -> row_major_lt s q).
Proof.
  intros Hs (p0 & Hp0 & Hu0).
  assert (Hscan : Forall inr scan).
  { apply Forall_forall. intros q Hq. by apply scan_inr. }
  destruct (mrv_loop_spec b scan [] None [] Hs Hscan) as (curr & mrv & E & Hmrv).
  { by split. }
  rewrite app_nil_l in Hmrv. unfold select_variable. rewrite E. rsimpl.
  destruct curr as [m|]; simpl in Hmrv.
  2:{ destruct Hmrv as [Hnone _]. exfalso.
      assert (p0 ∈ filter (unassigned_at b) scan) as Hc.
      { apply list_elem_of_filter. split; [done|]. by apply inr_cases. }
      rewrite Hnone in Hc. by apply elem_of_nil in Hc. }
  destruct Hmrv as (Hne & Hmin & Hm).
  assert (Hmin' : forall q, q ∈ mrv <-> inr q /\ unassigned_at b q /\ count_at b q = m).
  { intros q. rewrite Hm, list_elem_of_filter. split.
    - intros [[H1 H2] H3]. split; [by apply scan_inr|done].
    - intros (H1 & H2 & H3). split; [done|]. by apply inr_cases. }
  assert (Hmi : Forall inr mrv).
  { apply Forall_forall. intros q Hq. by apply Hmin' in Hq as [? _]. }
  destruct (degree_loop_spec b mrv [] None 0 Hs Hmi) as (sel & deg & E2 & Hsel).
  { done. }
  rewrite app_nil_l in Hsel. rewrite E2.
  destruct sel as [s|]; simpl in Hsel; [|done].
  destruct Hsel as (Hd & l1 & l2 & Hl & H1 & H2).
  assert (Hsm : s ∈ mrv).
  { rewrite Hl. apply elem_of_app. right. apply elem_of_cons. by left. }
  apply Hmin' in Hsm as (Hsi & Hsu & Hsc).
  exists s. split; [done|]. split; [done|]. split; [done|].
  assert (Hcase : forall q, inr q -> unassigned_at b q -> count_at b q = count_at b s ->
            q ∈ l1 \/ q = s \/ q ∈ l2).
  { intros q Hq Hu Hc. assert (q ∈ mrv) as Hqm by (apply Hmin'; split; [done|]; split; [done|lia]).
    rewrite Hl in Hqm. apply elem_of_app in Hqm as [Hqm|Hqm]; [by left|].
    apply elem_of_cons in Hqm as [->|Hqm]; [right; by left|right; by right]. }
  split; [|split].
  - intros q Hq Hu. rewrite Hsc. apply Hmin; [by apply inr_cases|done].
  - intros q Hq Hu Hc. destruct (Hcase q Hq Hu Hc) as [Hq1|[->|Hq2]].
    + specialize (H1 q Hq1). lia.
    + lia.
    + specialize (H2 q Hq2). lia.
  - intros q Hq Hu Hc Hdeg Hne'. destruct (Hcase q Hq Hu Hc) as [Hq1|[->|Hq2]].
    + specialize (H1 q Hq1). lia.
    + done.
    + assert (Hsorted : StronglySorted row_major_lt mrv).
      { rewrite Hm. apply StronglySorted_filter, scan_sorted. }
      rewrite Hl in Hsorted. apply StronglySorted_app_1_r in Hsorted.
      apply StronglySorted_cons in Hsorted as [Hall _].
      rewrite Forall_forall in Hall. by apply Hall.
Qed.

(** ** Reading the domain of the selected cell *)

Lemma getitem_domain b p val :
  wf_board b = true -> inr p -> 1 <= val <= 9 ->
  getitem (domain (cell_at b p)) (val - 1) =
    Ret (domain (cell_at b p) !!! Z.to_nat (val - 1)).
Proof.
  intros Hwf Hp Hv. apply getitem_in_range. rewrite wf_domain_len by done. lia.
Qed.

(** ** Counting the unassigned cells *)

Lemma filter_ext_in {A} (P Q : A -> Prop) `{!forall x, Decision (P x)}
    `{!forall x, Decision (Q x)} (l : list A) :
  (forall x, x ∈ l -> P x <-> Q x) -> filter P l = filter Q l.
Proof.
  induction l as [|x l IH]; intros Hext; [done|].
  rewrite !filter_cons.
  assert (Hx : P x <-> Q x) by (apply Hext, elem_of_cons; by left).
  rewrite IH by (intros y Hy; apply Hext, elem_of_cons; by right).
  destruct (decide (P x)), (decide (Q x)); tauto.
Qed.

Lemma filter_length_lt {A} (P Q : A -> Prop) `{!forall x, Decision (P x)}
    `{!forall x, Decision (Q x)} (l : list A) x :
  (forall y, y ∈ l -> P y -> Q y) -> x ∈ l -> Q x -> ~ P x ->
  (length (filter P l) < length (filter Q l))%nat.
Proof.
  intros HPQ Hx HQ HnP.
  assert (E : filter P l = filter P (filter Q l)).
  { rewrite list_filter_filter. apply filter_ext_in. intros y Hy. split; [|tauto].
    intros HP. split; [done|]. by apply HPQ. }
  rewrite E. apply (length_filter_lt _ _ x); [|done].
  by apply list_elem_of_filter.
Qed.

Lemma py_str_nonzero val : 1 <= val <= 9 -> py_str val <> "0"%string.
Proof. intros Hv E. rewrite <- py_str_0 in E. apply py_str_inj in E. lia. Qed.

Lemma prunes_unassigned_count ps b b' :
  prunes ps b b' -> unassigned_count b' = unassigned_count b.
Proof.
  intros Hpr. unfold unassigned_count. f_equal. apply filter_ext_in.
  intros q Hq. symmetry. apply (prunes_unassigned _ _ _ _ Hpr). by apply scan_inr.
Qed.

Lemma assign_unassigned_count b p val :
  shape b -> inr p -> unassigned_at b p -> 1 <= val <= 9 ->
  (unassigned_count (assign b p val) < unassigned_count b)%nat.
Proof.
  intros Hs Hp Hu Hv. unfold unassigned_count, assign.
  apply (filter_length_lt _ _ _ p); [|by apply inr_cases|done|].
  - intros q Hq. apply scan_inr in Hq. unfold unassigned_at.
    rewrite cell_at_put by done. destruct (decide (p = q)) as [<-|]; [|done].
    unfold assigned. simpl. rewrite negb_false_iff, String.eqb_eq.
    intros E. by apply py_str_nonzero in E.
  - unfold unassigned_at. rewrite cell_at_put_eq by done.
    unfold assigned. simpl. rewrite negb_false_iff, String.eqb_eq.
    by apply py_str_nonzero.
Qed.

(** ** The loop of [backtrack] *)

(** The lemmas of this section are about one run of the loop: [rec] is the
    recursive call, which restores the board when it returns [False], and
    [p] is the unassigned cell the loop works on. *)
Section CandidateLoop.

Variable rec : Board -> result (Board * bool).
Hypothesis rec_atomic : atomic rec.

Variable b : Board.
Variable p : Pos.
Hypothesis Hwf : wf_board b = true.
Hypothesis Hp : inr p.
Hypothesis Hu : unassigned_at b p.

Lemma try_values_inv vals tried b' res tried' :
  Forall (fun v => 1 <= v <= 9) vals ->
  try_values rec p.1 p.2 vals tried b = Ret (b', res, tried') ->
  if res then
    exists vals1 val vals2,
      vals = vals1 ++ val :: vals2 /\ candidate b p val /\
      tried' = tried ++ filter (candidate b p) vals1 ++ [val] /\
      attempt_succeeds rec b p val b' /\
      forall u, u ∈ filter (candidate b p) vals1 -> attempt_fails rec b p u
  else
    b' = b /\ tried' = tried ++ filter (candidate b p) vals /\
    forall u, u ∈ filter (candidate b p) vals -> attempt_fails rec b p u.
Proof.
  intros Hvals. pose proof (wf_board_shape b Hwf) as Hs.
  revert tried. induction vals as [|val rest IH]; intros tried H.
  - simpl in H. injection H as <- <- <-. split; [done|]. split.
    + by rewrite filter_nil, app_nil_r.
    + intros u Hin. rewrite filter_nil in Hin. by apply elem_of_nil in Hin.
  - apply Forall_cons in Hvals as [Hv Hvals]. cbn [try_values] in H.
    rewrite (cell_Ret b) in H by (by destruct p). rsimpl in H.
    replace (p.1, p.2) with p in H by (by destruct p).
    rewrite getitem_domain in H by done. rsimpl in H.
    destruct (Z.eqb_spec (domain (cell_at b p) !!! Z.to_nat (val - 1)) 0) as [Hz|Hnz].
    { specialize (IH Hvals tried H). rewrite filter_cons.
      rewrite (decide_False (P := candidate b p val)) by (unfold candidate; tauto).
      destruct res; [|done].
      destruct IH as (vals1 & v & vals2 & -> & Hc & -> & Hsucc & Hfail).
      exists (val :: vals1), v, vals2. split; [done|]. split; [done|].
      rewrite filter_cons.
      rewrite (decide_False (P := candidate b p val)) by (unfold candidate; tauto).
      done. }
    assert (Hcand : candidate b p val) by done.
    destruct (assign_undo b p val Hwf Hp Hu Hv)
      as (b1 & b2 & ok & E1 & Hwf1 & Hb1 & Efc & Hpr & _ & _ & Eundo & Ereset).
    rewrite E1 in H. rsimpl in H. rewrite Efc in H. rsimpl in H.
    assert (Hwf2 : wf_board b2 = true) by (by eapply prunes_wf).
    assert (Hnext : forall b3, b3 = b2 ->
              (b3' ← remove_inferences b3 (snapshot b1 (peers p));
               b4 ← set_value b3' p.1 p.2 "0";
               try_values rec p.1 p.2 rest (tried ++ [val]) b4)
              = try_values rec p.1 p.2 rest (tried ++ [val]) b).
    { intros b3 ->. rewrite Eundo. rsimpl. rewrite Ereset. done. }
    assert (Hfailcase : attempt_fails rec b p val ->
              try_values rec p.1 p.2 rest (tried ++ [val]) b = Ret (b', res, tried') ->
              if res
              then exists vals1 val0 vals2,
                     val :: rest = vals1 ++ val0 :: vals2 /\ candidate b p val0 /\
                     tried' = tried ++ filter (candidate b p) vals1 ++ [val0] /\
                     attempt_succeeds rec b p val0 b' /\
                     (forall u, u ∈ filter (candidate b p) vals1 -> attempt_fails rec b p u)
              else b' = b /\ tried' = tried ++ filter (candidate b p) (val :: rest) /\
                   (forall u, u ∈ filter (candidate b p) (val :: rest) ->
                      attempt_fails rec b p u)).
    { intros Hfl H'. specialize (IH Hvals _ H'). destruct res.
      - destruct IH as (vals1 & v & vals2 & -> & Hc & -> & Hsucc & Hfail).
        exists (val :: vals1), v, vals2. split; [done|]. split; [done|].
        rewrite filter_cons, decide_True by done.
        split; [by rewrite <- !app_assoc|]. split; [done|].
        intros u Hin. apply elem_of_cons in Hin as [->|Hin]; [done|by apply Hfail].
      - destruct IH as (-> & -> & Hfail). split; [done|].
        rewrite filter_cons, decide_True by done.
        split; [by rewrite <- !app_assoc|].
        intros u Hin. apply elem_of_cons in Hin as [->|Hin]; [done|by apply Hfail]. }
    destruct ok.
    + destruct (rec b2) as [[b3 r]| |] eqn:Erec; rsimpl in H; try discriminate.
      destruct r.
      * injection H as <- <- <-.
        exists [], val, rest. split; [done|]. split; [done|].
        rewrite filter_nil. split; [done|]. split.
        -- exists b2, (snapshot b1 (peers p)). unfold assign. rewrite <- Hb1. done.
        -- intros u Hin. by apply elem_of_nil in Hin.
      * pose proof (rec_atomic b2 b3 Hwf2 Erec) as ->.
        rewrite Hnext in H by done. apply Hfailcase; [|done].
        exists b2, true, (snapshot b1 (peers p)). unfold assign. rewrite <- Hb1. split; [done|by right].
    + rsimpl in H. rewrite Hnext in H by done. apply Hfailcase; [|done].
      exists b2, false, (snapshot b1 (peers p)). unfold assign. rewrite <- Hb1. split; [done|by left].
Qed.

Lemma try_values_total vals tried :
  Forall (fun v => 1 <= v <= 9) vals ->
  (forall b2, wf_board b2 = true ->
     (unassigned_count b2 < unassigned_count b)%nat -> exists r, rec b2 = Ret r) ->
  exists r, try_values rec p.1 p.2 vals tried b = Ret r.
Proof.
  intros Hvals Hrec. pose proof (wf_board_shape b Hwf) as Hs.
  revert tried. induction vals as [|val rest IH]; intros tried; [by eexists|].
  apply Forall_cons in Hvals as [Hv Hvals]. cbn [try_values].
  rewrite (cell_Ret b) by (by destruct p). rsimpl.
  replace (p.1, p.2) with p by (by destruct p).
  rewrite getitem_domain by done. rsimpl.
  destruct (_ =? 0); [by apply IH|].
  destruct (assign_undo b p val Hwf Hp Hu Hv)
    as (b1 & b2 & ok & E1 & Hwf1 & Hb1 & Efc & Hpr & _ & _ & Eundo & Ereset).
  rewrite E1. rsimpl. rewrite Efc. rsimpl.
  assert (Hwf2 : wf_board b2 = true) by (by eapply prunes_wf).
  destruct ok.
  - destruct (Hrec b2 Hwf2) as [[b3 r] Er].
    { rewrite (prunes_unassigned_count _ _ _ Hpr), Hb1. by apply assign_unassigned_count. }
    rewrite Er. rsimpl. destruct r; [by eexists|].
    rewrite (rec_atomic _ _ Hwf2 Er). rewrite Eundo. rsimpl. rewrite Ereset. rsimpl.
    by apply IH.
  - rsimpl. rewrite Eundo. rsimpl. rewrite Ereset. rsimpl. by apply IH.
Qed.

End CandidateLoop.

(** ** [backtrack] *)

Lemma all_assigned_spec b cells :
  shape b -> Forall inr cells ->
  all_assigned b cells = Ret (forallb (fun p => assigned (cell_at b p)) cells).
Proof.
  intros Hs Hin. induction cells as [|[i j] rest IH]; [done|].
  apply Forall_cons in Hin as [Hp Hin]. cbn [all_assigned forallb].
  rewrite cell_Ret by done. rsimpl.
  destruct (assigned (cell_at b (i, j))); [by apply IH|done].
Qed.

Lemma scan_all_inr : Forall inr scan.
Proof. apply Forall_forall. intros q Hq. by apply scan_inr. Qed.

Lemma assignment_complete_spec b :
  shape b -> assignment_complete b = Ret (complete b).
Proof. intros Hs. apply all_assigned_spec; [done|apply scan_all_inr]. Qed.

Lemma complete_true b p : complete b = true -> inr p -> ~ unassigned_at b p.
Proof.
  unfold complete, unassigned_at. rewrite forallb_forall. intros H Hp.
  rewrite (H p); [done|]. by apply list_elem_of_In, inr_cases.
Qed.

Lemma complete_false b : complete b = false -> exists p, inr p /\ unassigned_at b p.
Proof.
  unfold complete. intros H.
  destruct (existsb (fun p => negb (assigned (cell_at b p))) scan) eqn:E.
  - apply existsb_exists in E as (p & Hp & Hn). exists p.
    split; [by apply scan_inr, list_elem_of_In|]. by apply negb_true_iff in Hn.
  - exfalso. rewrite <- not_true_iff_false in H. apply H.
    apply forallb_forall. intros p Hp.
    destruct (assigned (cell_at b p)) eqn:Ha; [done|].
    rewrite <- not_true_iff_false in E. exfalso. apply E.
    apply existsb_exists. exists p. by rewrite Ha.
Qed.

Lemma range_1_10 : Forall (fun v => 1 <= v <= 9) (range 1 10).
Proof. apply Forall_forall. intros v Hv. apply elem_of_range in Hv. lia. Qed.

(** One call of [backtrack] on a board that is not complete. *)
Lemma backtrack_step n b :
  wf_board b = true -> complete b = false ->
  exists s, select_variable b = Ret (Some s) /\ inr s /\ unassigned_at b s /\
    backtrack (S n) b =
      ('(b', result, _) ← try_values (backtrack n) s.1 s.2 (range 1 10) [] b;
       Ret (b', result)).
Proof.
  intros Hwf Hc. pose proof (wf_board_shape b Hwf) as Hs.
  destruct (select_variable_spec b Hs (complete_false b Hc)) as (s & E & Hsi & Hsu & _).
  exists s. split; [done|]. split; [done|]. split; [done|].
  cbn [backtrack]. rewrite assignment_complete_spec by done. rsimpl.
  rewrite Hc, E. rsimpl. destruct s as [i j].
  rewrite cell_Ret by done. rsimpl. rewrite wf_domain_len by done. done.
Qed.

Lemma backtrack_complete n b :
  wf_board b = true -> complete b = true -> backtrack (S n) b = Ret (b, true).
Proof.
  intros Hwf Hc. cbn [backtrack].
  rewrite assignment_complete_spec by (by apply wf_board_shape). rsimpl.
  by rewrite Hc.
Qed.

(** A call of [backtrack] that returns [False] has restored the board. *)
Lemma backtrack_atomic n : atomic (backtrack n).
Proof.
  induction n as [|n IH]; intros b b' Hwf H; [done|].
  destruct (complete b) eqn:Hc.
  - rewrite backtrack_complete in H by done. done.
  - destruct (backtrack_step n b Hwf Hc) as (s & _ & Hsi & Hsu & E).
    rewrite E in H. apply bind_inv in H as ([[b1 r] tried] & Htry & H).
    injection H as <- ->.
    by destruct (try_values_inv _ IH _ _ Hwf Hsi Hsu _ _ _ _ _ range_1_10 Htry) as [-> _].
Qed.

(** ** Termination *)

Lemma backtrack_total n b :
  wf_board b = true -> (unassigned_count b < n)%nat ->
  exists r, backtrack n b = Ret r.
Proof.
  revert b. induction n as [|n IH]; intros b Hwf Hn; [lia|].
  destruct (complete b) eqn:Hc.
  - rewrite backtrack_complete by done. by eexists.
  - destruct (backtrack_step n b Hwf Hc) as (s & _ & Hsi & Hsu & E). rewrite E.
    destruct (try_values_total (backtrack n) (backtrack_atomic n) b s Hwf Hsi Hsu
                (range 1 10) [] range_1_10)
      as [[[b' r] tried] Er].
    { intros b2 Hwf2 Hlt. apply IH; [done|lia]. }
    rewrite Er. by eexists.
Qed.

Lemma unassigned_count_le b : (unassigned_count b <= 81)%nat.
Proof.
  unfold unassigned_count.
  etransitivity; [apply length_filter|]. by vm_compute.
Qed.

Lemma backtracking_search_total b :
  wf_board b = true -> exists r, backtracking_search b = Ret r.
Proof.
  intros Hwf. apply backtrack_total; [done|].
  pose proof (unassigned_count_le b). lia.
Qed.

(** ** The result does not depend on the fuel *)

Lemma try_values_mono (rec rec' : Board -> result (Board * bool)) i j vals tried b r :
  (forall b r, rec b = Ret r -> rec' b = Ret r) ->
  try_values rec i j vals tried b = Ret r ->
  try_values rec' i j vals tried b = Ret r.
Proof.
  intros Hrec. revert tried b. induction vals as [|val rest IH]; intros tried b H; [done|].
  cbn [try_values] in *.
  destruct (cell b i j) as [var| |]; rsimpl in H; rsimpl; try done.
  destruct (getitem (domain var) (val - 1)) as [d| |]; rsimpl in H; rsimpl; try done.
  destruct (d =? 0); [by apply IH|].
  destruct (set_value b i j (py_str val)) as [b1| |]; rsimpl in H; rsimpl; try done.
  destruct (forward_check b1 i j) as [[[b2 ok] original]| |]; rsimpl in H; rsimpl; try done.
  destruct ok.
  - destruct (rec b2) as [[b3 res]| |] eqn:Er; rsimpl in H; try done.
    rewrite (Hrec _ _ Er). rsimpl. destruct res; [done|].
    destruct (remove_inferences b3 original) as [b4| |]; rsimpl in H; rsimpl; try done.
    destruct (set_value b4 i j "0") as [b5| |]; rsimpl in H; rsimpl; try done.
    by apply IH.
  - rsimpl in H. rsimpl.
    destruct (remove_inferences b2 original) as [b4| |]; rsimpl in H; rsimpl; try done.
    destruct (set_value b4 i j "0") as [b5| |]; rsimpl in H; rsimpl; try done.
    by apply IH.
Qed.

Lemma backtrack_unfold n b :
  backtrack (S n) b =
    (complete ← assignment_complete b;
     if complete : bool then Ret (b, true)
     else
       selected ← select_variable b;
       match selected with
       | None => Raise TypeError
       | Some (ivar, jvar) =>
           var ← cell b ivar jvar;
           '(b', result, _) ← try_values (backtrack n) ivar jvar
                                (range 1 (len (domain var) + 1)) [] b;
           Ret (b', result)
       end).
Proof. reflexivity. Qed.

Lemma backtrack_fuel_S n b r : backtrack n b = Ret r -> backtrack (S n) b = Ret r.
Proof.
  revert b r. induction n as [|n IH]; intros b r H; [done|].
  rewrite backtrack_unfold in H. rewrite backtrack_unfold.
  destruct (assignment_complete b) as [c| |]; rsimpl in H; rsimpl; try done.
  destruct c; [done|].
  destruct (select_variable b) as [[[i j]|]| |]; rsimpl in H; rsimpl; try done.
  destruct (cell b i j) as [var| |]; rsimpl in H; rsimpl; try done.
  destruct (try_values (backtrack n) i j _ [] b) as [[[b' res] tried]| |] eqn:E;
    rsimpl in H; try done.
  by rewrite (try_values_mono _ _ _ _ _ _ _ _ IH E).
Qed.

Lemma backtrack_fuel_mono n m b r :
  (n <= m)%nat -> backtrack n b = Ret r -> backtrack m b = Ret r.
Proof.
  intros Hnm H. induction Hnm as [|m Hnm IH]; [done|]. by apply backtrack_fuel_S.
Qed.

Lemma backtrack_fuel_indep n m b r r' :
  backtrack n b = Ret r -> backtrack m b = Ret r' -> r = r'.
Proof.
  intros H H'. destruct (Nat.le_ge_cases n m) as [Hle|Hle].
  - apply (backtrack_fuel_mono _ _ _ _ Hle) in H. congruence.
  - apply (backtrack_fuel_mono _ _ _ _ Hle) in H'. congruence.
Qed.

(** ** The dot fields are never written *)

Lemma getitem_inv {A} (l : list A) i x :
  getitem l i = Ret x -> exists k, index l i = Ret k /\ l !! k = Some x.
Proof.
  unfold getitem. intros H. apply bind_inv in H as (k & Hk & H).
  exists k. split; [done|]. destruct (l !! k); [congruence|done].
Qed.

Lemma setitem_inv {A} (l : list A) i x l' :
  setitem l i x = Ret l' -> exists k, index l i = Ret k /\ l' = <[k := x]> l.
Proof.
  unfold setitem. intros H. apply bind_inv in H as (k & Hk & H).
  exists k. split; [done|]. by injection H.
Qed.

Lemma set_cell_dots b i j var c b' :
  cell b i j = Ret var -> dots c = dots var ->
  set_cell b i j c = Ret b' -> board_dots b' = board_dots b.
Proof.
  unfold cell, set_cell. intros Hcell Hd Hset.
  apply bind_inv in Hcell as (row & Hrow & Hvar).
  rewrite Hrow in Hset. rsimpl in Hset.
  apply bind_inv in Hset as (row' & Hrow' & Hset).
  apply getitem_inv in Hrow as (ki & Hki & Hbi).
  apply getitem_inv in Hvar as (kj & Hkj & Hrj).
  apply setitem_inv in Hrow' as (kj' & Hkj' & ->).
  apply setitem_inv in Hset as (ki' & Hki' & ->).
  assert (ki' = ki) as -> by congruence. assert (kj' = kj) as -> by congruence.
  unfold board_dots. rewrite !list_fmap_insert.
  rewrite (list_insert_id (map dots row) kj).
  - apply list_insert_id. by rewrite list_lookup_fmap, Hbi.
  - rewrite list_lookup_fmap, Hrj. simpl. by rewrite Hd.
Qed.

Lemma set_value_dots b i j s b' :
  set_value b i j s = Ret b' -> board_dots b' = board_dots b.
Proof.
  unfold set_value. intros H. apply bind_inv in H as (var & Hvar & H).
  eapply set_cell_dots; [exact Hvar| |exact H]; reflexivity.
Qed.

Lemma set_domain_dots b i j d b' :
  set_domain b i j d = Ret b' -> board_dots b' = board_dots b.
Proof.
  unfold set_domain. intros H. apply bind_inv in H as (var & Hvar & H).
  eapply set_cell_dots; [exact Hvar| |exact H]; reflexivity.
Qed.

Lemma zero_entry_dots b i j k b' :
  zero_entry b i j k = Ret b' -> board_dots b' = board_dots b.
Proof.
  unfold zero_entry. intros H. apply bind_inv in H as (var & Hvar & H).
  apply bind_inv in H as (d & Hd & H).
  eapply set_cell_dots; [exact Hvar| |exact H]; reflexivity.
Qed.

Lemma prune_loop_dots b v ps b' ok :
  prune_loop b v ps = Ret (b', ok) -> board_dots b' = board_dots b.
Proof.
  revert b. induction ps as [|[k l] rest IH]; intros b H.
  - by injection H as <- <-.
  - cbn [prune_loop] in H. apply bind_inv in H as (var & Hvar & H).
    destruct (assigned var); [by apply IH|].
    apply bind_inv in H as (b1 & Hb1 & H). apply bind_inv in H as (var' & Hvar' & H).
    apply zero_entry_dots in Hb1.
    destruct (_ =? 0); [injection H as <- <-; done|].
    rewrite <- Hb1. by apply IH.
Qed.

Lemma clear_not_in_dots b i j remain ks b' :
  clear_not_in b i j remain ks = Ret b' -> board_dots b' = board_dots b.
Proof.
  revert b. induction ks as [|k rest IH]; intros b H.
  - by injection H as <-.
  - cbn [clear_not_in] in H. destruct (negb _); [|by apply IH].
    apply bind_inv in H as (b1 & Hb1 & H). apply zero_entry_dots in Hb1.
    rewrite <- Hb1. by apply IH.
Qed.

Lemma dot_prune_dots b dot v k l b' ok :
  dot_prune b dot v k l = Ret (b', ok) -> board_dots b' = board_dots b.
Proof.
  unfold dot_prune. intros H. destruct (String.eqb dot "0"); [by injection H as <- <-|].
  apply bind_inv in H as (nb & Hnb & H).
  destruct (assigned nb); [by injection H as <- <-|].
  apply bind_inv in H as (remain & Hrem & H). apply bind_inv in H as (b1 & Hb1 & H).
  apply bind_inv in H as (nb' & Hnb' & H). apply clear_not_in_dots in Hb1.
  destruct (_ =? 0); by injection H as <- <-.
Qed.

Lemma and_then_dots original m k b b' ok orig' :
  (forall b1 ok1, m = Ret (b1, ok1) -> board_dots b1 = board_dots b) ->
  (forall b1 r, board_dots b1 = board_dots b -> k b1 = Ret r ->
     board_dots r.1.1 = board_dots b) ->
  and_then original m k = Ret (b', ok, orig') -> board_dots b' = board_dots b.
Proof.
  intros Hm Hk H. unfold and_then in H. apply bind_inv in H as ([b1 ok1] & Hm1 & H).
  specialize (Hm _ _ Hm1). destruct ok1.
  - by apply (Hk _ _ Hm) in H.
  - by injection H as <- <- <-.
Qed.

Lemma forward_check_dots b i j b' ok original :
  forward_check b i j = Ret (b', ok, original) -> board_dots b' = board_dots b.
Proof.
  unfold forward_check. intros H.
  apply bind_inv in H as (o1 & _ & H). apply bind_inv in H as (o2 & _ & H).
  apply bind_inv in H as (o3 & _ & H). apply bind_inv in H as (var & _ & H).
  apply bind_inv in H as (valint & _ & H).
  eapply and_then_dots in H; [done| |].
  { intros b1 ok1 E. by eapply prune_loop_dots. }
  intros b1 r1 D1 H1. rewrite <- D1. destruct r1 as [[b1' ok1'] o1']. simpl.
  eapply and_then_dots in H1; [done| |].
  { intros b2 ok2 E. by eapply prune_loop_dots. }
  intros b2 r2 D2 H2. rewrite <- D2. destruct r2 as [[b2' ok2'] o2']. simpl.
  eapply and_then_dots in H2; [done| |].
  { intros b3 ok3 E. by eapply prune_loop_dots. }
  intros b3 r3 D3 H3. rewrite <- D3. destruct r3 as [[b3' ok3'] o3']. simpl.
  apply bind_inv in H3 as (var' & _ & H3).
  eapply and_then_dots in H3; [done| |].
  { intros b4 ok4 E. by eapply dot_prune_dots. }
  intros b4 r4 D4 H4. rewrite <- D4. destruct r4 as [[b4' ok4'] o4']. simpl.
  eapply and_then_dots in H4; [done| |].
  { intros b5 ok5 E. by eapply dot_prune_dots. }
  intros b5 r5 D5 H5. rewrite <- D5. destruct r5 as [[b5' ok5'] o5']. simpl.
  eapply and_then_dots in H5; [done| |].
  { intros b6 ok6 E. by eapply dot_prune_dots. }
  intros b6 r6 D6 H6. rewrite <- D6. destruct r6 as [[b6' ok6'] o6']. simpl.
  eapply and_then_dots in H6; [done| |].
  { intros b7 ok7 E. by eapply dot_prune_dots. }
  intros b7 r7 D7 H7. by injection H7 as <-.
Qed.

Lemma remove_inferences_dots b original b' :
  remove_inferences b original = Ret b' -> board_dots b' = board_dots b.
Proof.
  revert b. induction original as [|[[i j] d] rest IH]; intros b H.
  - by injection H as <-.
  - cbn [remove_inferences] in H. apply bind_inv in H as (b1 & Hb1 & H).
    apply set_domain_dots in Hb1. rewrite <- Hb1. by apply IH.
Qed.

Lemma try_values_dots rec i j vals tried b b' res tried' :
  (forall b1 b2 r, rec b1 = Ret (b2, r) -> board_dots b2 = board_dots b1) ->
  try_values rec i j vals tried b = Ret (b', res, tried') ->
  board_dots b' = board_dots b.
Proof.
  intros Hrec. revert tried b. induction vals as [|val rest IH]; intros tried b H.
  - by injection H as <- <- <-.
  - cbn [try_values] in H. apply bind_inv in H as (var & _ & H).
    apply bind_inv in H as (d & _ & H). destruct (d =? 0); [by eapply IH|].
    apply bind_inv in H as (b1 & Hb1 & H). apply set_value_dots in Hb1.
    apply bind_inv in H as ([[b2 ok] original] & Hfc & H).
    apply forward_check_dots in Hfc.
    apply bind_inv in H as ([b2' r] & Hr & H).
    assert (D2 : board_dots b2' = board_dots b).
    { rewrite <- Hb1, <- Hfc. destruct ok; [by eapply Hrec|by injection Hr as <- <-]. }
    destruct r; [by injection H as <- <- <-|].
    apply bind_inv in H as (b3 & Hb3 & H). apply remove_inferences_dots in Hb3.
    apply bind_inv in H as (b4 & Hb4 & H). apply set_value_dots in Hb4.
    rewrite <- D2, <- Hb3, <- Hb4. by eapply IH.
Qed.

Lemma backtrack_dots n b b' res :
  backtrack n b = Ret (b', res) -> board_dots b' = board_dots b.
Proof.
  revert b b' res. induction n as [|n IH]; intros b b' res H; [done|].
  rewrite backtrack_unfold in H. apply bind_inv in H as (c & _ & H).
  destruct c; [by injection H as <- <-|].
  apply bind_inv in H as (sel & _ & H). destruct sel as [[i j]|]; [|done].
  apply bind_inv in H as (var & _ & H).
  apply bind_inv in H as ([[b1 r] tried] & Htry & H). injection H as <- <-.
  eapply try_values_dots; [|done]. apply IH.
Qed.

(** ** Soundness of the search *)

Lemma dot_holdsb_spec dot v w : dot_holdsb dot v w = true -> dot_holds dot v w.
Proof.
  unfold dot_holdsb, dot_holds. intros H.
  destruct (String.eqb_spec dot "1") as [->|H1].
  - split; [intros _; lia|done].
  - destruct (String.eqb_spec dot "2") as [->|H2]; [|done].
    split; [done|intros _; lia].
Qed.

Lemma dot_holds_sym dot v w : dot_holds dot v w -> dot_holds dot w v.
Proof. unfold dot_holds. intros [H1 H2]. split; intros E; [specialize (H1 E)|specialize (H2 E)]; lia. Qed.

(** The candidates [dot_remains] leaves are related to the value as the dot
    demands. *)
Lemma py_in_spec x l : py_in x l = true <-> x ∈ l.
Proof.
  unfold py_in. rewrite existsb_exists. split.
  - intros (y & Hy & E). apply Z.eqb_eq in E as ->. by apply list_elem_of_In.
  - intros H. exists x. split; [by apply list_elem_of_In|apply Z.eqb_refl].
Qed.

Lemma dot_remains_holds dot v remain x :
  dot_remains dot v = Ret remain -> py_in x remain = true -> dot_holds dot v x.
Proof.
  unfold dot_remains, dot_holds. rewrite py_in_spec. intros H Hin.
  destruct (String.eqb_spec dot "1") as [->|H1].
  - split; [intros _|done].
    destruct (Z.eqb_spec v 1), (Z.eqb_spec v 9); injection H as <-;
      rewrite ?elem_of_cons, ?elem_of_nil in Hin; lia.
  - destruct (String.eqb_spec dot "2") as [->|H2]; [|done].
    split; [done|intros _]. pose proof (Z.div_mod v 2 ltac:(lia)).
    destruct (Z.eqb_spec (v `mod` 2) 0), (Z.eqb_spec (v `mod` 2) 1),
      (Z.leb_spec v 4), (Z.gtb_spec v 4), (Z.leb_spec v 3), (Z.gtb_spec v 3);
      simpl in H; try discriminate; injection H as <-;
      rewrite ?elem_of_cons, ?elem_of_nil in Hin; lia.
Qed.

Lemma lookup_total_zero (d : list Z) k :
  (k < length d)%nat -> d !!! k = 0 <-> d !! k = Some 0.
Proof.
  intros Hk. destruct (lookup_lt_is_Some_2 d k Hk) as [x Hx].
  rewrite (list_lookup_total_correct _ _ _ Hx), Hx. split; congruence.
Qed.

Lemma clues_consistent_spec b :
  wf_board b = true -> clues_consistent b = true -> conflict_free b.
Proof.
  intros Hwf H. unfold clues_consistent in H. rewrite forallb_forall in H.
  assert (Hp : forall p, inr p -> ~ unassigned_at b p ->
    (forall q, q ∈ peers p -> ~ unassigned_at b q ->
       value (cell_at b p) <> value (cell_at b q)) /\
    (forall d, inr (neighbour p d) -> ~ unassigned_at b (neighbour p d) ->
       dot_holds (dot_of (cell_at b p) d) (val_at b p) (val_at b (neighbour p d)))).
  { intros p Hpi Hpa. specialize (H p (proj1 (list_elem_of_In _ _) (inr_cases p Hpi))).
    unfold unassigned_at in Hpa. apply not_false_is_true in Hpa.
    rewrite Hpa in H. cbn [negb orb] in H. apply andb_true_iff in H as [H1 H2].
    rewrite forallb_forall in H1. rewrite forallb_forall in H2. split.
    - intros q Hq Hqa. apply list_elem_of_In in Hq. specialize (H1 q Hq).
      unfold unassigned_at in Hqa. apply not_false_is_true in Hqa.
      rewrite Hqa in H1. cbn [negb orb] in H1. apply negb_true_iff in H1.
      by apply String.eqb_neq.
    - intros d Hn Hna. specialize (H2 d).
      assert (In d dirs) as Hd by (destruct d; simpl; tauto). specialize (H2 Hd).
      unfold unassigned_at in Hna. apply not_false_is_true in Hna.
      rewrite Hna, bool_decide_true in H2 by done. cbn [negb orb] in H2.
      by apply dot_holdsb_spec. }
  split.
  - intros p q Hpi Hqi Hsu Hpa Hqa. apply (Hp p Hpi Hpa); [|done].
    by apply peers_same_unit.
  - intros p d Hpi Hni Hpa Hna. by apply (Hp p Hpi Hpa).
Qed.

Lemma wf_val_at b p :
  wf_board b = true -> inr p -> ~ unassigned_at b p ->
  1 <= val_at b p <= 9 /\ value (cell_at b p) = py_str (val_at b p) /\
  py_int (value (cell_at b p)) = Ret (val_at b p).
Proof.
  intros Hwf Hp Ha. destruct (wf_board_at b p Hwf Hp) as [Hc _].
  apply wf_cell_inv in Hc as (Hv & _). apply digit_py_str in Hv as (v & Hv & E).
  unfold val_at. rewrite E, py_int_str. split; [|done].
  destruct (decide (v = 0)) as [->|]; [|lia].
  exfalso. apply Ha. by apply unassigned_value.
Qed.

Lemma swept_spec b : wf_board b = true -> swept b = true -> propagated b.
Proof.
  intros Hwf H p Hpi Hpa. unfold swept in H. rewrite forallb_forall in H.
  specialize (H p (proj1 (list_elem_of_In _ _) (inr_cases p Hpi))).
  destruct (wf_val_at b p Hwf Hpi Hpa) as (Hv & _).
  unfold unassigned_at in Hpa. apply not_false_is_true in Hpa.
  rewrite Hpa in H. cbn [negb orb] in H. apply andb_true_iff in H as [H1 H2].
  rewrite forallb_forall in H1. rewrite forallb_forall in H2. split.
  - intros q Hq Hqu. pose proof (peers_inr p Hpi) as Hin.
    rewrite Forall_forall in Hin. pose proof (Hin q Hq) as Hqi.
    apply list_elem_of_In in Hq. specialize (H1 q Hq).
    unfold unassigned_at in Hqu. rewrite Hqu in H1. cbn [orb] in H1.
    apply Z.eqb_eq in H1. apply lookup_total_zero; [|done].
    pose proof (wf_domain_len b q Hwf Hqi). unfold len in *. lia.
  - intros d Hd Hnu remain Hrem k Hk Hnin. specialize (H2 d).
    assert (In d dirs) as Hdi by (destruct d; simpl; tauto). specialize (H2 Hdi).
    apply String.eqb_neq in Hd. unfold unassigned_at in Hnu.
    rewrite Hd, Hnu, Hrem in H2. cbn [orb] in H2. rewrite forallb_forall in H2.
    specialize (H2 k (proj1 (list_elem_of_In _ _) (proj2 (elem_of_range 0 9 k) Hk))).
    rewrite Hnin in H2. cbn [orb] in H2. apply Z.eqb_eq in H2.
    apply lookup_total_zero; [|done].
    assert (inr (neighbour p d)) as Hni.
    { apply (wf_neighbour_inr b); [done..|]. by apply String.eqb_neq. }
    pose proof (wf_domain_len b _ Hwf Hni). unfold len in *. lia.
Qed.

Lemma neighbour_opposite p d : neighbour (neighbour p d) (opposite d) = p.
Proof. destruct p, d; simpl; f_equal; lia. Qed.

Lemma neighbour_ne p d : neighbour p d <> p.
Proof. destruct p, d; simpl; intros E; injection E; lia. Qed.

Lemma dot_holds_none v w : dot_holds "0" v w.
Proof. split; discriminate. Qed.

(** One consistent assignment keeps the board free of conflicts and
    propagated. *)
Lemma forward_step_sound b p val b2 original :
  wf_board b = true -> conflict_free b -> propagated b ->
  inr p -> unassigned_at b p -> 1 <= val <= 9 -> candidate b p val ->
  forward_check (assign b p val) p.1 p.2 = Ret (b2, true, original) ->
  wf_board b2 = true /\ conflict_free b2 /\ propagated b2.
Proof.
  intros Hwf [Hcf1 Hcf2] Hprop Hp Hu Hv Hcand H.
  pose proof (wf_board_shape b Hwf) as Hs.
  destruct (assign_undo b p val Hwf Hp Hu Hv)
    as (b1 & b2' & ok & E1 & Hwf1 & Hb1 & Efc & Hpr & Ht & _ & _ & _).
  unfold assign in H. rewrite <- Hb1, Efc in H. injection H as <- -> _.
  destruct (Ht eq_refl) as (Hvp & Hdp & _). clear Ht.
  assert (Hwf2 : wf_board b2' = true) by (by eapply prunes_wf).
  split; [done|].
  assert (C1 : forall q, inr q -> q <> p -> cell_at b1 q = cell_at b q).
  { intros q Hq Hne. rewrite Hb1. by apply cell_at_put_ne. }
  assert (C1p : cell_at b1 p = with_value (cell_at b p) (py_str val)).
  { rewrite Hb1. by apply cell_at_put_eq. }
  assert (V2p : value (cell_at b2' p) = py_str val).
  { rewrite (prunes_value _ _ _ _ Hpr Hp), C1p. done. }
  assert (V2 : forall q, inr q -> q <> p -> value (cell_at b2' q) = value (cell_at b q)).
  { intros q Hq Hne. by rewrite (prunes_value _ _ _ _ Hpr Hq), C1. }
  assert (DO : forall q d, inr q -> dot_of (cell_at b2' q) d = dot_of (cell_at b q) d).
  { intros q d Hq. pose proof (prunes_dots _ _ _ _ Hpr Hq) as Hd.
    assert (dots (cell_at b1 q) = dots (cell_at b q)) as Hd1.
    { destruct (decide (q = p)) as [->|Hne]; [by rewrite C1p|by rewrite C1]. }
    rewrite Hd1 in Hd. unfold dots in Hd. injection Hd as Hu' Hd' Hl' Hr'.
    by destruct d. }
  assert (VA : val_at b2' p = val).
  { unfold val_at. by rewrite V2p, py_int_str. }
  assert (VB : forall q, inr q -> q <> p -> val_at b2' q = val_at b q).
  { intros q Hq Hne. unfold val_at. by rewrite V2. }
  assert (UN : forall q, inr q -> q <> p -> unassigned_at b2' q <-> unassigned_at b q).
  { intros q Hq Hne. rewrite !unassigned_value. by rewrite V2. }
  assert (Hidx : (Z.to_nat (val - 1) < length (domain (cell_at b p)))%nat).
  { pose proof (wf_domain_len b p Hwf Hp). unfold len in *. lia. }
  assert (KEY1 : forall q, inr q -> q ∈ peers p -> ~ unassigned_at b q ->
            value (cell_at b q) <> py_str val).
  { intros q Hq Hqp Hqa E. destruct (Hprop q Hq Hqa) as [VP _].
    specialize (VP p (peers_sym p q Hp Hq Hqp) Hu).
    unfold val_at in VP. rewrite E, py_int_str in VP.
    apply Hcand. by apply lookup_total_zero. }
  assert (KEY2 : forall q d, inr q -> ~ unassigned_at b q -> neighbour q d = p ->
            dot_holds (dot_of (cell_at b q) d) (val_at b q) val).
  { intros q d Hq Hqa Hn.
    destruct (decide (dot_of (cell_at b q) d = "0"%string)) as [->|Hne];
      [apply dot_holds_none|].
    destruct (Hprop q Hq Hqa) as [_ DP]. specialize (DP d Hne). rewrite Hn in DP.
    specialize (DP Hu).
    destruct (dot_remains_Ret (dot_of (cell_at b q) d) (val_at b q)) as [remain Hrem];
      [by apply wf_dot_types|done|].
    specialize (DP remain Hrem (val - 1) ltac:(lia)).
    replace (val - 1 + 1) with val in DP by lia.
    destruct (py_in val remain) eqn:Hin; [by eapply dot_remains_holds|].
    exfalso. apply Hcand. apply lookup_total_zero; [done|]. by apply DP. }
  split; [split|].
  - intros p' q' Hp' Hq' Hsu Hp'a Hq'a.
    destruct (decide (p' = p)) as [->|Hne1].
    + assert (q' <> p) as Hne2 by (destruct Hsu as [? _]; congruence).
      rewrite V2p, V2 by done. intros E. apply (KEY1 q'); try done.
      * by apply peers_same_unit.
      * by rewrite <- UN.
    + destruct (decide (q' = p)) as [->|Hne2].
      * rewrite V2p, V2 by done. apply (KEY1 p'); try done.
        -- by apply peers_same_unit, same_unit_sym.
        -- by rewrite <- UN.
      * rewrite !V2 by done. apply Hcf1; try done; by rewrite <- UN.
  - intros p' d Hp' Hn' Hp'a Hn'a. rewrite DO by done.
    destruct (decide (p' = p)) as [->|Hne1].
    + pose proof (neighbour_ne p d) as Hne2.
      rewrite VA, VB by done. apply dot_holds_sym.
      rewrite <- (wf_dot_sym b p d) by done.
      apply KEY2; [done| |apply neighbour_opposite]. by rewrite <- UN.
    + destruct (decide (neighbour p' d = p)) as [Hnp|Hne2].
      * rewrite Hnp, VA, VB by done. apply KEY2; [done| |done]. by rewrite <- UN.
      * rewrite !VB by done. apply Hcf2; try done; by rewrite <- UN.
  - intros p' Hp' Hp'a. destruct (decide (p' = p)) as [->|Hne1].
    + by rewrite VA.
    + rewrite VB by done.
      assert (Hp'a0 : ~ unassigned_at b p') by (by rewrite <- UN).
      destruct (Hprop p' Hp' Hp'a0) as [VP DP]. split.
      * intros q Hq Hqu. pose proof (peers_inr p' Hp') as Hin.
        rewrite Forall_forall in Hin. pose proof (Hin q Hq) as Hqi.
        assert (q <> p) as Hqne.
        { intros ->. apply unassigned_value in Hqu. rewrite V2p in Hqu.
          by apply py_str_nonzero in Hqu. }
        apply (prunes_zero _ _ _ _ _ Hpr Hqi). rewrite C1 by done.
        apply VP; [done|]. by rewrite <- UN.
      * intros d. unfold dot_pruned. rewrite DO by done.
        intros Hd Hnu remain Hrem k Hk Hnin.
        assert (inr (neighbour p' d)) as Hni by (by apply (wf_neighbour_inr b)).
        assert (neighbour p' d <> p) as Hqne.
        { intros E. rewrite E in Hnu. apply unassigned_value in Hnu.
          rewrite V2p in Hnu. by apply py_str_nonzero in Hnu. }
        apply (prunes_zero _ _ _ _ _ Hpr Hni). rewrite C1 by done.
        eapply DP; try done. by rewrite <- UN.
Qed.

(** A board [backtrack] returns is complete, free of conflicts and
    well-formed. *)
Lemma backtrack_sound n b b' :
  wf_board b = true -> conflict_free b -> propagated b ->
  backtrack n b = Ret (b', true) ->
  wf_board b' = true /\ conflict_free b' /\ complete b' = true.
Proof.
  revert b b'. induction n as [|n IH]; intros b b' Hwf Hcf Hprop H; [done|].
  destruct (complete b) eqn:Hc.
  - rewrite backtrack_complete in H by done. by injection H as <-.
  - destruct (backtrack_step n b Hwf Hc) as (s & _ & Hsi & Hsu & E).
    rewrite E in H. apply bind_inv in H as ([[b1 r] tried] & Htry & H).
    injection H as <- ->.
    pose proof (try_values_inv _ (backtrack_atomic n) _ _ Hwf Hsi Hsu
                  _ _ _ _ _ range_1_10 Htry) as Hinv.
    simpl in Hinv.
    destruct Hinv as (vals1 & val & vals2 & Hvals & Hcand & _ & Hsucc & _).
    destruct Hsucc as (b2 & original & Hfc & Hrec).
    assert (Hv : 1 <= val <= 9).
    { pose proof range_1_10 as Hr. rewrite Hvals in Hr.
      apply Forall_app in Hr as [_ Hr]. by apply Forall_cons in Hr as [Hr _]. }
    destruct (forward_step_sound b s val b2 original Hwf Hcf Hprop Hsi Hsu Hv Hcand Hfc)
      as (Hwf2 & Hcf2 & Hprop2).
    by apply (IH b2).
Qed.

Lemma complete_solved b :
  wf_board b = true -> conflict_free b -> complete b = true -> solved b.
Proof.
  intros Hwf [Hcf1 Hcf2] Hc. split; [|split].
  - intros p Hp. pose proof (complete_true b p Hc Hp) as Ha.
    destruct (wf_val_at b p Hwf Hp Ha) as (Hv & E & _). eauto.
  - intros p q Hp Hq Hsu. apply Hcf1; try done; by apply complete_true.
  - intros p d Hp Hn. apply Hcf2; try done; by apply complete_true.
Qed.

(** ** An empty domain ends the search at once *)

Lemma sum_acc l a : fold_left Z.add l a = a + sum l.
Proof.
  unfold sum. revert a. induction l as [|x l IH]; intros a; cbn [fold_left]; [lia|].
  rewrite (IH (a + x)), (IH (0 + x)). lia.
Qed.

Lemma sum_cons x l : sum (x :: l) = x + sum l.
Proof. unfold sum at 1. simpl. by rewrite sum_acc. Qed.

Lemma sum_nonneg l :
  (forall k x, l !! k = Some x -> x = 0 \/ x = 1) -> 0 <= sum l.
Proof.
  induction l as [|y l IH]; intros H; [done|]. rewrite sum_cons.
  assert (y = 0 \/ y = 1) by (apply (H 0%nat); done).
  assert (0 <= sum l) by (apply IH; intros k x Hk; by apply (H (S k))). lia.
Qed.

Lemma sum_zero l :
  (forall k x, l !! k = Some x -> x = 0 \/ x = 1) -> sum l = 0 ->
  forall k x, l !! k = Some x -> x = 0.
Proof.
  induction l as [|y l IH]; intros H Hsum k x Hk; [done|].
  rewrite sum_cons in Hsum.
  assert (y = 0 \/ y = 1) by (apply (H 0%nat); done).
  assert (0 <= sum l) by (apply sum_nonneg; intros k' x' Hk'; by apply (H (S k'))).
  destruct k as [|k]; simpl in Hk.
  - injection Hk as <-. lia.
  - apply (IH (fun k' x' Hk' => H (S k') x' Hk') ltac:(lia) k x Hk).
Qed.

Lemma count_at_nonneg b p : wf_board b = true -> inr p -> 0 <= count_at b p.
Proof.
  intros Hwf Hp. destruct (wf_board_at b p Hwf Hp) as [Hc _].
  apply wf_cell_inv in Hc as (_ & _ & He & _). by apply sum_nonneg.
Qed.

Lemma no_candidate b p val :
  wf_board b = true -> inr p -> count_at b p = 0 -> 1 <= val <= 9 ->
  ~ candidate b p val.
Proof.
  intros Hwf Hp Hc Hv Hcand. destruct (wf_board_at b p Hwf Hp) as [Hcell _].
  apply wf_cell_inv in Hcell as (_ & Hl & He & _). apply Hcand.
  destruct (lookup_lt_is_Some_2 (domain (cell_at b p)) (Z.to_nat (val - 1)))
    as [x Hx]; [lia|].
  rewrite (list_lookup_total_correct _ _ _ Hx). by eapply sum_zero.
Qed.

Lemma try_values_no_candidate rec b p vals tried :
  wf_board b = true -> inr p -> count_at b p = 0 ->
  Forall (fun v => 1 <= v <= 9) vals ->
  try_values rec p.1 p.2 vals tried b = Ret (b, false, tried).
Proof.
  intros Hwf Hp Hc Hvals. pose proof (wf_board_shape b Hwf) as Hs.
  induction vals as [|val rest IH]; [done|].
  apply Forall_cons in Hvals as [Hv Hvals]. cbn [try_values].
  rewrite (cell_Ret b) by (by destruct p). rsimpl.
  replace (p.1, p.2) with p by (by destruct p).
  rewrite getitem_domain by done. rsimpl.
  pose proof (no_candidate b p val Hwf Hp Hc Hv) as Hn. unfold candidate in Hn.
  destruct (Z.eqb_spec (domain (cell_at b p) !!! Z.to_nat (val - 1)) 0); [|done].
  by apply IH.
Qed.

(** If some unassigned cell has no candidate left, the cell chosen by the
    MRV rule has none either, and [backtrack] returns [False] without
    touching the board. *)
Lemma backtrack_wipeout n b q :
  wf_board b = true -> inr q -> unassigned_at b q -> count_at b q = 0 ->
  backtrack (S n) b = Ret (b, false).
Proof.
  intros Hwf Hq Hu Hc. pose proof (wf_board_shape b Hwf) as Hs.
  assert (Hex : exists p, inr p /\ unassigned_at b p) by eauto.
  destruct (select_variable_spec b Hs Hex) as (s & E & Hsi & Hsu & Hmin & _).
  assert (Hs0 : count_at b s = 0).
  { specialize (Hmin q Hq Hu). pose proof (count_at_nonneg b s Hwf Hsi). lia. }
  assert (Hcf : complete b = false).
  { destruct (complete b) eqn:Hcomp; [|done].
    by destruct (complete_true b q Hcomp Hq). }
  rewrite backtrack_unfold. rewrite assignment_complete_spec by done. rsimpl.
  rewrite Hcf, E. rsimpl. destruct s as [i j].
  rewrite cell_Ret by done. rsimpl. rewrite wf_domain_len by done.
  rewrite (try_values_no_candidate _ b (i, j)); try done. apply range_1_10.
Qed.

(** ** The initial sweep of [parse_file] *)

Lemma clear_loop_spec b v ps :
  wf_board b = true -> 1 <= v <= 9 -> Forall inr ps ->
  exists b', clear_loop b v ps = Ret b' /\ prunes ps b b' /\
    forall q, q ∈ ps -> unassigned_at b q ->
      domain (cell_at b' q) !! Z.to_nat (v - 1) = Some 0.
Proof.
  intros Hwf Hv Hin. revert b Hwf.
  induction ps as [|p rest IH]; intros b Hwf.
  - exists b. split; [done|]. split; [by apply prunes_refl, wf_board_shape|].
    intros q Hq. by apply elem_of_nil in Hq.
  - apply Forall_cons in Hin as [Hp Hin].
    pose proof (wf_board_shape b Hwf) as Hs.
    destruct p as [k l]. cbn [clear_loop]. rewrite cell_Ret by done. rsimpl.
    destruct (assigned (cell_at b (k, l))) eqn:Has.
    + destruct (IH Hin b Hwf) as (b' & -> & Hpr & Hz).
      exists b'. split; [done|]. split; [by apply prunes_tail|].
      intros q Hq Hu. apply Hz; [|done].
      apply elem_of_cons in Hq as [->|Hq]; [|done].
      unfold unassigned_at in Hu. congruence.
    + rewrite (zero_entry_Ret b (k, l)) by (done || lia). rsimpl.
      set (b1 := put b (k, l) _).
      assert (Hp1 : prunes [(k, l)] b b1) by (by apply zero_entry_prunes).
      assert (Hwf1 : wf_board b1 = true) by (by eapply prunes_wf).
      destruct (IH Hin b1 Hwf1) as (b' & -> & Hpr & Hz).
      exists b'. split; [done|]. split.
      { eapply prunes_trans; [by apply prunes_head|by apply prunes_tail]. }
      intros q Hq Hu. apply elem_of_cons in Hq as [->|Hq].
      * apply (prunes_zero _ _ _ _ _ Hpr Hp). unfold b1.
        rewrite cell_at_put_eq by done. simpl. apply list_lookup_insert_eq.
        pose proof (wf_domain_len b (k, l) Hwf Hp). unfold len in *. lia.
      * apply Hz; [done|]. rewrite Forall_forall in Hin.
        by apply (prunes_unassigned _ _ _ _ Hp1); [apply Hin|].
Qed.

Lemma dot_clear_spec b p v d :
  wf_board b = true -> inr p ->
  exists b',
    dot_clear b (dot_of (cell_at b p) d) v (neighbour p d).1 (neighbour p d).2
      = Ret b' /\
    prunes (peers p) b b' /\
    (dot_of (cell_at b p) d <> "0"%string -> unassigned_at b (neighbour p d) ->
     forall remain, dot_remains (dot_of (cell_at b p) d) v = Ret remain ->
     forall k, 0 <= k < 9 -> py_in (k + 1) remain = false ->
       domain (cell_at b' (neighbour p d)) !! Z.to_nat k = Some 0).
Proof.
  intros Hwf Hp. pose proof (wf_board_shape b Hwf) as Hs.
  unfold dot_clear. destruct (String.eqb_spec (dot_of (cell_at b p) d) "0") as [E0|Hne].
  - exists b. split; [done|]. split; [by apply prunes_refl|]. done.
  - pose proof (wf_neighbour_inr b p d Hwf Hp Hne) as Hq.
    destruct (neighbour p d) as [k l] eqn:En. cbn [fst snd].
    rewrite cell_Ret by done. rsimpl.
    destruct (assigned (cell_at b (k, l))) eqn:Has.
    + exists b. split; [done|]. split; [by apply prunes_refl|].
      unfold unassigned_at. intros _ Hu. congruence.
    + destruct (dot_remains_Ret (dot_of (cell_at b p) d) v) as [remain Hrem];
        [by apply wf_dot_types|done|].
      rewrite Hrem. rsimpl. rewrite wf_domain_len by done.
      destruct (clear_not_in_spec b (k, l) remain (range 0 9) Hwf Hq Has)
        as (b' & E & Hpr & Hz).
      { apply Forall_forall. intros x Hx. by apply elem_of_range in Hx. }
      cbn [fst snd] in E. rewrite E. exists b'. split; [done|]. split.
      * eapply prunes_mono; [|done]. intros q Hq'.
        apply list_elem_of_singleton in Hq' as ->. rewrite <- En.
        apply neighbour_peer; [done|]. by rewrite En.
      * intros _ _ remain' Hrem' i Hi Hni.
        assert (remain' = remain) as -> by congruence.
        apply Hz; [|done]. by apply elem_of_range.
Qed.

Lemma update_neighbors_spec b p v :
  wf_board b = true -> inr p ->
  py_int (value (cell_at b p)) = Ret v -> 1 <= v <= 9 ->
  exists b', update_neighbors b p.1 p.2 = Ret b' /\ prunes (peers p) b b' /\
    value_pruned b' p v /\ forall d, dot_pruned b' p v d.
Proof.
  intros Hwf Hp Hv Hv9. pose proof (wf_board_shape b Hwf) as Hs.
  pose proof (peers_inr p Hp) as Hin. pose proof (peers_irrefl p Hp) as Hirr.
  assert (Hinr : forall q, q ∈ peers p -> inr q).
  { intros q Hq. rewrite Forall_forall in Hin. by apply Hin. }
  assert (Hsub1 : row_cells p.1 p.2 ⊆ peers p).
  { intros q Hq. unfold peers. apply elem_of_app. by left. }
  assert (Hsub2 : col_cells p.1 p.2 ⊆ peers p).
  { intros q Hq. unfold peers. rewrite !elem_of_app. right. by left. }
  assert (Hsub3 : box_cells p.1 p.2 ⊆ peers p).
  { intros q Hq. unfold peers. rewrite !elem_of_app. right. by right. }
  unfold peers in Hin.
  apply Forall_app in Hin as [Hin1 Hin23]. apply Forall_app in Hin23 as [Hin2 Hin3].
  unfold update_neighbors.
  rewrite (cell_Ret b) by (done || by destruct p). rsimpl.
  replace (p.1, p.2) with p by (by destruct p). rewrite Hv. rsimpl.
  destruct (clear_loop_spec b v _ Hwf Hv9 Hin1) as (b1 & E1 & P1 & T1).
  rewrite E1. rsimpl.
  assert (S1 : prunes (peers p) b b1) by exact (prunes_mono _ _ _ _ Hsub1 P1).
  assert (Hwf1 : wf_board b1 = true) by (by eapply prunes_wf).
  destruct (clear_loop_spec b1 v _ Hwf1 Hv9 Hin2) as (b2 & E2 & P2 & T2).
  rewrite E2. rsimpl.
  assert (S2 : prunes (peers p) b1 b2) by exact (prunes_mono _ _ _ _ Hsub2 P2).
  assert (Hwf2 : wf_board b2 = true) by (by eapply prunes_wf).
  destruct (clear_loop_spec b2 v _ Hwf2 Hv9 Hin3) as (b3 & E3 & P3 & T3).
  rewrite E3. rsimpl.
  assert (S3 : prunes (peers p) b2 b3) by exact (prunes_mono _ _ _ _ Hsub3 P3).
  assert (Hwf3 : wf_board b3 = true) by (by eapply prunes_wf).
  rewrite (cell_Ret b3) by (by destruct p, S3). rsimpl.
  replace (p.1, p.2) with p by (by destruct p).
  destruct (dot_clear_spec b3 p v U Hwf3 Hp) as (b4 & E4 & S4 & Z4).
  cbn [dot_of neighbour fst snd] in E4. rewrite E4. rsimpl.
  assert (Hwf4 : wf_board b4 = true) by (by eapply prunes_wf).
  assert (C4 : cell_at b4 p = cell_at b3 p) by (by eapply prunes_outside).
  destruct (dot_clear_spec b4 p v D Hwf4 Hp) as (b5 & E5 & S5 & Z5).
  rewrite C4 in E5. cbn [dot_of neighbour fst snd] in E5. rewrite E5. rsimpl.
  assert (Hwf5 : wf_board b5 = true) by (by eapply prunes_wf).
  assert (C5 : cell_at b5 p = cell_at b3 p).
  { rewrite <- C4. by eapply prunes_outside. }
  destruct (dot_clear_spec b5 p v L Hwf5 Hp) as (b6 & E6 & S6 & Z6).
  rewrite C5 in E6. cbn [dot_of neighbour fst snd] in E6. rewrite E6. rsimpl.
  assert (Hwf6 : wf_board b6 = true) by (by eapply prunes_wf).
  assert (C6 : cell_at b6 p = cell_at b3 p).
  { rewrite <- C5. by eapply prunes_outside. }
  destruct (dot_clear_spec b6 p v R Hwf6 Hp) as (b7 & E7 & S7 & Z7).
  rewrite C6 in E7. cbn [dot_of neighbour fst snd] in E7. rewrite E7.
  assert (C7 : cell_at b7 p = cell_at b3 p).
  { rewrite <- C6. by eapply prunes_outside. }
  exists b7. split; [done|].
  assert (A7 : prunes (peers p) b b7).
  { eapply prunes_trans; [|exact S7]. eapply prunes_trans; [|exact S6].
    eapply prunes_trans; [|exact S5]. eapply prunes_trans; [|exact S4].
    eapply prunes_trans; [|exact S3]. eapply prunes_trans; [|exact S2]. exact S1. }
  split; [done|].
  assert (Hun : forall q, inr q -> unassigned_at b7 q ->
            unassigned_at b q /\ unassigned_at b1 q /\ unassigned_at b2 q /\
            unassigned_at b3 q /\ unassigned_at b4 q /\ unassigned_at b5 q /\
            unassigned_at b6 q).
  { intros q Hq Hu.
    apply (prunes_unassigned _ _ _ _ S7 Hq) in Hu as Hu6.
    apply (prunes_unassigned _ _ _ _ S6 Hq) in Hu6 as Hu5.
    apply (prunes_unassigned _ _ _ _ S5 Hq) in Hu5 as Hu4.
    apply (prunes_unassigned _ _ _ _ S4 Hq) in Hu4 as Hu3.
    apply (prunes_unassigned _ _ _ _ S3 Hq) in Hu3 as Hu2.
    apply (prunes_unassigned _ _ _ _ S2 Hq) in Hu2 as Hu1.
    apply (prunes_unassigned _ _ _ _ S1 Hq) in Hu1 as Hu0. done. }
  split.
  - intros q Hq Hu. pose proof (Hinr q Hq) as Hqi.
    destruct (Hun q Hqi Hu) as (Hu0 & Hu1 & Hu2 & _).
    apply (prunes_zero _ _ _ _ _ S7 Hqi), (prunes_zero _ _ _ _ _ S6 Hqi),
          (prunes_zero _ _ _ _ _ S5 Hqi), (prunes_zero _ _ _ _ _ S4 Hqi).
    unfold peers in Hq. rewrite !elem_of_app in Hq. destruct Hq as [Hq|[Hq|Hq]].
    + apply (prunes_zero _ _ _ _ _ S3 Hqi), (prunes_zero _ _ _ _ _ S2 Hqi).
      by apply T1.
    + apply (prunes_zero _ _ _ _ _ S3 Hqi). by apply T2.
    + by apply T3.
  - intros d. unfold dot_pruned. rewrite C7. intros Hne Hu remain Hrem k Hk Hnin.
    assert (Hqi : inr (neighbour p d)) by (by apply (wf_neighbour_inr b3)).
    destruct (Hun _ Hqi Hu) as (_ & _ & _ & Hu3 & Hu4 & Hu5 & Hu6).
    destruct d.
    + apply (prunes_zero _ _ _ _ _ S7 Hqi), (prunes_zero _ _ _ _ _ S6 Hqi),
            (prunes_zero _ _ _ _ _ S5 Hqi).
      by eapply Z4.
    + apply (prunes_zero _ _ _ _ _ S7 Hqi), (prunes_zero _ _ _ _ _ S6 Hqi).
      eapply Z5; rewrite ?C4; done.
    + apply (prunes_zero _ _ _ _ _ S7 Hqi).
      eapply Z6; rewrite ?C5; done.
    + eapply Z7; rewrite ?C6; done.
Qed.

Lemma val_at_prunes ps b b' p :
  prunes ps b b' -> inr p -> val_at b' p = val_at b p.
Proof. intros Hpr Hp. unfold val_at. by rewrite (prunes_value _ _ _ _ Hpr Hp). Qed.

Lemma value_pruned_prunes ps b b' p v :
  prunes ps b b' -> inr p -> value_pruned b p v -> value_pruned b' p v.
Proof.
  intros Hpr Hp H q Hq Hu. pose proof (peers_inr p Hp) as Hin.
  rewrite Forall_forall in Hin. pose proof (Hin q Hq) as Hqi.
  apply (prunes_zero _ _ _ _ _ Hpr Hqi). apply H; [done|].
  by apply (prunes_unassigned _ _ _ _ Hpr Hqi).
Qed.

Lemma dot_of_prunes ps b b' p d :
  prunes ps b b' -> inr p -> dot_of (cell_at b' p) d = dot_of (cell_at b p) d.
Proof.
  intros Hpr Hp. pose proof (prunes_dots _ _ _ _ Hpr Hp) as Hd.
  unfold dots in Hd. injection Hd as Hu Hdn Hl Hr. by destruct d.
Qed.

Lemma dot_pruned_prunes ps b b' p v d :
  wf_board b = true -> prunes ps b b' -> inr p ->
  dot_pruned b p v d -> dot_pruned b' p v d.
Proof.
  intros Hwf Hpr Hp H. unfold dot_pruned. rewrite (dot_of_prunes _ _ _ _ _ Hpr Hp).
  intros Hne Hu remain Hrem k Hk Hnin.
  assert (Hqi : inr (neighbour p d)) by (by apply (wf_neighbour_inr b)).
  apply (prunes_zero _ _ _ _ _ Hpr Hqi). eapply H; try done.
  by apply (prunes_unassigned _ _ _ _ Hpr Hqi).
Qed.

Lemma conflict_free_prunes ps b b' :
  prunes ps b b' -> conflict_free b -> conflict_free b'.
Proof.
  intros Hpr [H1 H2]. split.
  - intros p q Hp Hq Hsu Hpa Hqa.
    rewrite (prunes_value _ _ _ _ Hpr Hp), (prunes_value _ _ _ _ Hpr Hq).
    apply H1; try done.
    + by rewrite (prunes_unassigned _ _ _ _ Hpr Hp).
    + by rewrite (prunes_unassigned _ _ _ _ Hpr Hq).
  - intros p d Hp Hn Hpa Hna.
    rewrite (dot_of_prunes _ _ _ _ _ Hpr Hp), !(val_at_prunes _ _ _ _ Hpr) by done.
    apply H2; try done.
    + by rewrite (prunes_unassigned _ _ _ _ Hpr Hp).
    + by rewrite (prunes_unassigned _ _ _ _ Hpr Hn).
Qed.

Lemma sweep_loop_spec b cells seen :
  wf_board b = true -> Forall inr cells -> Forall inr seen ->
  (forall p, p ∈ seen -> ~ unassigned_at b p ->
     value_pruned b p (val_at b p) /\ forall d, dot_pruned b p (val_at b p) d) ->
  exists b', sweep_loop b cells = Ret b' /\ prunes scan b b' /\
    forall p, p ∈ seen ++ cells -> ~ unassigned_at b' p ->
      value_pruned b' p (val_at b' p) /\ forall d, dot_pruned b' p (val_at b' p) d.
Proof.
  intros Hwf Hin. revert b seen Hwf.
  induction cells as [|[i j] rest IH]; intros b seen Hwf Hseen Hinv.
  - exists b. split; [done|]. split; [by apply prunes_refl, wf_board_shape|].
    intros p Hp. rewrite app_nil_r in Hp. by apply Hinv.
  - apply Forall_cons in Hin as [Hp Hin]. pose proof (wf_board_shape b Hwf) as Hs.
    cbn [sweep_loop]. rewrite cell_Ret by done. rsimpl.
    replace (seen ++ (i, j) :: rest) with ((seen ++ [(i, j)]) ++ rest)
      by (by rewrite <- app_assoc).
    assert (Hseen' : Forall inr (seen ++ [(i, j)])).
    { apply Forall_app. split; [done|]. by apply Forall_singleton. }
    destruct (decide (unassigned_at b (i, j))) as [Hu|Ha].
    + pose proof Hu as Hu'. unfold unassigned_at in Hu'. rewrite Hu'. cbn [negb].
      apply IH; [done..|]. intros p Hpin Hpa.
      apply elem_of_app in Hpin as [Hpin|Hpin]; [by apply Hinv|].
      by apply list_elem_of_singleton in Hpin as ->.
    + pose proof Ha as Ha'. unfold unassigned_at in Ha'.
      apply not_false_is_true in Ha'. rewrite Ha'. cbn [negb].
      destruct (wf_val_at b (i, j) Hwf Hp Ha) as (Hv & _ & Hint).
      destruct (update_neighbors_spec b (i, j) _ Hwf Hp Hint Hv)
        as (b1 & E & Hpr & Hvp & Hdp).
      cbn [fst snd] in E. rewrite E. rsimpl.
      assert (Hwf1 : wf_board b1 = true) by (by eapply prunes_wf).
      destruct (IH Hin b1 (seen ++ [(i, j)]) Hwf1 Hseen') as (b' & E' & Hpr' & Hall).
      { intros p Hpin Hpa. rewrite Forall_forall in Hseen'.
        pose proof (Hseen' p Hpin) as Hpi.
        rewrite (val_at_prunes _ _ _ _ Hpr Hpi).
        apply elem_of_app in Hpin as [Hpin|Hpin].
        - destruct (Hinv p Hpin) as [VP DP].
          { by rewrite (prunes_unassigned _ _ _ _ Hpr Hpi). }
          split; [exact (value_pruned_prunes _ _ _ _ _ Hpr Hpi VP)|].
          intros d. exact (dot_pruned_prunes _ _ _ _ _ _ Hwf Hpr Hpi (DP d)).
        - by apply list_elem_of_singleton in Hpin as ->. }
      exists b'. split; [done|]. split; [|done].
      eapply prunes_trans; [|exact Hpr']. eapply prunes_mono; [|exact Hpr].
      intros q Hq. apply inr_cases. pose proof (peers_inr (i, j) Hp) as Hpe.
      rewrite Forall_forall in Hpe. by apply Hpe.
Qed.

(** After the initial sweep every given clue has been propagated; values and
    dots are as before. *)
Lemma initial_sweep_spec b :
  wf_board b = true ->
  exists b', initial_sweep b = Ret b' /\ wf_board b' = true /\
             prunes scan b b' /\ propagated b'.
Proof.
  intros Hwf.
  destruct (sweep_loop_spec b scan [] Hwf scan_all_inr) as (b' & E & Hpr & Hall).
  { by apply Forall_nil. }
  { intros p Hp. by apply elem_of_nil in Hp. }
  exists b'. split; [done|]. split; [by eapply prunes_wf|]. split; [done|].
  intros p Hp Ha. apply Hall; [|done]. rewrite app_nil_l. by apply inr_cases.
Qed.

(** * The claims *)

(** ** C1: what a returned board satisfies *)

(** C1, as stated, fails: the given clues are never compared with each
    other.  Here the digit 3 is given twice in the first row, the one open
    cell is filled with 1 and the board is returned. *)
Lemma backtracking_search_accepts_conflict :
  parse_file conflicting_clues no_hdots no_vdots = Ret conflicting_board /\
  wf_board conflicting_board = true /\
  backtracking_search conflicting_board = Ret (conflicting_solution, true) /\
  ~ solved conflicting_solution.
Proof.
  split; [by vm_compute|]. split; [by vm_compute|]. split; [by vm_compute|].
  intros (_ & Hunits & _).
  apply (Hunits (0, 1) (0, 2)); [unfold inr; simpl; lia..| |by vm_compute].
  split; [done|]. by left.
Qed.

(** C1, amended.  On a well-formed board whose given clues do not
    contradict each other and have been propagated to the domains of the
    unassigned cells (as the initial sweep leaves them), a board returned by
    [backtracking_search] is fully assigned with digits 1 to 9, holds no value
    twice in a row, column or box, and satisfies every dot. *)
Theorem backtracking_search_sound b b' :
  wf_board b = true -> conflict_free b -> propagated b ->
  backtracking_search b = Ret (b', true) -> solved b'.
Proof.
  intros Hwf Hcf Hprop H.
  destruct (backtrack_sound 82 b b' Hwf Hcf Hprop H) as (Hwf' & Hcf' & Hc').
  by apply complete_solved.
Qed.

Lemma backtracking_search_sound_witness : solved open_solution.
Proof.
  apply (backtracking_search_sound open_board open_solution).
  - by vm_compute.
  - apply clues_consistent_spec; by vm_compute.
  - apply swept_spec; by vm_compute.
  - by vm_compute.
Defined.

(** The same for a board that still has to go through the initial sweep of
    [parse_file]: the sweep returns, and what the search then returns is a
    solved grid. *)
Lemma sweep_then_search_sound b0 :
  wf_board b0 = true -> conflict_free b0 ->
  exists b, initial_sweep b0 = Ret b /\
    forall b', backtracking_search b = Ret (b', true) -> solved b'.
Proof.
  intros Hwf Hcf.
  destruct (initial_sweep_spec b0 Hwf) as (b & E & Hwfb & Hpr & Hprop).
  exists b. split; [done|]. intros b' H.
  destruct (backtrack_sound 82 b b' Hwfb) as (Hwf' & Hcf' & Hc'); try done.
  - by eapply conflict_free_prunes.
  - by apply complete_solved.
Qed.

(** ** C2: contradictory clues *)

(** C2, as stated, fails on the same puzzle: two 3s are given in the first
    row, and the search returns a board, not [False]. *)
Lemma contradictory_clues_not_rejected :
  value (cell_at conflicting_board (0, 1)) = "3"%string /\
  value (cell_at conflicting_board (0, 2)) = "3"%string /\
  exists b', backtracking_search conflicting_board = Ret (b', true).
Proof.
  split; [by vm_compute|]. split; [by vm_compute|].
  exists conflicting_solution. by vm_compute.
Qed.

(** C2, amended.  On every well-formed board [backtracking_search]
    terminates without an exception and returns a board or [False]; and when
    the clues have left some unassigned cell without any candidate, it returns
    [False] and leaves the board as it was. *)
Theorem backtracking_search_terminates b :
  wf_board b = true ->
  (exists b' result, backtracking_search b = Ret (b', result)) /\
  (forall q, inr q -> unassigned_at b q -> remaining_value_count (cell_at b q) = 0 ->
     backtracking_search b = Ret (b, false)).
Proof.
  intros Hwf. split.
  - destruct (backtracking_search_total b Hwf) as [[b' r] E]. eauto.
  - intros q Hq Hu Hc. by apply (backtrack_wipeout 81 b q).
Qed.

Lemma backtracking_search_terminates_witness :
  (exists b' result, backtracking_search wiped_board = Ret (b', result)) /\
  backtracking_search wiped_board = Ret (wiped_board, false).
Proof.
  destruct (backtracking_search_terminates wiped_board) as [Hret Hwipe].
  - by vm_compute.
  - split; [exact Hret|]. apply (Hwipe (0, 0)).
    + unfold inr. simpl. lia.
    + by vm_compute.
    + by vm_compute.
Defined.


(** ** C3: the candidates a dot leaves *)

(** C3.  For every neighbour value [v] from 1 to 9, [dot_remains] returns for
    a white dot exactly the values [v-1] and [v+1] that lie in 1..9, and for a
    black dot [v/2] and [2v] when [v] is even and at most 4, [v/2] alone when
    [v] is even and above 4, [2v] alone when [v] is odd and at most 3, and
    nothing when [v] is odd and above 3. *)
Theorem dot_remains_candidates v :
  1 <= v <= 9 ->
  (exists l, dot_remains "1" v = Ret l /\
     forall x, x ∈ l <-> (x = v - 1 \/ x = v + 1) /\ 1 <= x <= 9) /\
  (exists l, dot_remains "2" v = Ret l /\
     (Z.even v = true /\ v <= 4 -> forall x, x ∈ l <-> x = v `div` 2 \/ x = v * 2) /\
     (Z.even v = true /\ v > 4 -> forall x, x ∈ l <-> x = v `div` 2) /\
     (Z.odd v = true /\ v <= 3 -> forall x, x ∈ l <-> x = v * 2) /\
     (Z.odd v = true /\ v > 3 -> l = [])).
Proof.
  intros Hv.
  assert (v = 1 \/ v = 2 \/ v = 3 \/ v = 4 \/ v = 5 \/ v = 6 \/ v = 7 \/
          v = 8 \/ v = 9) as Hc by lia.
  destruct Hc as [->|[->|[->|[->|[->|[->|[->|[->| ->]]]]]]]];
    (split; eexists; (split; [reflexivity|]);
     [intros x; rewrite ?elem_of_cons, ?elem_of_nil; lia|]);
    (split; [|split; [|split]]; intros [He Hb]; try discriminate He; try lia;
     try reflexivity; intros x; rewrite ?elem_of_cons, ?elem_of_nil;
     change (2 `div` 2) with 1; change (4 `div` 2) with 2;
     change (6 `div` 2) with 3; change (8 `div` 2) with 4; lia).
Qed.

Lemma dot_remains_candidates_witness :
  (exists l, dot_remains "1" 9 = Ret l /\
     forall x, x ∈ l <-> (x = 9 - 1 \/ x = 9 + 1) /\ 1 <= x <= 9) /\
  (exists l, dot_remains "2" 9 = Ret l /\
     (Z.even 9 = true /\ 9 <= 4 -> forall x, x ∈ l <-> x = 9 `div` 2 \/ x = 9 * 2) /\
     (Z.even 9 = true /\ 9 > 4 -> forall x, x ∈ l <-> x = 9 `div` 2) /\
     (Z.odd 9 = true /\ 9 <= 3 -> forall x, x ∈ l <-> x = 9 * 2) /\
     (Z.odd 9 = true /\ 9 > 3 -> l = [])).
Proof. apply (dot_remains_candidates 9). lia. Defined.

(** ** C4: rollback *)

(** C4.  On every well-formed board and for every unassigned cell: setting
    the cell to a digit, running [forward_check] (whatever flag it reports),
    running [remove_inferences] on the change record it returned and
    resetting the cell to "0" all return, and leave every domain, in fact the
    whole board, as it was before the assignment. *)
Theorem rollback_exact b p val :
  wf_board b = true -> inr p -> unassigned_at b p -> 1 <= val <= 9 ->
  exists b1 b2 consistent original b3 b4,
    set_value b p.1 p.2 (py_str val) = Ret b1 /\
    forward_check b1 p.1 p.2 = Ret (b2, consistent, original) /\
    remove_inferences b2 original = Ret b3 /\
    set_value b3 p.1 p.2 "0" = Ret b4 /\
    (forall q, inr q -> domain (cell_at b4 q) = domain (cell_at b q)) /\
    b4 = b.
Proof.
  intros Hwf Hp Hu Hv.
  destruct (assign_undo b p val Hwf Hp Hu Hv)
    as (b1 & b2 & ok & E1 & _ & _ & Efc & _ & _ & _ & Eundo & Ereset).
  exists b1, b2, ok, (snapshot b1 (peers p)), b1, b. done.
Qed.

Lemma rollback_exact_witness :
  exists b1 b2 consistent original b3 b4,
    set_value dead_end_board 0 0 (py_str 1) = Ret b1 /\
    forward_check b1 0 0 = Ret (b2, consistent, original) /\
    remove_inferences b2 original = Ret b3 /\
    set_value b3 0 0 "0" = Ret b4 /\
    (forall q, inr q -> domain (cell_at b4 q) = domain (cell_at dead_end_board q)) /\
    b4 = dead_end_board.
Proof.
  apply (rollback_exact dead_end_board (0, 0) 1).
  - by vm_compute.
  - unfold inr. simpl. lia.
  - by vm_compute.
  - lia.
Defined.

(** ** C5: the variable ordering *)

(** C5.  On every well-formed board with an unassigned cell,
    [select_variable] returns an unassigned cell whose domain size is minimal
    among the unassigned cells; among those of that size, one with the most
    unassigned cells in its row, column and box; and among those, the first
    in row-major order. *)
Theorem select_variable_mrv_degree b :
  wf_board b = true -> (exists p, inr p /\ unassigned_at b p) ->
  exists s, select_variable b = Ret (Some s) /\ inr s /\ unassigned_at b s /\
    (forall q, inr q -> unassigned_at b q ->
       remaining_value_count (cell_at b s) <= remaining_value_count (cell_at b q)) /\
    (forall q, inr q -> unassigned_at b q ->
       remaining_value_count (cell_at b q) = remaining_value_count (cell_at b s) ->
       unit_degree b q <= unit_degree b s) /\
    (forall q, inr q -> unassigned_at b q ->
       remaining_value_count (cell_at b q) = remaining_value_count (cell_at b s) ->
       unit_degree b q = unit_degree b s -> q <> s -> row_major_lt s q).
Proof.
  intros Hwf Hex.
  destruct (select_variable_spec b (wf_board_shape b Hwf) Hex)
    as (s & E & Hsi & Hsu & Hmin & Hdeg & Hfirst).
  exists s. split; [done|]. split; [done|]. split; [done|]. split; [done|]. split.
  - intros q Hq Hu Hc. rewrite <- !degree_unit_degree by done. by apply Hdeg.
  - intros q Hq Hu Hc Hd. rewrite <- !degree_unit_degree in Hd by done.
    by apply Hfirst.
Qed.

Lemma select_variable_mrv_degree_witness :
  exists s, select_variable dead_end_board = Ret (Some s) /\ inr s /\
    unassigned_at dead_end_board s /\
    (forall q, inr q -> unassigned_at dead_end_board q ->
       remaining_value_count (cell_at dead_end_board s)
       <= remaining_value_count (cell_at dead_end_board q)) /\
    (forall q, inr q -> unassigned_at dead_end_board q ->
       remaining_value_count (cell_at dead_end_board q)
       = remaining_value_count (cell_at dead_end_board s) ->
       unit_degree dead_end_board q <= unit_degree dead_end_board s) /\
    (forall q, inr q -> unassigned_at dead_end_board q ->
       remaining_value_count (cell_at dead_end_board q)
       = remaining_value_count (cell_at dead_end_board s) ->
       unit_degree dead_end_board q = unit_degree dead_end_board s -> q <> s ->
       row_major_lt s q).
Proof.
  apply (select_variable_mrv_degree dead_end_board).
  - by vm_compute.
  - exists (0, 1). split; [unfold inr; simpl; lia|by vm_compute].
Defined.

(** ** C6: the change record of [forward_check] *)

(** C6.  On every well-formed board, [forward_check] at an assigned cell
    returns a flag and a change record; the record is the saved domains of all
    unassigned neighbours whatever the flag is; and the flag is [False]
    exactly when some unassigned neighbour is left with an empty domain. *)
Theorem forward_check_returns_record b p :
  wf_board b = true -> inr p -> ~ unassigned_at b p ->
  exists b' consistent,
    forward_check b p.1 p.2 = Ret (b', consistent, snapshot b (peers p)) /\
    (consistent = false <->
     exists q, q ∈ peers p /\ unassigned_at b' q /\
               remaining_value_count (cell_at b' q) = 0).
Proof.
  intros Hwf Hp Ha. destruct (wf_val_at b p Hwf Hp Ha) as (Hv & _ & Hint).
  destruct (forward_check_spec b p _ Hwf Hp Hint Hv) as (b' & ok & E & _ & Ht & Hf).
  exists b', ok. split; [done|]. split; [done|].
  intros (q & Hq & Hu & Hc). destruct ok; [|done].
  destruct (Ht eq_refl) as (_ & _ & Hnw). by destruct (Hnw q Hq Hu).
Qed.

Lemma forward_check_returns_record_witness :
  exists b' consistent,
    forward_check (assign dead_end_board (0, 0) 1) 0 0
      = Ret (b', consistent, snapshot (assign dead_end_board (0, 0) 1) (peers (0, 0))) /\
    (consistent = false <->
     exists q, q ∈ peers (0, 0) /\ unassigned_at b' q /\
               remaining_value_count (cell_at b' q) = 0).
Proof.
  apply (forward_check_returns_record (assign dead_end_board (0, 0) 1) (0, 0)).
  - by vm_compute.
  - unfold inr. simpl. lia.
  - by vm_compute.
Defined.

(** ** C7: determinism *)

Lemma backtrack_returns_complete n b b' :
  wf_board b = true -> backtrack n b = Ret (b', true) -> complete b' = true.
Proof.
  revert b b'. induction n as [|n IH]; intros b b' Hwf H; [done|].
  destruct (complete b) eqn:Hc.
  - rewrite backtrack_complete in H by done. by injection H as <-.
  - destruct (backtrack_step n b Hwf Hc) as (s & _ & Hsi & Hsu & E).
    rewrite E in H. apply bind_inv in H as ([[b1 r] tried] & Htry & H).
    injection H as <- ->.
    pose proof (try_values_inv _ (backtrack_atomic n) _ _ Hwf Hsi Hsu
                  _ _ _ _ _ range_1_10 Htry) as Hinv.
    simpl in Hinv.
    destruct Hinv as (vals1 & val & vals2 & Hvals & _ & _ & Hsucc & _).
    destruct Hsucc as (b2 & original & Hfc & Hrec).
    assert (Hv : 1 <= val <= 9).
    { pose proof range_1_10 as Hr. rewrite Hvals in Hr.
      apply Forall_app in Hr as [_ Hr]. by apply Forall_cons in Hr as [Hr _]. }
    destruct (assign_undo b s val Hwf Hsi Hsu Hv)
      as (b1' & b2' & ok & _ & Hwf1 & Hb1 & Efc & Hpr & _).
    unfold assign in Hfc. rewrite <- Hb1, Efc in Hfc. injection Hfc as <- _ _.
    apply (IH b2'); [by eapply prunes_wf|done].
Qed.

Lemma cell_fields_eq (c c' : Var) :
  value c = value c' -> domain c = domain c' -> dots c = dots c' -> c = c'.
Proof.
  destruct c, c'. unfold dots. simpl. intros -> -> E. by injection E as -> -> -> ->.
Qed.

(** C7.  Two well-formed boards with the same values, the same domains and
    the same dot fields make [backtracking_search] return, and return the same
    result: the same fully assigned grid, or [False] with the same board.  The
    result does not depend on the bound of the recursion either. *)
Theorem backtracking_search_deterministic b1 b2 :
  wf_board b1 = true -> wf_board b2 = true ->
  (forall p, inr p ->
     value (cell_at b1 p) = value (cell_at b2 p) /\
     domain (cell_at b1 p) = domain (cell_at b2 p) /\
     dots (cell_at b1 p) = dots (cell_at b2 p)) ->
  exists b' result,
    backtracking_search b1 = Ret (b', result) /\
    backtracking_search b2 = Ret (b', result) /\
    (result = true -> complete b' = true) /\
    (forall n r, backtrack n b2 = Ret r -> r = (b', result)).
Proof.
  intros Hwf1 Hwf2 Heq.
  assert (b1 = b2) as ->.
  { apply board_ext; [by apply wf_board_shape..|]. intros p Hp.
    destruct (Heq p Hp) as (Hv & Hd & Hdt). by apply cell_fields_eq. }
  destruct (backtracking_search_total b2 Hwf2) as [[b' result] E].
  exists b', result. split; [done|]. split; [done|]. split.
  - intros ->. by eapply backtrack_returns_complete.
  - intros n r Hr. by eapply backtrack_fuel_indep.
Qed.

Lemma backtracking_search_deterministic_witness :
  exists b' result,
    backtracking_search open_board = Ret (b', result) /\
    backtracking_search open_board = Ret (b', result) /\
    (result = true -> complete b' = true) /\
    (forall n r, backtrack n open_board = Ret r -> r = (b', result)).
Proof.
  apply (backtracking_search_deterministic open_board open_board).
  - by vm_compute.
  - by vm_compute.
  - done.
Defined.

(** ** C8: the order of the candidate values *)

Lemma range_1_10_sorted : StronglySorted Z.lt (range 1 10).
Proof. by apply (bool_decide_unpack _); vm_compute. Qed.

(** C8.  In a call of [backtrack] on a well-formed board that is not
    complete, the values assigned to the selected cell are tried in strictly
    increasing order, each is a digit from 1 to 9 that is in the domain of the
    cell, no digit of the domain below a tried one is left out, and when the
    call returns [False] every digit of the domain has been tried.
    ([tried] is the list of the values the loop assigned, in that order.) *)
Theorem backtrack_tries_increasing n b :
  wf_board b = true -> complete b = false -> (unassigned_count b <= n)%nat ->
  exists s b' result tried,
    select_variable b = Ret (Some s) /\
    try_values (backtrack n) s.1 s.2
      (range 1 (len (domain (cell_at b s)) + 1)) [] b = Ret (b', result, tried) /\
    backtrack (S n) b = Ret (b', result) /\
    StronglySorted Z.lt tried /\
    (forall v, v ∈ tried -> 1 <= v <= 9 /\ candidate b s v) /\
    (forall u v, v ∈ tried -> 1 <= u < v -> candidate b s u -> u ∈ tried) /\
    (result = false -> forall u, 1 <= u <= 9 -> candidate b s u -> u ∈ tried).
Proof.
  intros Hwf Hc Hn.
  destruct (backtrack_step n b Hwf Hc) as (s & Esel & Hsi & Hsu & E).
  destruct (try_values_total (backtrack n) (backtrack_atomic n) b s Hwf Hsi Hsu
              (range 1 10) [] range_1_10)
    as [[[b' result] tried] Htry].
  { intros b2 Hwf2 Hlt. apply backtrack_total; [done|lia]. }
  exists s, b', result, tried. split; [done|].
  rewrite wf_domain_len by done. split; [done|].
  split; [by rewrite E, Htry|].
  pose proof (try_values_inv _ (backtrack_atomic n) _ _ Hwf Hsi Hsu
                _ _ _ _ _ range_1_10 Htry) as Hinv.
  assert (Hpre : exists pre post,
            range 1 10 = pre ++ post /\ tried = filter (candidate b s) pre /\
            (result = false -> post = [])).
  { destruct result.
    - destruct Hinv as (vals1 & val & vals2 & Hvals & Hcand & Ht & _).
      exists (vals1 ++ [val]), vals2. split; [by rewrite <- app_assoc|].
      split; [|done]. rewrite filter_app, filter_cons, decide_True by done.
      by rewrite filter_nil.
    - destruct Hinv as (_ & Ht & _). exists (range 1 10), [].
      split; [by rewrite app_nil_r|]. done. }
  destruct Hpre as (pre & post & Hr & -> & Hpost).
  pose proof range_1_10_sorted as Hsorted. rewrite Hr in Hsorted.
  assert (Hin : forall u, 1 <= u <= 9 -> u ∈ pre \/ u ∈ post).
  { intros u Hu. apply elem_of_app. rewrite <- Hr. apply elem_of_range. lia. }
  split; [|split; [|split]].
  - by apply StronglySorted_filter, (StronglySorted_app_1_l _ _ post).
  - intros v Hv. apply list_elem_of_filter in Hv as [Hcand Hv]. split; [|done].
    assert (v ∈ range 1 10) as Hvr by (rewrite Hr; apply elem_of_app; by left).
    apply elem_of_range in Hvr. lia.
  - intros u v Hv Hu Hcand. apply list_elem_of_filter in Hv as [_ Hv].
    assert (v ∈ range 1 10) as Hvr by (rewrite Hr; apply elem_of_app; by left).
    apply elem_of_range in Hvr.
    apply list_elem_of_filter. split; [done|].
    destruct (Hin u ltac:(lia)) as [Hpre|Hpost']; [done|].
    pose proof (StronglySorted_app_1_elem_of _ _ _ _ _ Hsorted Hv Hpost'). lia.
  - intros Hres u Hu Hcand. rewrite (Hpost Hres) in Hin.
    apply list_elem_of_filter. split; [done|].
    destruct (Hin u Hu) as [Hpre|Hnil]; [done|]. by apply elem_of_nil in Hnil.
Qed.

Lemma backtrack_tries_increasing_witness :
  exists s b' result tried,
    select_variable dead_end_board = Ret (Some s) /\
    try_values (backtrack 81) s.1 s.2
      (range 1 (len (domain (cell_at dead_end_board s)) + 1)) [] dead_end_board
      = Ret (b', result, tried) /\
    backtrack 82 dead_end_board = Ret (b', result) /\
    StronglySorted Z.lt tried /\
    (forall v, v ∈ tried -> 1 <= v <= 9 /\ candidate dead_end_board s v) /\
    (forall u v, v ∈ tried -> 1 <= u < v -> candidate dead_end_board s u -> u ∈ tried) /\
    (result = false ->
     forall u, 1 <= u <= 9 -> candidate dead_end_board s u -> u ∈ tried).
Proof.
  apply (backtrack_tries_increasing 81 dead_end_board).
  - by vm_compute.
  - by vm_compute.
  - apply Nat.leb_le. by vm_compute.
Defined.

(** ** C9: the dot fields *)

(** C9.  Whatever operation of the search runs on a board ([forward_check],
    [remove_inferences], [select_variable] or [backtrack]), when it returns
    the four dot fields of every cell are what they were before the call. *)
Theorem dot_fields_unchanged b b' :
  search_op b b' -> board_dots b' = board_dots b.
Proof.
  intros [i j consistent original H|original H|s H ->|n result H].
  - by eapply forward_check_dots.
  - by eapply remove_inferences_dots.
  - done.
  - by eapply backtrack_dots.
Qed.

Lemma dot_fields_unchanged_witness :
  board_dots open_solution = board_dots open_board.
Proof.
  apply (dot_fields_unchanged open_board open_solution).
  apply (op_backtrack _ _ 82%nat true). by vm_compute.
Defined.

(** ** C10: failure leaves the board as it was *)

(** C10.  If [backtrack] returns [False] on a well-formed board, the board
    it leaves behind is the board it was called with: every value and every
    domain is what it was at entry. *)
Theorem backtrack_failure_atomic n b b' :
  wf_board b = true -> backtrack n b = Ret (b', false) ->
  b' = b /\
  forall p, inr p ->
    value (cell_at b' p) = value (cell_at b p) /\
    domain (cell_at b' p) = domain (cell_at b p).
Proof.
  intros Hwf H. pose proof (backtrack_atomic n b b' Hwf H) as ->. done.
Qed.

Lemma backtrack_failure_atomic_witness :
  dead_end_board = dead_end_board /\
  forall p, inr p ->
    value (cell_at dead_end_board p) = value (cell_at dead_end_board p) /\
    domain (cell_at dead_end_board p) = domain (cell_at dead_end_board p).
Proof.
  apply (backtrack_failure_atomic 82 dead_end_board dead_end_board).
  - by vm_compute.
  - by vm_compute.
Defined.

(** * Further verification *)

(** ** [forward_check] and [update_neighbors] prune alike *)

(** A pruning loop that was not left early did what the loop of
    [update_neighbors] does. *)
Lemma prune_loop_clear_loop b v ps b' :
  prune_loop b v ps = Ret (b', true) -> clear_loop b v ps = Ret b'.
Proof.
  revert b. induction ps as [|[k l] rest IH]; intros b H.
  - by injection H as <-.
  - cbn [prune_loop] in H. cbn [clear_loop].
    destruct (cell b k l) as [var| |]; rsimpl in H; rsimpl; try done.
    destruct (assigned var); [by apply IH|].
    destruct (zero_entry b k l (v - 1)) as [b1| |]; rsimpl in H; rsimpl; try done.
    destruct (cell b1 k l) as [var'| |]; rsimpl in H; try done.
    destruct (_ =? 0); [done|]. by apply IH.
Qed.

(** A pruning loop that was left early did it on the cells up to the one
    whose domain became empty. *)
Lemma prune_loop_prefix b v ps b' ok :
  prune_loop b v ps = Ret (b', ok) ->
  exists ps1 ps2, ps = ps1 ++ ps2 /\ clear_loop b v ps1 = Ret b' /\
                  (ok = true -> ps2 = []).
Proof.
  revert b. induction ps as [|[k l] rest IH]; intros b H.
  - injection H as <- <-. by exists [], [].
  - cbn [prune_loop] in H.
    destruct (cell b k l) as [var| |] eqn:Ec; rsimpl in H; try done.
    destruct (assigned var) eqn:Ea.
    + destruct (IH b H) as (ps1 & ps2 & -> & E & Hok).
      exists ((k, l) :: ps1), ps2. split; [done|]. split; [|done].
      cbn [clear_loop]. rewrite Ec. rsimpl. by rewrite Ea.
    + destruct (zero_entry b k l (v - 1)) as [b1| |] eqn:Ez; rsimpl in H; try done.
      destruct (cell b1 k l) as [var'| |]; rsimpl in H; try done.
      destruct (_ =? 0).
      * injection H as <- <-. exists [(k, l)], rest. split; [done|]. split; [|done].
        cbn [clear_loop]. rewrite Ec. rsimpl. rewrite Ea, Ez. done.
      * destruct (IH b1 H) as (ps1 & ps2 & -> & E & Hok).
        exists ((k, l) :: ps1), ps2. split; [done|]. split; [|done].
        cbn [clear_loop]. rewrite Ec. rsimpl. rewrite Ea, Ez. done.
Qed.

(** A dot step of [forward_check] leaves the board the dot step of
    [update_neighbors] leaves, whatever flag it reports. *)
Lemma dot_prune_dot_clear b dot v k l b' ok :
  dot_prune b dot v k l = Ret (b', ok) -> dot_clear b dot v k l = Ret b'.
Proof.
  unfold dot_prune, dot_clear. intros H.
  destruct (String.eqb dot "0"); [by injection H as <- <-|].
  destruct (cell b k l) as [nb| |]; rsimpl in H; rsimpl; try done.
  destruct (assigned nb); [by injection H as <- <-|].
  destruct (dot_remains dot v) as [remain| |]; rsimpl in H; rsimpl; try done.
  destruct (clear_not_in b k l remain _) as [b1| |]; rsimpl in H; try done.
  destruct (cell b1 k l) as [nb'| |]; rsimpl in H; try done.
  destruct (_ =? 0); by injection H as <- <-.
Qed.

Lemma and_then_true original m k b' original' :
  and_then original m k = Ret (b', true, original') ->
  exists b1, m = Ret (b1, true) /\ k b1 = Ret (b', true, original').
Proof.
  unfold and_then. intros H. apply bind_inv in H as ([b1 ok1] & Hm & H).
  destruct ok1; [eauto|done].
Qed.


(** ** What the pruning leaves alone *)

Lemma keeps_refl E b : keeps_unless E b b.
Proof. by intros q k _ _. Qed.

Lemma keeps_trans E b1 b2 b3 :
  keeps_unless E b1 b2 -> keeps_unless E b2 b3 -> keeps_unless E b1 b3.
Proof. intros H1 H2 q k Hq HE. rewrite H2 by done. by apply H1. Qed.

Lemma keeps_mono (E E' : Pos -> nat -> Prop) b b' :
  (forall q k, E q k -> E' q k) -> keeps_unless E b b' -> keeps_unless E' b b'.
Proof. intros Hsub H q k Hq HE. apply H; [done|]. intros HE'. by apply HE, Hsub. Qed.

Lemma zero_entry_keeps b p k :
  shape b -> inr p ->
  keeps_unless (fun q i => q = p /\ i = Z.to_nat k) b
    (put b p (with_domain (cell_at b p)
                (<[Z.to_nat k := 0]> (domain (cell_at b p))))).
Proof.
  intros Hs Hp q i Hq HE. destruct (decide (p = q)) as [<-|Hne].
  - rewrite cell_at_put_eq by done. simpl.
    apply list_lookup_insert_ne. intros <-. by apply HE.
  - by rewrite cell_at_put_ne.
Qed.

Lemma clear_loop_keeps b v ps b' :
  wf_board b = true -> 1 <= v <= 9 -> Forall inr ps ->
  clear_loop b v ps = Ret b' ->
  keeps_unless (fun q k => q ∈ ps /\ k = Z.to_nat (v - 1)) b b'.
Proof.
  intros Hwf Hv Hin. revert b Hwf.
  induction ps as [|p rest IH]; intros b Hwf H.
  - injection H as <-. apply keeps_refl.
  - apply Forall_cons in Hin as [Hp Hin].
    pose proof (wf_board_shape b Hwf) as Hs.
    destruct p as [k l]. cbn [clear_loop] in H. rewrite cell_Ret in H by done.
    rsimpl in H. destruct (assigned (cell_at b (k, l))) eqn:Has.
    + eapply keeps_mono; [|by apply IH]. intros q i [Hq ->]. split; [|done].
      apply elem_of_cons. by right.
    + rewrite (zero_entry_Ret b (k, l)) in H by (done || lia). rsimpl in H.
      set (b1 := put b (k, l) _) in H.
      assert (Hp1 : prunes [(k, l)] b b1) by (by apply zero_entry_prunes).
      assert (Hwf1 : wf_board b1 = true) by (by eapply prunes_wf).
      eapply keeps_trans.
      * eapply keeps_mono; [|by apply (zero_entry_keeps b (k, l) (v - 1))].
        intros q i [-> ->]. split; [|done]. apply elem_of_cons. by left.
      * eapply keeps_mono; [|by apply IH]. intros q i [Hq ->]. split; [|done].
        apply elem_of_cons. by right.
Qed.

Lemma clear_not_in_keeps b p remain ks b' :
  wf_board b = true -> inr p -> unassigned_at b p ->
  Forall (fun k => 0 <= k < 9) ks ->
  clear_not_in b p.1 p.2 remain ks = Ret b' ->
  keeps_unless (fun q i => q = p /\ py_in (Z.of_nat i + 1) remain = false) b b'.
Proof.
  intros Hwf Hp Hu Hks. revert b Hwf Hu.
  induction ks as [|k rest IH]; intros b Hwf Hu H.
  - injection H as <-. apply keeps_refl.
  - apply Forall_cons in Hks as [Hk Hks]. cbn [clear_not_in] in H.
    destruct (py_in (k + 1) remain) eqn:Hin; cbn [negb] in H.
    + by apply IH.
    + rewrite (zero_entry_Ret b p) in H by done. rsimpl in H.
      set (b1 := put b p _) in H.
      assert (Hp1 : prunes [p] b b1) by (by apply zero_entry_prunes).
      assert (Hwf1 : wf_board b1 = true) by (by eapply prunes_wf).
      assert (Hu1 : unassigned_at b1 p) by (by apply (prunes_unassigned _ _ _ _ Hp1)).
      eapply keeps_trans; [|by apply IH].
      eapply keeps_mono; [|apply (zero_entry_keeps b p k); [by apply wf_board_shape|done]].
      intros q i [-> ->]. split; [done|]. by rewrite Z2Nat.id by lia.
Qed.

Lemma excluded_peer b p v q k :
  q ∈ peers p -> k = Z.to_nat (v - 1) -> excluded b p v q k = true.
Proof.
  intros Hq ->. unfold excluded. apply orb_true_intro. left.
  by rewrite !bool_decide_eq_true_2.
Qed.

Lemma excluded_dot b p v d remain k :
  dot_of (cell_at b p) d <> "0"%string ->
  dot_remains (dot_of (cell_at b p) d) v = Ret remain ->
  py_in (Z.of_nat k + 1) remain = false ->
  excluded b p v (neighbour p d) k = true.
Proof.
  intros Hne Hrem Hin. unfold excluded. apply orb_true_intro. right.
  apply existsb_exists. exists d. split; [destruct d; unfold dirs; simpl; tauto|].
  rewrite bool_decide_eq_true_2 by done. rewrite Hrem, Hin.
  by destruct (String.eqb_spec (dot_of (cell_at b p) d) "0").
Qed.

Lemma excluded_inv b p v q k :
  excluded b p v q k = true ->
  (q ∈ peers p /\ k = Z.to_nat (v - 1)) \/
  exists d remain, q = neighbour p d /\ dot_of (cell_at b p) d <> "0"%string /\
    dot_remains (dot_of (cell_at b p) d) v = Ret remain /\
    py_in (Z.of_nat k + 1) remain = false.
Proof.
  unfold excluded. intros H. apply orb_prop in H as [H|H].
  - left. apply andb_prop in H as [H1 H2].
    by apply bool_decide_eq_true in H1, H2.
  - right. apply existsb_exists in H as (d & _ & H).
    apply andb_prop in H as [H H3]. apply andb_prop in H as [H1 H2].
    apply bool_decide_eq_true in H1.
    destruct (dot_remains (dot_of (cell_at b p) d) v) as [remain| |] eqn:Hrem; try done.
    exists d, remain. split; [done|]. split.
    + intros E. rewrite E in H2. done.
    + split; [done|]. by destruct (py_in _ remain).
Qed.

Lemma dot_clear_keeps b p v d b' :
  wf_board b = true -> inr p ->
  dot_clear b (dot_of (cell_at b p) d) v (neighbour p d).1 (neighbour p d).2
    = Ret b' ->
  keeps_unless (fun q k => excluded b p v q k = true) b b'.
Proof.
  intros Hwf Hp H. pose proof (wf_board_shape b Hwf) as Hs.
  unfold dot_clear in H.
  destruct (String.eqb_spec (dot_of (cell_at b p) d) "0") as [E0|Hne].
  - injection H as <-. apply keeps_refl.
  - pose proof (wf_neighbour_inr b p d Hwf Hp Hne) as Hq.
    destruct (neighbour p d) as [k l] eqn:En. cbn [fst snd] in H.
    rewrite cell_Ret in H by done. rsimpl in H.
    destruct (assigned (cell_at b (k, l))) eqn:Has.
    + injection H as <-. apply keeps_refl.
    + destruct (dot_remains (dot_of (cell_at b p) d) v) as [remain| |] eqn:Hrem;
        rsimpl in H; try done.
      rewrite wf_domain_len in H by done.
      eapply keeps_mono;
        [|apply (clear_not_in_keeps b (k, l) remain (range 0 9)); try done].
      * intros q i [-> Hi]. rewrite <- En. by eapply excluded_dot.
      * apply Forall_forall. intros x Hx. by apply elem_of_range in Hx.
Qed.

(** The state of a sweep of the cell [p] of [b0] with value [v], part way
    through: well formed, pruned only at peers, and nothing gone that the
    sweep does not exclude. *)
Lemma sweep_clear_step b0 p v bi ps bj :
  inr p -> 1 <= v <= 9 -> ps ⊆ peers p ->
  wf_board bi = true -> prunes (peers p) b0 bi ->
  keeps_unless (fun q k => excluded b0 p v q k = true) b0 bi ->
  clear_loop bi v ps = Ret bj ->
  wf_board bj = true /\ prunes (peers p) b0 bj /\
  keeps_unless (fun q k => excluded b0 p v q k = true) b0 bj.
Proof.
  intros Hp Hv Hsub Hwf Hpr Hk H.
  assert (Hin : Forall inr ps).
  { apply Forall_forall. intros q Hq. pose proof (peers_inr p Hp) as Hpi.
    rewrite Forall_forall in Hpi. by apply Hpi, Hsub. }
  destruct (clear_loop_spec bi v ps Hwf Hv Hin) as (b' & E & P & _).
  assert (b' = bj) as -> by congruence.
  assert (S : prunes (peers p) bi bj) by exact (prunes_mono _ _ _ _ Hsub P).
  split; [by eapply prunes_wf|]. split; [by eapply prunes_trans|].
  eapply keeps_trans; [done|].
  eapply keeps_mono; [|by apply (clear_loop_keeps bi v ps)].
  intros q k [Hq ->]. apply excluded_peer; [by apply Hsub|done].
Qed.

Lemma excluded_ext b b' p v q k :
  cell_at b' p = cell_at b p -> excluded b' p v q k = excluded b p v q k.
Proof. unfold excluded. by intros ->. Qed.

Lemma sweep_dot_step b0 p v bi d bj :
  inr p ->
  wf_board bi = true -> prunes (peers p) b0 bi ->
  keeps_unless (fun q k => excluded b0 p v q k = true) b0 bi ->
  dot_clear bi (dot_of (cell_at b0 p) d) v (neighbour p d).1 (neighbour p d).2
    = Ret bj ->
  wf_board bj = true /\ prunes (peers p) b0 bj /\
  keeps_unless (fun q k => excluded b0 p v q k = true) b0 bj.
Proof.
  intros Hp Hwf Hpr Hk H.
  assert (C : cell_at bi p = cell_at b0 p).
  { eapply prunes_outside; [done..|]. by apply peers_irrefl. }
  rewrite <- C in H.
  destruct (dot_clear_spec bi p v d Hwf Hp) as (b' & E & P & _).
  assert (b' = bj) as -> by congruence.
  split; [by eapply prunes_wf|]. split; [by eapply prunes_trans|].
  eapply keeps_trans; [done|].
  eapply keeps_mono; [|by apply (dot_clear_keeps bi p v d)].
  intros q k HE. cbn beta in HE. by rewrite <- (excluded_ext b0 bi p v q k C).
Qed.

Lemma peers_row p : row_cells p.1 p.2 ⊆ peers p.
Proof. intros q Hq. unfold peers. apply elem_of_app. by left. Qed.

Lemma peers_col p : col_cells p.1 p.2 ⊆ peers p.
Proof. intros q Hq. unfold peers. rewrite !elem_of_app. right. by left. Qed.

Lemma peers_box p : box_cells p.1 p.2 ⊆ peers p.
Proof. intros q Hq. unfold peers. rewrite !elem_of_app. right. by right. Qed.

Lemma update_neighbors_keeps b p v b' :
  wf_board b = true -> inr p ->
  py_int (value (cell_at b p)) = Ret v -> 1 <= v <= 9 ->
  update_neighbors b p.1 p.2 = Ret b' ->
  wf_board b' = true /\ prunes (peers p) b b' /\
  keeps_unless (fun q k => excluded b p v q k = true) b b'.
Proof.
  intros Hwf Hp Hv Hv9 H. pose proof (wf_board_shape b Hwf) as Hs.
  unfold update_neighbors in H.
  rewrite (cell_Ret b) in H by (done || by destruct p). rsimpl in H.
  replace (p.1, p.2) with p in H by (by destruct p). rewrite Hv in H. rsimpl in H.
  apply bind_inv in H as (b1 & E1 & H).
  destruct (sweep_clear_step b p v b _ b1 Hp Hv9 (peers_row p) Hwf
              (prunes_refl _ _ Hs) (keeps_refl _ _) E1) as (W1 & P1 & K1).
  apply bind_inv in H as (b2 & E2 & H).
  destruct (sweep_clear_step b p v b1 _ b2 Hp Hv9 (peers_col p) W1 P1 K1 E2)
    as (W2 & P2 & K2).
  apply bind_inv in H as (b3 & E3 & H).
  destruct (sweep_clear_step b p v b2 _ b3 Hp Hv9 (peers_box p) W2 P2 K2 E3)
    as (W3 & P3 & K3).
  rewrite (cell_Ret b3) in H by (by destruct p, P3). rsimpl in H.
  replace (p.1, p.2) with p in H by (by destruct p).
  assert (C3 : cell_at b3 p = cell_at b p).
  { eapply prunes_outside; [done..|]. by apply peers_irrefl. }
  rewrite C3 in H.
  apply bind_inv in H as (b4 & E4 & H).
  destruct (sweep_dot_step b p v b3 U b4 Hp W3 P3 K3 E4) as (W4 & P4 & K4).
  apply bind_inv in H as (b5 & E5 & H).
  destruct (sweep_dot_step b p v b4 D b5 Hp W4 P4 K4 E5) as (W5 & P5 & K5).
  apply bind_inv in H as (b6 & E6 & H).
  destruct (sweep_dot_step b p v b5 L b6 Hp W5 P5 K5 E6) as (W6 & P6 & K6).
  exact (sweep_dot_step b p v b6 R b' Hp W6 P6 K6 H).
Qed.

Lemma and_then_inv original m k b' ok original' :
  and_then original m k = Ret (b', ok, original') ->
  exists b1 ok1, m = Ret (b1, ok1) /\
    if ok1 : bool then k b1 = Ret (b', ok, original') else b' = b1.
Proof.
  unfold and_then. intros H. apply bind_inv in H as ([b1 ok1] & Hm & H).
  exists b1, ok1. split; [done|]. destruct ok1; [done|]. by injection H as <-.
Qed.

Lemma sweep_prune_step b0 p v bi ps bj ok :
  inr p -> 1 <= v <= 9 -> ps ⊆ peers p ->
  wf_board bi = true -> prunes (peers p) b0 bi ->
  keeps_unless (fun q k => excluded b0 p v q k = true) b0 bi ->
  prune_loop bi v ps = Ret (bj, ok) ->
  wf_board bj = true /\ prunes (peers p) b0 bj /\
  keeps_unless (fun q k => excluded b0 p v q k = true) b0 bj.
Proof.
  intros Hp Hv Hsub Hwf Hpr Hk H.
  apply prune_loop_prefix in H as (ps1 & ps2 & -> & H & _).
  apply (sweep_clear_step b0 p v bi ps1 bj); try done.
  intros q Hq. apply Hsub, elem_of_app. by left.
Qed.

Lemma sweep_dot_prune_step b0 p v bi d bj ok :
  inr p ->
  wf_board bi = true -> prunes (peers p) b0 bi ->
  keeps_unless (fun q k => excluded b0 p v q k = true) b0 bi ->
  dot_prune bi (dot_of (cell_at b0 p) d) v (neighbour p d).1 (neighbour p d).2
    = Ret (bj, ok) ->
  wf_board bj = true /\ prunes (peers p) b0 bj /\
  keeps_unless (fun q k => excluded b0 p v q k = true) b0 bj.
Proof.
  intros Hp Hwf Hpr Hk H. apply dot_prune_dot_clear in H.
  by apply (sweep_dot_step b0 p v bi d bj).
Qed.

Lemma forward_check_keeps b p v b' ok original :
  wf_board b = true -> inr p ->
  py_int (value (cell_at b p)) = Ret v -> 1 <= v <= 9 ->
  forward_check b p.1 p.2 = Ret (b', ok, original) ->
  wf_board b' = true /\ prunes (peers p) b b' /\
  keeps_unless (fun q k => excluded b p v q k = true) b b'.
Proof.
  intros Hwf Hp Hv Hv9 H. pose proof (wf_board_shape b Hwf) as Hs.
  unfold forward_check in H.
  apply bind_inv in H as (o1 & _ & H). apply bind_inv in H as (o2 & _ & H).
  apply bind_inv in H as (o3 & _ & H).
  rewrite (cell_Ret b) in H by (done || by destruct p). rsimpl in H.
  replace (p.1, p.2) with p in H by (by destruct p). rewrite Hv in H. rsimpl in H.
  apply and_then_inv in H as (b1 & ok1 & E1 & H).
  destruct (sweep_prune_step b p v b _ b1 ok1 Hp Hv9 (peers_row p) Hwf
              (prunes_refl _ _ Hs) (keeps_refl _ _) E1) as (W1 & P1 & K1).
  destruct ok1; [|by subst b'].
  apply and_then_inv in H as (b2 & ok2 & E2 & H).
  destruct (sweep_prune_step b p v b1 _ b2 ok2 Hp Hv9 (peers_col p) W1 P1 K1 E2)
    as (W2 & P2 & K2).
  destruct ok2; [|by subst b'].
  apply and_then_inv in H as (b3 & ok3 & E3 & H).
  destruct (sweep_prune_step b p v b2 _ b3 ok3 Hp Hv9 (peers_box p) W2 P2 K2 E3)
    as (W3 & P3 & K3).
  destruct ok3; [|by subst b'].
  rewrite (cell_Ret b3) in H by (by destruct p, P3). rsimpl in H.
  replace (p.1, p.2) with p in H by (by destruct p).
  assert (C3 : cell_at b3 p = cell_at b p).
  { eapply prunes_outside; [done..|]. by apply peers_irrefl. }
  rewrite C3 in H.
  apply and_then_inv in H as (b4 & ok4 & E4 & H).
  destruct (sweep_dot_prune_step b p v b3 U b4 ok4 Hp W3 P3 K3 E4) as (W4 & P4 & K4).
  destruct ok4; [|by subst b'].
  apply and_then_inv in H as (b5 & ok5 & E5 & H).
  destruct (sweep_dot_prune_step b p v b4 D b5 ok5 Hp W4 P4 K4 E5) as (W5 & P5 & K5).
  destruct ok5; [|by subst b'].
  apply and_then_inv in H as (b6 & ok6 & E6 & H).
  destruct (sweep_dot_prune_step b p v b5 L b6 ok6 Hp W5 P5 K5 E6) as (W6 & P6 & K6).
  destruct ok6; [|by subst b'].
  apply and_then_inv in H as (b7 & ok7 & E7 & H).
  destruct (sweep_dot_prune_step b p v b6 R b7 ok7 Hp W6 P6 K6 E7) as (W7 & P7 & K7).
  destruct ok7; [|by subst b'].
  by injection H as <- _ _.
Qed.

(** ** The exact effect of a sweep *)

Lemma sweep_result_exact b p v b' :
  wf_board b = true -> inr p -> 1 <= v <= 9 ->
  prunes (peers p) b b' ->
  keeps_unless (fun q k => excluded b p v q k = true) b b' ->
  value_pruned b' p v -> (forall d, dot_pruned b' p v d) ->
  forall q, inr q ->
    cell_at b' q = with_domain (cell_at b q) (swept_domain b p v q).
Proof.
  intros Hwf Hp Hv P K VP DP q Hq.
  destruct P as [Hs' P]. destruct (P q Hq) as (Hc & [Hlen Hn] & Has).
  destruct (P p Hp) as (_ & _ & Hasp).
  rewrite Hc at 1. f_equal. apply list_eq. intros k. unfold swept_domain.
  rewrite list_lookup_imap.
  destruct (domain (cell_at b q) !! k) as [x|] eqn:Ek; cbn [fmap option_fmap option_map].
  - destruct (assigned (cell_at b q)) eqn:Ha; cbn [negb andb].
    + rewrite Has by (by right). done.
    + destruct (excluded b p v q k) eqn:Ex.
      * assert (Hu' : unassigned_at b' q).
        { unfold unassigned_at. rewrite Hc. done. }
        assert (Hk : (k < 9)%nat).
        { apply lookup_lt_Some in Ek.
          pose proof (wf_domain_len b q Hwf Hq). unfold len in *. lia. }
        apply excluded_inv in Ex as [[Hqp ->]|(d & remain & -> & Hne & Hrem & Hin)].
        -- by apply VP.
        -- assert (C : cell_at b' p = cell_at b p).
           { apply Hasp. left. by apply peers_irrefl. }
           pose proof (DP d) as Hd. unfold dot_pruned in Hd. rewrite C in Hd.
           specialize (Hd Hne Hu' remain Hrem (Z.of_nat k)).
           rewrite Nat2Z.id in Hd. apply Hd; [lia|done].
      * rewrite K; [done..|]. by rewrite Ex.
  - apply lookup_ge_None. apply lookup_ge_None in Ek. lia.
Qed.

Lemma update_neighbors_cells b p v :
  wf_board b = true -> inr p ->
  py_int (value (cell_at b p)) = Ret v -> 1 <= v <= 9 ->
  exists b', update_neighbors b p.1 p.2 = Ret b' /\ wf_board b' = true /\
    forall q, inr q ->
      cell_at b' q = with_domain (cell_at b q) (swept_domain b p v q).
Proof.
  intros Hwf Hp Hv Hv9.
  destruct (update_neighbors_spec b p v Hwf Hp Hv Hv9) as (b' & E & P & VP & DP).
  destruct (update_neighbors_keeps b p v b' Hwf Hp Hv Hv9 E) as (W & _ & K).
  exists b'. split; [done|]. split; [done|].
  by apply sweep_result_exact.
Qed.

Lemma imap_lookup_eq {A} (f : nat -> A -> A) (l l' : list A) :
  length l' = length l ->
  (forall k x, l !! k = Some x -> l' !! k = Some (f k x)) ->
  l' = imap f l.
Proof.
  intros Hlen Hl. apply list_eq. intros k. rewrite list_lookup_imap.
  destruct (l !! k) as [x|] eqn:Ek; cbn [fmap option_fmap option_map].
  - by apply Hl.
  - apply lookup_ge_None. apply lookup_ge_None in Ek. lia.
Qed.

Lemma swept_domain_lookup b p v q k x :
  domain (cell_at b q) !! k = Some x ->
  swept_domain b p v q !! k =
    Some (if negb (assigned (cell_at b q)) && excluded b p v q k then 0 else x).
Proof. intros Ek. unfold swept_domain. rewrite list_lookup_imap, Ek. done. Qed.

Lemma swept_domain_length b p v q :
  length (swept_domain b p v q) = length (domain (cell_at b q)).
Proof. unfold swept_domain. apply length_imap. Qed.

Lemma update_neighbors_idem b p v b' :
  wf_board b = true -> inr p ->
  py_int (value (cell_at b p)) = Ret v -> 1 <= v <= 9 ->
  update_neighbors b p.1 p.2 = Ret b' ->
  update_neighbors b' p.1 p.2 = Ret b'.
Proof.
  intros Hwf Hp Hv Hv9 E.
  destruct (update_neighbors_cells b p v Hwf Hp Hv Hv9) as (b1 & E1 & W & C).
  assert (b1 = b') as -> by congruence.
  assert (Cp : cell_at b' p = cell_at b p).
  { destruct (update_neighbors_spec b p v Hwf Hp Hv Hv9) as (b1 & E2 & P & _).
    assert (b1 = b') as -> by congruence.
    eapply prunes_outside; [done..|]. by apply peers_irrefl. }
  destruct (update_neighbors_cells b' p v W Hp) as (b2 & E2 & W2 & C2);
    [by rewrite Cp|done|].
  rewrite E2. f_equal. apply board_ext; [by apply wf_board_shape..|].
  intros q Hq. rewrite (C2 q Hq). rewrite (C q Hq) at 2.
  rewrite (C q Hq) at 1. unfold with_domain at 1 3. cbn [value up down left right].
  f_equal. symmetry. apply list_eq. intros k.
  destruct (domain (cell_at b q) !! k) as [x|] eqn:Ek.
  - pose proof (swept_domain_lookup b p v q k x Ek) as H1.
    assert (H1' : domain (cell_at b' q) !! k =
              Some (if negb (assigned (cell_at b q)) && excluded b p v q k
                    then 0 else x)).
    { rewrite (C q Hq). done. }
    rewrite (swept_domain_lookup b' p v q k _ H1'). rewrite H1.
    rewrite (excluded_ext b b' p v q k Cp).
    replace (assigned (cell_at b' q)) with (assigned (cell_at b q))
      by (by rewrite (C q Hq)).
    by destruct (negb (assigned (cell_at b q)) && excluded b p v q k).
  - assert (Hge : (length (domain (cell_at b q)) <= k)%nat)
      by (by apply lookup_ge_None).
    rewrite (proj2 (lookup_ge_None _ _)) by (by rewrite swept_domain_length).
    rewrite (proj2 (lookup_ge_None _ _)); [done|].
    rewrite swept_domain_length, (C q Hq). cbn [domain with_domain].
    by rewrite swept_domain_length.
Qed.

Lemma excluded_by_prunes ps b b1 cells q k :
  prunes ps b b1 -> Forall inr cells ->
  excluded_by b1 cells q k = excluded_by b cells q k.
Proof.
  intros P Hin. unfold excluded_by.
  induction cells as [|p rest IH]; [done|].
  apply Forall_cons in Hin as [Hp Hin]. cbn [existsb]. rewrite IH by done.
  f_equal. rewrite (prunes_assigned _ _ _ _ P Hp).
  destruct (assigned (cell_at b p)) eqn:Ha; [|done]. cbn [andb].
  rewrite (val_at_prunes _ _ _ _ P Hp). apply excluded_ext.
  destruct P as [_ P]. destruct (P p Hp) as (_ & _ & Has). apply Has. by right.
Qed.

Lemma sweep_loop_cells b cells :
  wf_board b = true -> Forall inr cells ->
  exists b', sweep_loop b cells = Ret b' /\ wf_board b' = true /\
    prunes scan b b' /\
    forall q, inr q ->
      domain (cell_at b' q) =
        imap (fun k x =>
                if negb (assigned (cell_at b q)) && excluded_by b cells q k
                then 0 else x)
             (domain (cell_at b q)).
Proof.
  intros Hwf Hin. revert b Hwf.
  induction cells as [|p rest IH]; intros b Hwf;
    pose proof (wf_board_shape b Hwf) as Hs.
  - exists b. split; [done|]. split; [done|]. split; [by apply prunes_refl|].
    intros q Hq. apply imap_lookup_eq; [done|]. intros k x Ek.
    by rewrite andb_false_r.
  - apply Forall_cons in Hin as [Hp Hin]. destruct p as [i j].
    cbn [sweep_loop]. rewrite cell_Ret by done. rsimpl.
    destruct (assigned (cell_at b (i, j))) eqn:Ha; cbn [negb].
    + assert (Hnu : ~ unassigned_at b (i, j)).
      { unfold unassigned_at. by rewrite Ha. }
      destruct (wf_val_at b (i, j) Hwf Hp Hnu) as (Hv9 & _ & Hv).
      destruct (update_neighbors_cells b (i, j) _ Hwf Hp Hv Hv9) as (b1 & E1 & W1 & C1).
      destruct (update_neighbors_spec b (i, j) _ Hwf Hp Hv Hv9) as (b1' & E1' & P1 & _).
      assert (b1' = b1) as -> by congruence.
      cbn [fst snd] in E1. rewrite E1. rsimpl.
      destruct (IH Hin b1 W1) as (b' & E & W & P & C).
      exists b'. split; [done|]. split; [done|].
      assert (P1s : prunes scan b b1).
      { eapply prunes_mono; [|done]. intros q Hq. apply inr_cases.
        pose proof (peers_inr (i, j) Hp) as Hpi. rewrite Forall_forall in Hpi.
        by apply Hpi. }
      split; [by eapply prunes_trans|].
      intros q Hq. apply imap_lookup_eq.
      { destruct P as [_ P]. destruct (P q Hq) as (_ & [-> _] & _).
        destruct P1s as [_ P1s]. by destruct (P1s q Hq) as (_ & [-> _] & _). }
      intros k x Ek. rewrite (C q Hq), list_lookup_imap.
      rewrite (C1 q Hq) at 1. cbn [domain with_domain].
      rewrite (swept_domain_lookup b (i, j) _ q k x Ek).
      cbn [fmap option_fmap option_map]. f_equal.
      rewrite (prunes_assigned _ _ _ _ P1s Hq).
      rewrite (excluded_by_prunes _ _ _ _ q k P1s Hin).
      unfold excluded_by at 2. cbn [existsb]. fold (excluded_by b rest q k).
      rewrite Ha. cbn [andb].
      destruct (assigned (cell_at b q)), (excluded b (i, j) _ q k),
        (excluded_by b rest q k); done.
    + destruct (IH Hin b Hwf) as (b' & E & W & P & C).
      exists b'. split; [done|]. split; [done|]. split; [done|].
      intros q Hq. rewrite (C q Hq). apply imap_ext. intros k x _.
      unfold excluded_by at 2. cbn [existsb]. fold (excluded_by b rest q k).
      by rewrite Ha.
Qed.

(** ** Completeness of the search *)

(** Every digit between 1 and 9 that a dot allows next to [v] is among the
    values [dot_remains] returns. *)
Lemma dot_holds_remains dot v x remain :
  dot ∈ dot_types -> dot <> "0"%string -> 1 <= v <= 9 -> 1 <= x <= 9 ->
  dot_holds dot v x -> dot_remains dot v = Ret remain ->
  py_in x remain = true.
Proof.
  intros Hd Hne Hv Hx [H1 H2] Hrem. unfold dot_types in Hd.
  apply elem_of_cons in Hd as [->|Hd]; [done|].
  apply elem_of_cons in Hd as [->|Hd].
  - specialize (H1 eq_refl). clear H2. unfold dot_remains in Hrem.
    cbn [String.eqb Ascii.eqb Bool.eqb] in Hrem.
    apply py_in_spec.
    destruct (Z.eqb_spec v 1); [injection Hrem as <-|].
    { apply list_elem_of_singleton. lia. }
    destruct (Z.eqb_spec v 9); injection Hrem as <-.
    { apply list_elem_of_singleton. lia. }
    rewrite !elem_of_cons. lia.
  - apply list_elem_of_singleton in Hd as ->.
    specialize (H2 eq_refl). clear H1. unfold dot_remains in Hrem.
    cbn [String.eqb Ascii.eqb Bool.eqb] in Hrem.
    apply py_in_spec.
    pose proof (Z.div_mod v 2 ltac:(lia)) as Hdm.
    pose proof (Z.mod_pos_bound v 2 ltac:(lia)) as Hmb.
    destruct (Z.eqb_spec (v `mod` 2) 0) as [E0|N0];
      destruct (Z.leb_spec v 4); cbn [andb] in Hrem.
    + injection Hrem as <-. rewrite !elem_of_cons. lia.
    + destruct (Z.gtb_spec v 4); [|lia]. cbn [andb] in Hrem.
      injection Hrem as <-. apply list_elem_of_singleton. lia.
    + destruct (Z.eqb_spec (v `mod` 2) 1); [|lia].
      destruct (Z.leb_spec v 3); cbn [andb] in Hrem.
      * injection Hrem as <-. apply list_elem_of_singleton. lia.
      * destruct (Z.gtb_spec v 3); [|lia]. lia.
    + destruct (Z.gtb_spec v 4); [|lia]. cbn [andb] in Hrem.
      destruct (Z.eqb_spec (v `mod` 2) 1); [|lia].
      destruct (Z.leb_spec v 3); [lia|]. cbn [andb] in Hrem.
      destruct (Z.gtb_spec v 3); [|lia]. lia.
Qed.

Lemma assign_cell b p val q :
  shape b -> inr p -> inr q ->
  cell_at (assign b p val) q =
    if decide (p = q) then with_value (cell_at b p) (py_str val) else cell_at b q.
Proof. intros. unfold assign. by apply cell_at_put. Qed.

(** The step of the search on the digit of a solution: forward checking
    reports consistency and the solution still fits the board it leaves. *)
Lemma forward_step_fits sol b p :
  wf_board b = true -> fits sol b -> inr p -> unassigned_at b p ->
  exists b2 original,
    forward_check (assign b p (sol p)) p.1 p.2 = Ret (b2, true, original) /\
    wf_board b2 = true /\ fits sol b2 /\
    (unassigned_count b2 < unassigned_count b)%nat.
Proof.
  intros Hwf (F1 & F2 & F3 & F4 & F5) Hp Hu.
  pose proof (wf_board_shape b Hwf) as Hs. pose proof (F1 p Hp) as Hv.
  destruct (assign_undo b p (sol p) Hwf Hp Hu Hv)
    as (b1 & b2 & ok & _ & W1 & Eb1 & Efc & P & _ & Hfail & _).
  fold (assign b p (sol p)) in Eb1. subst b1.
  set (b1 := assign b p (sol p)) in *.
  assert (Cp : cell_at b1 p = with_value (cell_at b p) (py_str (sol p))).
  { unfold b1. rewrite assign_cell by done. by rewrite decide_True. }
  assert (Cq : forall q, inr q -> q <> p -> cell_at b1 q = cell_at b q).
  { intros q Hq Hne. unfold b1. rewrite assign_cell by done.
    by rewrite decide_False. }
  assert (Hnu1 : ~ unassigned_at b1 p).
  { intros H. apply unassigned_value in H. rewrite Cp in H.
    by apply (py_str_nonzero (sol p) Hv). }
  assert (Hv1 : py_int (value (cell_at b1 p)) = Ret (sol p)).
  { rewrite Cp. apply py_int_str. }
  destruct (forward_check_keeps b1 p (sol p) b2 ok _ W1 Hp Hv1 Hv Efc) as (W2 & _ & K).
  assert (Hdot : forall q d, inr q ->
            dot_of (cell_at b2 q) d = dot_of (cell_at b q) d).
  { intros q d Hq. rewrite (dot_of_prunes _ _ _ _ d P Hq).
    destruct (decide (q = p)) as [->|Hne]; [|by rewrite Cq].
    rewrite Cp. by destruct d. }
  assert (Hun : forall q, inr q -> unassigned_at b2 q -> q <> p /\ unassigned_at b q).
  { intros q Hq Hu2. apply (prunes_unassigned _ _ _ _ P Hq) in Hu2.
    assert (q <> p) by (by intros ->). split; [done|].
    unfold unassigned_at in *. by rewrite <- Cq. }
  assert (G5 : forall q, inr q -> unassigned_at b2 q -> candidate b2 q (sol q)).
  { intros q Hq Hu2. destruct (Hun q Hq Hu2) as [Hne Huq].
    pose proof (F5 q Hq Huq) as Hc. unfold candidate in *.
    rewrite list_lookup_total_alt in *.
    rewrite K; [by rewrite Cq|done|].
    intros Ex. apply excluded_inv in Ex
      as [[Hqp Ek]|(d & remain & -> & Hne0 & Hrem & Hin)].
    - apply (F2 p q Hp Hq); [by apply peers_same_unit|].
      pose proof (F1 q Hq). lia.
    - assert (Ed : dot_of (cell_at b1 p) d = dot_of (cell_at b p) d).
      { rewrite Cp. by destruct d. }
      rewrite Ed in Hne0, Hrem.
      pose proof (F1 _ Hq) as Hx.
      replace (Z.of_nat (Z.to_nat (sol (neighbour p d) - 1)) + 1)
        with (sol (neighbour p d)) in Hin by lia.
      rewrite (dot_holds_remains (dot_of (cell_at b p) d) (sol p)
                 (sol (neighbour p d)) remain) in Hin;
        [done|by apply wf_dot_types|done|done|done|by apply F3|done]. }
  exists b2, (snapshot b1 (peers p)).
  assert (ok = true) as ->.
  { destruct ok; [done|]. destruct (Hfail eq_refl) as (q & Hq & Hu2 & Hz).
    assert (Hqi : inr q).
    { pose proof (peers_inr p Hp) as Hpi. rewrite Forall_forall in Hpi.
      by apply Hpi. }
    exfalso. apply (no_candidate b2 q (sol q) W2 Hqi Hz (F1 q Hqi)).
    by apply G5. }
  split; [done|]. split; [done|]. split.
  - split; [done|]. split; [done|]. split; [|split; [|done]].
    + intros q d Hq Hn. rewrite Hdot by done. by apply F3.
    + intros q Hq Hnu. rewrite (prunes_value _ _ _ _ P Hq).
      destruct (decide (q = p)) as [->|Hne]; [by rewrite Cp|].
      rewrite Cq by done. apply F4; [done|]. intros Huq. apply Hnu.
      apply (prunes_unassigned _ _ _ _ P Hq). unfold unassigned_at in *.
      by rewrite Cq.
  - rewrite (prunes_unassigned_count _ _ _ P).
    by apply assign_unassigned_count.
Qed.

Lemma backtrack_finds sol n b :
  wf_board b = true -> fits sol b -> (unassigned_count b < n)%nat ->
  exists b', backtrack n b = Ret (b', true).
Proof.
  revert b. induction n as [|n IH]; intros b Hwf Hfit Hn; [lia|].
  destruct (complete b) eqn:Hc.
  - rewrite backtrack_complete by done. by eexists.
  - destruct (backtrack_step n b Hwf Hc) as (s & _ & Hsi & Hsu & E). rewrite E.
    destruct (try_values_total (backtrack n) (backtrack_atomic n) b s Hwf Hsi Hsu
                (range 1 10) [] range_1_10)
      as [[[b' r] tried] Er].
    { intros b2 Hwf2 Hlt. apply backtrack_total; [done|lia]. }
    rewrite Er. rsimpl. destruct r; [by eexists|]. exfalso.
    pose proof (try_values_inv _ (backtrack_atomic n) _ _ Hwf Hsi Hsu
                  _ _ _ _ _ range_1_10 Er) as (_ & _ & Hall).
    destruct Hfit as (F1 & F2 & F3 & F4 & F5).
    destruct (Hall (sol s)) as (b2 & ok & original & Efc & Hor).
    { apply list_elem_of_filter. split; [by apply F5|].
      apply elem_of_range. pose proof (F1 s Hsi). lia. }
    destruct (forward_step_fits sol b s Hwf) as (b2' & o' & Efc' & W2 & Fit2 & Hlt);
      [done..|].
    rewrite Efc' in Efc. injection Efc as <- <- <-.
    destruct Hor as [?|Hrec]; [done|].
    destruct (IH b2' W2 Fit2) as (b3 & E3); [lia|]. congruence.
Qed.

Lemma fitsb_spec sol b : fitsb sol b = true -> fits sol b.
Proof.
  intros H. unfold fitsb in H.
  assert (Hp : forall p, inr p ->
            1 <= sol p <= 9 /\
            (forall q, q ∈ peers p -> sol p <> sol q) /\
            (forall d, inr (neighbour p d) ->
               dot_holds (dot_of (cell_at b p) d) (sol p) (sol (neighbour p d))) /\
            (~ unassigned_at b p -> value (cell_at b p) = py_str (sol p)) /\
            (unassigned_at b p -> candidate b p (sol p))).
  { intros p Hp. apply (forall_scan _ H) in Hp as Hb.
    apply andb_prop in Hb as [Hb H4]. apply andb_prop in Hb as [Hb H3].
    apply andb_prop in Hb as [Hb H2]. apply andb_prop in Hb as [H1 H1'].
    split; [lia|]. split; [|split; [|split]].
    - intros q Hq. rewrite forallb_forall in H2.
      specialize (H2 q). rewrite <- list_elem_of_In in H2.
      specialize (H2 Hq). apply negb_true_iff in H2. lia.
    - intros d Hd. rewrite forallb_forall in H3.
      assert (Hin : In d dirs) by (destruct d; unfold dirs; simpl; tauto).
      specialize (H3 d Hin). apply orb_prop in H3 as [H3|H3].
      + apply negb_true_iff in H3. by rewrite bool_decide_eq_true_2 in H3.
      + by apply dot_holdsb_spec.
    - intros Hnu. unfold unassigned_at in Hnu.
      destruct (assigned (cell_at b p)); [|done]. by apply String.eqb_eq.
    - intros Hu. unfold unassigned_at in Hu. rewrite Hu in H4.
      unfold candidate. apply negb_true_iff in H4. lia. }
  split; [intros p Hi; by apply Hp|]. split; [|split; [|split]].
  - intros p q Hi Hq Hsu. apply (Hp p Hi). by apply peers_same_unit.
  - intros p d Hi Hd. by apply (Hp p Hi).
  - intros p Hi. by apply (Hp p Hi).
  - intros p Hi. by apply (Hp p Hi).
Qed.

Lemma fits_val_at sol b p :
  fits sol b -> inr p -> ~ unassigned_at b p -> val_at b p = sol p.
Proof.
  intros (_ & _ & _ & F4 & _) Hp Hnu. unfold val_at.
  rewrite (F4 p Hp Hnu). by rewrite py_int_str.
Qed.

(** The given values of a board that a solution fits do not conflict. *)
Lemma fits_conflict_free sol b : fits sol b -> conflict_free b.
Proof.
  intros Hfit. pose proof Hfit as (F1 & F2 & F3 & F4 & F5). split.
  - intros p q Hp Hq Hsu Hnp Hnq. rewrite (F4 p Hp Hnp), (F4 q Hq Hnq).
    intros E. apply py_str_inj in E. by apply (F2 p q).
  - intros p d Hp Hd Hnp Hnq.
    rewrite (fits_val_at sol b p), (fits_val_at sol b (neighbour p d)) by done.
    by apply F3.
Qed.

Lemma fits_not_excluded sol b p q :
  wf_board b = true -> fits sol b -> inr p -> inr q ->
  excluded b p (sol p) q (Z.to_nat (sol q - 1)) = false.
Proof.
  intros Hwf (F1 & F2 & F3 & F4 & F5) Hp Hq.
  destruct (excluded b p (sol p) q (Z.to_nat (sol q - 1))) eqn:Ex; [|done].
  exfalso. pose proof (F1 p Hp). pose proof (F1 q Hq) as Hx.
  apply excluded_inv in Ex as [[Hqp Ek]|(d & remain & -> & Hne0 & Hrem & Hin)].
  - apply (F2 p q Hp Hq); [by apply peers_same_unit|]. lia.
  - replace (Z.of_nat (Z.to_nat (sol (neighbour p d) - 1)) + 1)
      with (sol (neighbour p d)) in Hin by lia.
    rewrite (dot_holds_remains (dot_of (cell_at b p) d) (sol p)
               (sol (neighbour p d)) remain) in Hin;
      [done|by apply wf_dot_types|done|done|done|by apply F3|done].
Qed.

(** The sweep of the given clues removes no digit of a solution. *)
Lemma initial_sweep_fits sol b :
  wf_board b = true -> fits sol b ->
  exists b', initial_sweep b = Ret b' /\ wf_board b' = true /\ fits sol b' /\
             propagated b'.
Proof.
  intros Hwf Hfit.
  destruct (sweep_loop_cells b scan Hwf scan_all_inr) as (b' & E & W & P & C).
  destruct (initial_sweep_spec b Hwf) as (b'' & E' & _ & _ & Hprop).
  unfold initial_sweep in *. assert (b'' = b') as -> by congruence.
  exists b'. split; [done|]. split; [done|]. split; [|done].
  pose proof Hfit as (F1 & F2 & F3 & F4 & F5).
  split; [done|]. split; [done|]. split; [|split].
  - intros p d Hp Hd. rewrite (dot_of_prunes _ _ _ _ d P Hp). by apply F3.
  - intros p Hp Hnu. rewrite (prunes_value _ _ _ _ P Hp). apply F4; [done|].
    intros Hu. by apply Hnu, (prunes_unassigned _ _ _ _ P Hp).
  - intros p Hp Hu'. apply (prunes_unassigned _ _ _ _ P Hp) in Hu' as Hu.
    pose proof (F5 p Hp Hu) as Hc. unfold candidate in *.
    rewrite list_lookup_total_alt in *. rewrite (C p Hp), list_lookup_imap.
    destruct (domain (cell_at b p) !! Z.to_nat (sol p - 1)) as [x|] eqn:Ek;
      [|done]. cbn [fmap option_fmap option_map default] in *.
    replace (excluded_by b scan p (Z.to_nat (sol p - 1))) with false;
      [by rewrite andb_false_r|].
    symmetry. unfold excluded_by. apply not_true_is_false. intros Hex.
    apply existsb_exists in Hex as (r & Hr & Hex).
    apply list_elem_of_In, scan_inr in Hr.
    apply andb_prop in Hex as [Ha Hex].
    rewrite (fits_val_at sol b r) in Hex;
      [|done..|unfold unassigned_at; by rewrite Ha].
    by rewrite (fits_not_excluded sol b r p) in Hex.
Qed.




(** ** [parse_file] on a well-formed input *)

Lemma range_cons lo hi : lo < hi -> range lo hi = lo :: range (lo + 1) hi.
Proof.
  intros H. unfold range.
  replace (Z.to_nat (hi - lo)) with (S (Z.to_nat (hi - (lo + 1)))) by lia.
  cbn [seq map]. f_equal; [lia|]. rewrite <- seq_shift, map_map.
  apply map_ext. intros k. lia.
Qed.

Lemma range_nil lo hi : hi <= lo -> range lo hi = [].
Proof. intros H. unfold range. by replace (Z.to_nat (hi - lo)) with 0%nat by lia. Qed.

Lemma before_spec p q :
  before p q = true <-> p.1 < q.1 \/ (p.1 = q.1 /\ p.2 < q.2).
Proof.
  unfold before. rewrite orb_true_iff, andb_true_iff.
  rewrite !Z.ltb_lt, Z.eqb_eq. done.
Qed.

Lemma before_eq p q p' q' :
  (p.1 < q.1 \/ (p.1 = q.1 /\ p.2 < q.2) <->
   p'.1 < q'.1 \/ (p'.1 = q'.1 /\ p'.2 < q'.2)) ->
  before p q = before p' q'.
Proof.
  intros H. apply eq_true_iff_eq. by rewrite !before_spec.
Qed.

Lemma tok_at_neg lines p : p.1 < 0 \/ p.2 < 0 -> tok_at lines p = "0"%string.
Proof.
  intros H. unfold tok_at.
  destruct (Z.leb_spec 0 p.1); destruct (Z.leb_spec 0 p.2); try done; lia.
Qed.

Lemma tok_at_lookup lines i j dot :
  0 <= i -> 0 <= j -> tokens lines i !! Z.to_nat j = Some dot ->
  tok_at lines (i, j) = dot.
Proof.
  intros Hi Hj H. unfold tok_at. cbn [fst snd]. rewrite H.
  destruct (Z.leb_spec 0 i); destruct (Z.leb_spec 0 j); try done; lia.
Qed.

Lemma tok_at_beyond lines i j :
  len (tokens lines i) <= j -> tok_at lines (i, j) = "0"%string.
Proof.
  intros H. unfold tok_at. cbn [fst snd].
  rewrite (proj2 (lookup_ge_None _ _)) by (unfold len in H; lia).
  by destruct (_ && _).
Qed.

Section DotsLine.

Variable set : Board -> Z -> Z -> string -> result Board.
Variable i : Z.
Variable line : list string.
Variable F : Z -> Pos -> Var.
Variable bound : Z.

Hypothesis Hlen : len line <= bound.
Hypothesis Hset : forall b j dot,
  shape b -> 0 <= j < bound -> line !! Z.to_nat j = Some dot ->
  dot <> "0"%string -> (forall q, inr q -> cell_at b q = F j q) ->
  exists b', set b i j dot = Ret b' /\ shape b' /\
             forall q, inr q -> cell_at b' q = F (j + 1) q.
Hypothesis Hskip : forall j q,
  0 <= j -> line !! Z.to_nat j = Some "0"%string -> inr q -> F (j + 1) q = F j q.

Lemma dots_line_inv toks j b :
  0 <= j -> toks = drop (Z.to_nat j) line -> shape b ->
  (forall q, inr q -> cell_at b q = F j q) ->
  exists b', dots_line set b i j toks = Ret b' /\ shape b' /\
             forall q, inr q -> cell_at b' q = F (j + len toks) q.
Proof.
  revert j b. induction toks as [|dot rest IH]; intros j b Hj Hd Hs Hb.
  - exists b. split; [done|]. split; [done|]. intros q Hq.
    unfold len. cbn [length]. rewrite Z.add_0_r. by apply Hb.
  - assert (Hl : line !! Z.to_nat j = Some dot).
    { rewrite <- (Nat.add_0_r (Z.to_nat j)), <- lookup_drop, <- Hd. done. }
    assert (Hjb : j < bound).
    { apply lookup_lt_Some in Hl. unfold len in Hlen. lia. }
    assert (Hrest : rest = drop (Z.to_nat (j + 1)) line).
    { replace (Z.to_nat (j + 1)) with (Z.to_nat j + 1)%nat by lia.
      rewrite <- drop_drop, <- Hd. done. }
    assert (Hlen' : j + len (dot :: rest) = j + 1 + len rest).
    { unfold len. cbn [length]. lia. }
    rewrite Hlen'. cbn [dots_line].
    destruct (String.eqb_spec dot "0") as [->|Hne]; cbn [negb].
    + apply IH; [lia|done..|]. intros q Hq. rewrite Hskip by done. by apply Hb.
    + destruct (Hset b j dot Hs ltac:(lia) Hl Hne Hb) as (b1 & -> & S1 & C1).
      rsimpl. apply IH; [lia|done..].
Qed.

End DotsLine.

Section DotsLines.

Variable set : Board -> Z -> Z -> string -> result Board.
Variable lines : list (list string).
Variable G : Z -> Pos -> Var.
Variable hi : Z.

Hypothesis Hrow : forall i b,
  0 <= i < hi -> shape b -> (forall q, inr q -> cell_at b q = G i q) ->
  exists b', dots_line set b i 0 (tokens lines i) = Ret b' /\ shape b' /\
             forall q, inr q -> cell_at b' q = G (i + 1) q.

Lemma dots_lines_inv (n : nat) i b :
  i + Z.of_nat n = hi -> 0 <= i -> shape b ->
  (forall q, inr q -> cell_at b q = G i q) ->
  exists b', dots_lines set b lines (range i hi) = Ret b' /\ shape b' /\
             forall q, inr q -> cell_at b' q = G hi q.
Proof.
  revert i b. induction n as [|n IH]; intros i b Hn Hi Hs Hb.
  - rewrite range_nil by lia. exists b. split; [done|]. split; [done|].
    by replace hi with i by lia.
  - rewrite range_cons by lia. cbn [dots_lines].
    destruct (Hrow i b ltac:(lia) Hs Hb) as (b1 & -> & S1 & C1). rsimpl.
    apply IH; [lia|lia|done..].
Qed.

End DotsLines.

Lemma set_dots_h_cells b i j dot :
  shape b -> 0 <= i < 9 -> 0 <= j < 8 ->
  exists b', set_dots_h b i j dot = Ret b' /\ shape b' /\
    forall q, inr q ->
      cell_at b' q =
        mkVar (value (cell_at b q)) (domain (cell_at b q))
              (up (cell_at b q)) (down (cell_at b q))
              (if decide (q = (i, j + 1)) then dot else left (cell_at b q))
              (if decide (q = (i, j)) then dot else right (cell_at b q)).
Proof.
  intros Hs Hi Hj.
  assert (H1 : inr (i, j)) by (unfold inr; cbn [fst snd]; lia).
  assert (H2 : inr (i, j + 1)) by (unfold inr; cbn [fst snd]; lia).
  unfold set_dots_h. rewrite cell_Ret by done. rsimpl.
  rewrite set_cell_Ret by done. rsimpl.
  set (b1 := put b (i, j) _).
  assert (S1 : shape b1) by (by apply shape_put).
  rewrite cell_Ret by done. rsimpl. rewrite set_cell_Ret by done.
  eexists. split; [done|]. split; [by apply shape_put|].
  intros q Hq. rewrite cell_at_put by done.
  assert (Hne : (i, j) <> (i, j + 1)) by (intros [=]; lia).
  destruct (decide ((i, j + 1) = q)) as [<-|N2].
  - unfold b1. rewrite cell_at_put_ne by done.
    rewrite decide_True by done. rewrite decide_False by done. done.
  - rewrite (decide_False (P := q = (i, j + 1))) by done.
    unfold b1. rewrite cell_at_put by done.
    destruct (decide ((i, j) = q)) as [<-|N1].
    + by rewrite decide_True.
    + rewrite decide_False by done. by destruct (cell_at b q).
Qed.

Lemma set_dots_v_cells b i j dot :
  shape b -> 0 <= i < 8 -> 0 <= j < 9 ->
  exists b', set_dots_v b i j dot = Ret b' /\ shape b' /\
    forall q, inr q ->
      cell_at b' q =
        mkVar (value (cell_at b q)) (domain (cell_at b q))
              (if decide (q = (i + 1, j)) then dot else up (cell_at b q))
              (if decide (q = (i, j)) then dot else down (cell_at b q))
              (left (cell_at b q)) (right (cell_at b q)).
Proof.
  intros Hs Hi Hj.
  assert (H1 : inr (i, j)) by (unfold inr; cbn [fst snd]; lia).
  assert (H2 : inr (i + 1, j)) by (unfold inr; cbn [fst snd]; lia).
  unfold set_dots_v. rewrite cell_Ret by done. rsimpl.
  rewrite set_cell_Ret by done. rsimpl.
  set (b1 := put b (i, j) _).
  assert (S1 : shape b1) by (by apply shape_put).
  rewrite cell_Ret by done. rsimpl. rewrite set_cell_Ret by done.
  eexists. split; [done|]. split; [by apply shape_put|].
  intros q Hq. rewrite cell_at_put by done.
  assert (Hne : (i, j) <> (i + 1, j)) by (intros [=]; lia).
  destruct (decide ((i + 1, j) = q)) as [<-|N2].
  - unfold b1. rewrite cell_at_put_ne by done.
    rewrite decide_True by done. rewrite decide_False by done. done.
  - rewrite (decide_False (P := q = (i + 1, j))) by done.
    unfold b1. rewrite cell_at_put by done.
    destruct (decide ((i, j) = q)) as [<-|N1].
    + by rewrite decide_True.
    + rewrite decide_False by done. by destruct (cell_at b q).
Qed.

Lemma if_before_eq p q q' (X : string) :
  before p q = before p q' \/ X = "0"%string ->
  (if before p q then X else "0"%string) = (if before p q' then X else "0"%string).
Proof. intros [->| ->]; [done|]. by destruct (before p q), (before p q'). Qed.

Lemma if_before_zero p q (X : string) :
  before p q = false \/ X = "0"%string ->
  (if before p q then X else "0"%string) = "0"%string.
Proof. intros [->| ->]; [done|]. by destruct (before p q). Qed.

Lemma pos_ne (a c i j : Z) : (a, c) <> (i, j) -> a <> i \/ c <> j.
Proof.
  intros H. destruct (decide (a = i)) as [->|]; [|by left].
  right. intros ->. by apply H.
Qed.

Lemma parsed_h_step vals hdots vdots vpos i j dot q :
  0 <= i -> 0 <= j -> tokens hdots i !! Z.to_nat j = Some dot ->
  let c := parsed_cell vals hdots vdots (i, j) vpos q in
  mkVar (value c) (domain c) (up c) (down c)
        (if decide (q = (i, j + 1)) then dot else left c)
        (if decide (q = (i, j)) then dot else right c)
  = parsed_cell vals hdots vdots (i, j + 1) vpos q.
Proof.
  intros Hi Hj Hl. destruct q as [a c]. unfold parsed_cell.
  cbn [value domain up down left right fst snd]. f_equal.
  - destruct (decide ((a, c) = (i, j + 1))) as [[= -> ->]|N].
    + replace (j + 1 - 1) with j by lia.
      rewrite (tok_at_lookup hdots i j dot) by done.
      replace (before (i, j) (i, j + 1)) with true; [done|].
      symmetry. apply before_spec. cbn [fst snd]. lia.
    + apply pos_ne in N. apply if_before_eq. left.
      apply before_eq. cbn [fst snd]. lia.
  - destruct (decide ((a, c) = (i, j))) as [[= -> ->]|N].
    + rewrite (tok_at_lookup hdots i j dot) by done.
      replace (before (i, j) (i, j + 1)) with true; [done|].
      symmetry. apply before_spec. cbn [fst snd]. lia.
    + apply pos_ne in N. apply if_before_eq. left.
      apply before_eq. cbn [fst snd]. lia.
Qed.

Lemma parsed_h_skip vals hdots vdots vpos i j q :
  0 <= i -> 0 <= j -> tokens hdots i !! Z.to_nat j = Some "0"%string ->
  parsed_cell vals hdots vdots (i, j + 1) vpos q
  = parsed_cell vals hdots vdots (i, j) vpos q.
Proof.
  intros Hi Hj Hl. destruct q as [a c]. unfold parsed_cell. cbn [fst snd].
  f_equal; apply if_before_eq.
  - destruct (decide ((a, c - 1) = (i, j))) as [[= -> E]|N].
    + right. rewrite E. by apply tok_at_lookup.
    + left. apply pos_ne in N. apply before_eq. cbn [fst snd]. lia.
  - destruct (decide ((a, c) = (i, j))) as [[= -> ->]|N].
    + right. by apply tok_at_lookup.
    + left. apply pos_ne in N. apply before_eq. cbn [fst snd]. lia.
Qed.

Lemma parsed_h_row_end vals hdots vdots vpos i q :
  inr q ->
  parsed_cell vals hdots vdots (i, 0 + len (tokens hdots i)) vpos q
  = parsed_cell vals hdots vdots (i + 1, 0) vpos q.
Proof.
  intros [Ha Hc]. destruct q as [a c]. cbn [fst snd] in *.
  unfold parsed_cell. cbn [fst snd]. f_equal; apply if_before_eq.
  - destruct (decide (c = 0)) as [->|N0].
    { right. apply tok_at_neg. cbn [fst snd]. lia. }
    destruct (decide (a = i /\ len (tokens hdots i) <= c - 1)) as [[-> E]|N].
    + right. by apply tok_at_beyond.
    + left. apply before_eq. cbn [fst snd]. unfold len in *. lia.
  - destruct (decide (a = i /\ len (tokens hdots i) <= c)) as [[-> E]|N].
    + right. by apply tok_at_beyond.
    + left. apply before_eq. cbn [fst snd]. unfold len in *. lia.
Qed.

Lemma parsed_v_step vals hdots vdots hpos i j dot q :
  0 <= i -> 0 <= j -> tokens vdots i !! Z.to_nat j = Some dot ->
  let c := parsed_cell vals hdots vdots hpos (i, j) q in
  mkVar (value c) (domain c)
        (if decide (q = (i + 1, j)) then dot else up c)
        (if decide (q = (i, j)) then dot else down c)
        (left c) (right c)
  = parsed_cell vals hdots vdots hpos (i, j + 1) q.
Proof.
  intros Hi Hj Hl. destruct q as [a c]. unfold parsed_cell.
  cbn [value domain up down left right fst snd]. f_equal.
  - destruct (decide ((a, c) = (i + 1, j))) as [[= -> ->]|N].
    + replace (i + 1 - 1) with i by lia.
      rewrite (tok_at_lookup vdots i j dot) by done.
      replace (before (i, j) (i, j + 1)) with true; [done|].
      symmetry. apply before_spec. cbn [fst snd]. lia.
    + apply pos_ne in N. apply if_before_eq. left.
      apply before_eq. cbn [fst snd]. lia.
  - destruct (decide ((a, c) = (i, j))) as [[= -> ->]|N].
    + rewrite (tok_at_lookup vdots i j dot) by done.
      replace (before (i, j) (i, j + 1)) with true; [done|].
      symmetry. apply before_spec. cbn [fst snd]. lia.
    + apply pos_ne in N. apply if_before_eq. left.
      apply before_eq. cbn [fst snd]. lia.
Qed.

Lemma parsed_v_skip vals hdots vdots hpos i j q :
  0 <= i -> 0 <= j -> tokens vdots i !! Z.to_nat j = Some "0"%string ->
  parsed_cell vals hdots vdots hpos (i, j + 1) q
  = parsed_cell vals hdots vdots hpos (i, j) q.
Proof.
  intros Hi Hj Hl. destruct q as [a c]. unfold parsed_cell. cbn [fst snd].
  f_equal; apply if_before_eq.
  - destruct (decide ((a - 1, c) = (i, j))) as [[= E ->]|N].
    + right. rewrite E. by apply tok_at_lookup.
    + left. apply pos_ne in N. apply before_eq. cbn [fst snd]. lia.
  - destruct (decide ((a, c) = (i, j))) as [[= -> ->]|N].
    + right. by apply tok_at_lookup.
    + left. apply pos_ne in N. apply before_eq. cbn [fst snd]. lia.
Qed.

Lemma parsed_v_row_end vals hdots vdots hpos i q :
  inr q ->
  parsed_cell vals hdots vdots hpos (i, 0 + len (tokens vdots i)) q
  = parsed_cell vals hdots vdots hpos (i + 1, 0) q.
Proof.
  intros [Ha Hc]. destruct q as [a c]. cbn [fst snd] in *.
  unfold parsed_cell. cbn [fst snd]. f_equal; apply if_before_eq.
  - destruct (decide (a - 1 = i /\ len (tokens vdots i) <= c)) as [[E E']|N].
    + right. rewrite E. by apply tok_at_beyond.
    + left. apply before_eq. cbn [fst snd]. lia.
  - destruct (decide (a = i /\ len (tokens vdots i) <= c)) as [[-> E]|N].
    + right. by apply tok_at_beyond.
    + left. apply before_eq. cbn [fst snd]. unfold len in *. lia.
Qed.

Lemma wf_input_inv vals hdots vdots :
  wf_input vals hdots vdots = true ->
  (forall i, 0 <= i < 9 ->
     length (tokens vals i) = 9%nat /\
     Forall (fun s => s ∈ digits) (tokens vals i) /\
     len (tokens hdots i) <= 8 /\
     Forall (fun s => s ∈ dot_types) (tokens hdots i)) /\
  (forall i, 0 <= i < 8 ->
     len (tokens vdots i) <= 9 /\
     Forall (fun s => s ∈ dot_types) (tokens vdots i)).
Proof.
  unfold wf_input. intros H. apply andb_prop in H as [H1 H2].
  rewrite forallb_forall in H1. rewrite forallb_forall in H2. split.
  - intros i Hi. specialize (H1 i). rewrite <- list_elem_of_In in H1.
    specialize (H1 (proj2 (elem_of_range 0 9 i) Hi)).
    apply andb_prop in H1 as [H1 Hd]. apply andb_prop in H1 as [H1 Hc].
    apply andb_prop in H1 as [Ha Hb].
    apply bool_decide_eq_true in Ha, Hc.
    split; [done|]. split; [|split; [unfold len; lia|]].
    + apply Forall_forall. intros s Hs. rewrite forallb_forall in Hb.
      apply list_elem_of_In, Hb in Hs. by apply bool_decide_eq_true in Hs.
    + apply Forall_forall. intros s Hs. rewrite forallb_forall in Hd.
      apply list_elem_of_In, Hd in Hs. by apply bool_decide_eq_true in Hs.
  - intros i Hi. specialize (H2 i). rewrite <- list_elem_of_In in H2.
    specialize (H2 (proj2 (elem_of_range 0 8 i) Hi)).
    apply andb_prop in H2 as [Ha Hb]. apply bool_decide_eq_true in Ha.
    split; [unfold len; lia|].
    apply Forall_forall. intros s Hs. rewrite forallb_forall in Hb.
    apply list_elem_of_In, Hb in Hs. by apply bool_decide_eq_true in Hs.
Qed.

Lemma map_lookup_total {A B} `{Inhabited A, Inhabited B} (f : A -> B) l n :
  (n < length l)%nat -> map f l !!! n = f (l !!! n).
Proof.
  revert n. induction l as [|x l IH]; intros n Hn; [simpl in Hn; lia|].
  destruct n as [|n]; [done|]. simpl in Hn.
  change (map f l !!! n = f (l !!! n)). apply IH. lia.
Qed.

Lemma range_lookup_total lo hi n :
  (n < Z.to_nat (hi - lo))%nat -> range lo hi !!! n = lo + Z.of_nat n.
Proof.
  intros Hn. unfold range. rewrite map_lookup_total by (by rewrite length_seq).
  f_equal. by rewrite lookup_total_seq_lt.
Qed.

(** The board [parse_file] builds from the values alone. *)
Lemma blank_board_cells vals hdots vdots :
  (forall i, 0 <= i < 9 -> length (tokens vals i) = 9%nat) ->
  let board :=
    map (fun i => map (fun val => mkVar val DOMAIN "0" "0" "0" "0") (tokens vals i))
        (range 0 NUM_ROWS) in
  shape board /\
  forall q, inr q -> cell_at board q = parsed_cell vals hdots vdots (0, 0) (0, 0) q.
Proof.
  intros Hlen board. split.
  - split.
    + unfold board. rewrite length_map. unfold range. by rewrite length_map, length_seq.
    + apply Forall_forall. intros row Hrow. unfold board in Hrow.
      apply list_elem_of_In, in_map_iff in Hrow as (i & <- & Hi).
      apply list_elem_of_In, elem_of_range in Hi. rewrite length_map.
      apply Hlen. unfold NUM_ROWS in Hi. lia.
  - intros [a c] [Ha Hc]. cbn [fst snd] in *. unfold cell_at, board. cbn [fst snd].
    assert (Hra : (Z.to_nat a < Z.to_nat (NUM_ROWS - 0))%nat)
      by (unfold NUM_ROWS; lia).
    rewrite map_lookup_total by (unfold range; by rewrite length_map, length_seq).
    rewrite range_lookup_total by done.
    replace (0 + Z.of_nat (Z.to_nat a)) with a by lia.
    rewrite map_lookup_total by (rewrite Hlen by done; lia).
    unfold parsed_cell. cbn [fst snd]. f_equal.
    + unfold tok_at. cbn [fst snd]. rewrite list_lookup_total_alt.
      destruct (Z.leb_spec 0 a); [|lia]. destruct (Z.leb_spec 0 c); [|lia].
      cbn [andb].
      destruct (tokens vals a !! Z.to_nat c) as [x|] eqn:Ex; [done|].
      apply lookup_ge_None in Ex. rewrite Hlen in Ex by done. lia.
    + symmetry. apply if_before_zero.
      destruct (decide (a = 0)) as [->|N].
      * right. apply tok_at_neg. cbn [fst snd]. lia.
      * left. apply not_true_is_false. rewrite before_spec. cbn [fst snd]. lia.
    + symmetry. apply if_before_zero. left.
      apply not_true_is_false. rewrite before_spec. cbn [fst snd]. lia.
    + symmetry. apply if_before_zero.
      destruct (decide (c = 0)) as [->|N].
      * right. apply tok_at_neg. cbn [fst snd]. lia.
      * left. apply not_true_is_false. rewrite before_spec. cbn [fst snd]. lia.
    + symmetry. apply if_before_zero. left.
      apply not_true_is_false. rewrite before_spec. cbn [fst snd]. lia.
Qed.

Lemma read_board_cells vals hdots vdots :
  wf_input vals hdots vdots = true ->
  exists b, read_board vals hdots vdots = Ret b /\ shape b /\
    forall q, inr q -> cell_at b q = parsed_cell vals hdots vdots (9, 0) (8, 0) q.
Proof.
  intros Hin. apply wf_input_inv in Hin as [H9 H8].
  destruct (blank_board_cells vals hdots vdots) as [S0 C0].
  { intros i Hi. by apply H9. }
  unfold read_board. unfold NUM_ROWS in *. change (9 - 1) with 8.
  set (board := map _ (range 0 9)) in *.
  destruct (dots_lines_inv set_dots_h hdots
              (fun i => parsed_cell vals hdots vdots (i, 0) (0, 0)) 9) with
    (n := 9%nat) (i := 0) (b := board) as (b1 & E1 & S1 & C1); [|lia|lia|done..|].
  { intros i b Hi Hs Hb.
    destruct (dots_line_inv set_dots_h i (tokens hdots i)
                (fun j => parsed_cell vals hdots vdots (i, j) (0, 0)) 8) with
      (toks := tokens hdots i) (j := 0) (b := b) as (b' & E & S' & C');
      [by apply H9| | |lia|done..|].
    - intros b2 j dot Hs2 Hj Hl Hne Hb2.
      destruct (set_dots_h_cells b2 i j dot Hs2 Hi Hj) as (b3 & E3 & S3 & C3).
      exists b3. split; [done|]. split; [done|]. intros q Hq.
      rewrite (C3 q Hq), (Hb2 q Hq).
      apply (parsed_h_step vals hdots vdots (0, 0) i j dot q); [lia|lia|done].
    - intros j q Hj Hl Hq. apply parsed_h_skip; [lia|done..].
    - exists b'. split; [done|]. split; [done|]. intros q Hq.
      rewrite (C' q Hq). by apply parsed_h_row_end. }
  rewrite E1. rsimpl.
  apply (dots_lines_inv set_dots_v vdots
           (fun i => parsed_cell vals hdots vdots (9, 0) (i, 0)) 8) with
    (n := 8%nat); [|lia|lia|done..].
  intros i b Hi Hs Hb.
  destruct (dots_line_inv set_dots_v i (tokens vdots i)
              (fun j => parsed_cell vals hdots vdots (9, 0) (i, j)) 9) with
    (toks := tokens vdots i) (j := 0) (b := b) as (b' & E & S' & C');
    [by apply H8| | |lia|done..|].
  - intros b2 j dot Hs2 Hj Hl Hne Hb2.
    destruct (set_dots_v_cells b2 i j dot Hs2 Hi Hj) as (b3 & E3 & S3 & C3).
    exists b3. split; [done|]. split; [done|]. intros q Hq.
    rewrite (C3 q Hq), (Hb2 q Hq).
    apply (parsed_v_step vals hdots vdots (9, 0) i j dot q); [lia|lia|done].
  - intros j q Hj Hl Hq. apply parsed_v_skip; [lia|done..].
  - exists b'. split; [done|]. split; [done|]. intros q Hq.
    rewrite (C' q Hq). by apply parsed_v_row_end.
Qed.

Lemma parsed_cell_final vals hdots vdots q :
  inr q -> parsed_cell vals hdots vdots (9, 0) (8, 0) q = given_cell vals hdots vdots q.
Proof.
  intros [Ha Hc]. destruct q as [a c]. cbn [fst snd] in *.
  unfold parsed_cell, given_cell. cbn [fst snd]. f_equal.
  - replace (before (a - 1, c) (8, 0)) with true; [done|].
    symmetry. apply before_spec. cbn [fst snd]. lia.
  - destruct (Z.ltb_spec a 8).
    + replace (before (a, c) (8, 0)) with true; [done|].
      symmetry. apply before_spec. cbn [fst snd]. lia.
    + replace (before (a, c) (8, 0)) with false; [done|].
      symmetry. apply not_true_is_false. rewrite before_spec. cbn [fst snd]. lia.
  - replace (before (a, c - 1) (9, 0)) with true; [done|].
    symmetry. apply before_spec. cbn [fst snd]. lia.
  - replace (before (a, c) (9, 0)) with true; [done|].
    symmetry. apply before_spec. cbn [fst snd]. lia.
Qed.

Lemma tok_at_Forall (P : string -> Prop) lines p :
  P "0"%string -> (0 <= p.1 -> Forall P (tokens lines p.1)) -> P (tok_at lines p).
Proof.
  intros H0 Hall. unfold tok_at.
  destruct (Z.leb_spec 0 p.1); [|done]. destruct (Z.leb_spec 0 p.2); [|done].
  cbn [andb]. destruct (tokens lines p.1 !! Z.to_nat p.2) as [x|] eqn:Ex; [|done].
  cbn [default]. specialize (Hall ltac:(done)). rewrite Forall_forall in Hall.
  apply Hall. by eapply list_elem_of_lookup_2.
Qed.

Lemma zero_digit : "0"%string ∈ digits.
Proof. unfold digits. apply elem_of_cons. by left. Qed.

Lemma zero_dot_type : "0"%string ∈ dot_types.
Proof. unfold dot_types. apply elem_of_cons. by left. Qed.

Lemma given_board_wf vals hdots vdots b :
  wf_input vals hdots vdots = true -> shape b ->
  (forall q, inr q -> cell_at b q = given_cell vals hdots vdots q) ->
  wf_board b = true.
Proof.
  intros Hin Hs Hb. apply wf_input_inv in Hin as [H9 H8].
  assert (Hh : forall a c, 0 <= a < 9 -> tok_at hdots (a, c) ∈ dot_types).
  { intros a c Ha. apply (tok_at_Forall (fun s => s ∈ dot_types));
      [apply zero_dot_type|]. intros _. by apply H9. }
  assert (Hv : forall a c, a < 8 -> tok_at vdots (a, c) ∈ dot_types).
  { intros a c Ha. apply (tok_at_Forall (fun s => s ∈ dot_types));
      [apply zero_dot_type|]. cbn [fst]. intros H0. apply H8. lia. }
  apply wf_board_intro; [done|]. intros [a c] Hq. pose proof Hq as [Ha Hc].
  cbn [fst snd] in Ha, Hc. split.
  - rewrite (Hb _ Hq). unfold given_cell. cbn [fst snd].
    apply wf_cell_intro; cbn [value domain up down left right].
    + apply (tok_at_Forall (fun s => s ∈ digits)); [apply zero_digit|].
      intros _. by apply H9.
    + done.
    + intros k x Hk. right. unfold DOMAIN in Hk.
      do 9 (destruct k as [|k]; [by injection Hk as <-|]). done.
    + apply Hv. lia.
    + destruct (Z.ltb_spec a 8); [by apply Hv|apply zero_dot_type].
    + by apply Hh.
    + by apply Hh.
  - unfold wf_edges. cbn [fst snd]. rewrite (Hb _ Hq).
    unfold given_cell at 1 2 3 4. cbn [fst snd up down left right].
    apply andb_true_intro; split; [apply andb_true_intro; split;
      [apply andb_true_intro; split|]|].
    + destruct (Z.eqb_spec a 0) as [->|N]; apply String.eqb_eq.
      * apply tok_at_neg. cbn [fst snd]. lia.
      * rewrite Hb by (unfold inr; cbn [fst snd]; lia).
        unfold given_cell. cbn [fst snd down].
        destruct (Z.ltb_spec (a - 1) 8); [done|lia].
    + destruct (Z.eqb_spec a 8) as [->|N]; apply String.eqb_eq; [done|].
      rewrite Hb by (unfold inr; cbn [fst snd]; lia).
      unfold given_cell. cbn [fst snd up].
      destruct (Z.ltb_spec a 8); [|lia]. by replace (a + 1 - 1) with a by lia.
    + destruct (Z.eqb_spec c 0) as [->|N]; apply String.eqb_eq.
      * apply tok_at_neg. cbn [fst snd]. lia.
      * rewrite Hb by (unfold inr; cbn [fst snd]; lia). done.
    + destruct (Z.eqb_spec c 8) as [->|N]; apply String.eqb_eq.
      * apply tok_at_beyond. by apply H9.
      * rewrite Hb by (unfold inr; cbn [fst snd]; lia).
        unfold given_cell. cbn [fst snd left].
        by replace (c + 1 - 1) with c by lia.
Qed.

Lemma read_board_given vals hdots vdots :
  wf_input vals hdots vdots = true ->
  exists b, read_board vals hdots vdots = Ret b /\ wf_board b = true /\
    forall q, inr q -> cell_at b q = given_cell vals hdots vdots q.
Proof.
  intros Hin. destruct (read_board_cells vals hdots vdots Hin) as (b & E & Hs & C).
  assert (C' : forall q, inr q -> cell_at b q = given_cell vals hdots vdots q).
  { intros q Hq. rewrite (C q Hq). by apply parsed_cell_final. }
  exists b. split; [done|]. split; [|done]. by apply (given_board_wf vals hdots vdots).
Qed.

Lemma parse_file_read vals hdots vdots :
  parse_file vals hdots vdots = read_board vals hdots vdots ≫= initial_sweep.
Proof.
  unfold parse_file, read_board.
  by destruct (dots_lines set_dots_h _ hdots _) as [b| |].
Qed.

(** ** What a returned board holds *)

Lemma candidate_narrowed (d d' : list Z) k :
  narrowed d d' -> d' !!! k <> 0 -> d !!! k <> 0.
Proof.
  intros [Hlen Hn]. rewrite !list_lookup_total_alt.
  destruct (d' !! k) as [x|] eqn:Ex.
  - destruct (Hn k x Ex) as [->|E]; [done|]. by rewrite E.
  - apply lookup_ge_None in Ex.
    rewrite (proj2 (lookup_ge_None d k)) by lia. done.
Qed.

Lemma dots_dot_of c c' d : dots c = dots c' -> dot_of c d = dot_of c' d.
Proof. unfold dots. intros [= ? ? ? ?]. by destruct d. Qed.

(** A board returned by the search extends the board it started from: the
    dots and the assigned values are kept, the domains have only lost
    values, and every value filled in was in the domain the cell had at the
    start. *)
Lemma backtrack_extends n b b' :
  wf_board b = true -> backtrack n b = Ret (b', true) ->
  forall p, inr p ->
    dots (cell_at b' p) = dots (cell_at b p) /\
    narrowed (domain (cell_at b p)) (domain (cell_at b' p)) /\
    (~ unassigned_at b p -> value (cell_at b' p) = value (cell_at b p)) /\
    (unassigned_at b p -> candidate b p (val_at b' p)).
Proof.
  revert b b'. induction n as [|n IH]; intros b b' Hwf E; [done|].
  pose proof (wf_board_shape b Hwf) as Hs.
  destruct (complete b) eqn:Hc.
  - rewrite backtrack_complete in E by done. injection E as <-.
    intros p Hp. split; [done|]. split; [apply narrowed_refl|]. split; [done|].
    intros Hu. by destruct (complete_true b p Hc Hp).
  - destruct (backtrack_step n b Hwf Hc) as (s & _ & Hsi & Hsu & Eq).
    rewrite Eq in E. apply bind_inv in E as ([[b1' r] tried] & Etry & E).
    injection E as -> ->.
    pose proof (try_values_inv _ (backtrack_atomic n) _ _ Hwf Hsi Hsu
                  _ _ _ _ _ range_1_10 Etry)
      as (vals1 & val & vals2 & Hvals & Hcand & _ & (b2 & o & Efc & Erec) & _).
    assert (Hval : 1 <= val <= 9).
    { assert (Hin : val ∈ range 1 10).
      { rewrite Hvals. apply elem_of_app. right. apply elem_of_cons. by left. }
      apply elem_of_range in Hin. lia. }
    destruct (assign_undo b s val Hwf Hsi Hsu Hval)
      as (b1 & b2' & ok & _ & W1 & Eb1 & Efc' & P & _).
    fold (assign b s val) in Eb1. subst b1. rewrite Efc in Efc'.
    injection Efc' as <- <- _.
    assert (W2 : wf_board b2 = true) by (by eapply prunes_wf).
    pose proof (IH b2 b' W2 Erec) as Hext.
    assert (Cs : cell_at (assign b s val) s = with_value (cell_at b s) (py_str val)).
    { rewrite assign_cell by done. by rewrite decide_True. }
    assert (Cq : forall q, inr q -> q <> s -> cell_at (assign b s val) q = cell_at b q).
    { intros q Hq Hne. rewrite assign_cell by done. by rewrite decide_False. }
    assert (Hnus : ~ unassigned_at (assign b s val) s).
    { intros H. apply unassigned_value in H. rewrite Cs in H.
      by apply (py_str_nonzero val Hval). }
    assert (Hdom : forall q, inr q ->
              narrowed (domain (cell_at b q)) (domain (cell_at b2 q))).
    { intros q Hq. destruct P as [_ P]. destruct (P q Hq) as (_ & Hn & _).
      destruct (decide (q = s)) as [->|Hne]; [by rewrite Cs in Hn|].
      by rewrite Cq in Hn. }
    intros p Hp. destruct (Hext p Hp) as (Hd & Hn & Hv & Hcd).
    split; [|split; [|split]].
    + rewrite Hd, (prunes_dots _ _ _ _ P Hp).
      destruct (decide (p = s)) as [->|Hne]; [by rewrite Cs|by rewrite Cq].
    + exact (narrowed_trans _ _ _ (Hdom p Hp) Hn).
    + intros Hnu. assert (Hne : p <> s) by (by intros ->).
      assert (Hnu2 : ~ unassigned_at b2 p).
      { intros Hu2. apply Hnu. apply (prunes_unassigned _ _ _ _ P Hp) in Hu2.
        unfold unassigned_at in *. by rewrite <- Cq. }
      by rewrite (Hv Hnu2), (prunes_value _ _ _ _ P Hp), (Cq p Hp Hne).
    + intros Hu. destruct (decide (p = s)) as [->|Hne].
      * assert (Hnu2 : ~ unassigned_at b2 s).
        { intros H. by apply Hnus, (prunes_unassigned _ _ _ _ P Hsi). }
        unfold val_at. rewrite (Hv Hnu2), (prunes_value _ _ _ _ P Hsi), Cs.
        cbn [value with_value]. by rewrite py_int_str.
      * unfold candidate. apply (candidate_narrowed _ _ _ (Hdom p Hp)).
        apply Hcd. apply (prunes_unassigned _ _ _ _ P Hp).
        unfold unassigned_at in *. by rewrite Cq.
Qed.

Lemma solved_fits b b' :
  solved b' ->
  (forall p, inr p ->
     dots (cell_at b' p) = dots (cell_at b p) /\
     narrowed (domain (cell_at b p)) (domain (cell_at b' p)) /\
     (~ unassigned_at b p -> value (cell_at b' p) = value (cell_at b p)) /\
     (unassigned_at b p -> candidate b p (val_at b' p))) ->
  fits (val_at b') b.
Proof.
  intros (S1 & S2 & S3) Hext.
  assert (Hval : forall p, inr p ->
            1 <= val_at b' p <= 9 /\ value (cell_at b' p) = py_str (val_at b' p)).
  { intros p Hp. destruct (S1 p Hp) as (v & Hv & E). unfold val_at.
    rewrite E, py_int_str. done. }
  split; [intros p Hp; by apply Hval|]. split; [|split; [|split]].
  - intros p q Hp Hq Hsu E. apply (S2 p q Hp Hq Hsu).
    destruct (Hval p Hp) as [_ ->]. destruct (Hval q Hq) as [_ ->]. by rewrite E.
  - intros p d Hp Hd. destruct (Hext p Hp) as (Hdots & _).
    rewrite <- (dots_dot_of _ _ d Hdots). by apply S3.
  - intros p Hp Hnu. destruct (Hext p Hp) as (_ & _ & Hv & _).
    rewrite <- (Hv Hnu). by apply Hval.
  - intros p Hp Hu. by apply (Hext p Hp).
Qed.

Lemma solvesb_spec sol vals hdots vdots :
  solvesb sol vals hdots vdots = true -> solves sol vals hdots vdots.
Proof.
  intros H. unfold solvesb in H.
  assert (Hp : forall p, inr p ->
            1 <= sol p <= 9 /\
            (forall q, q ∈ peers p -> sol p <> sol q) /\
            (inr (neighbour p R) ->
               dot_holds (tok_at hdots p) (sol p) (sol (neighbour p R))) /\
            (inr (neighbour p D) ->
               dot_holds (tok_at vdots p) (sol p) (sol (neighbour p D))) /\
            (tok_at vals p <> "0"%string -> tok_at vals p = py_str (sol p))).
  { intros p Hp. apply (forall_scan _ H) in Hp as Hb.
    apply andb_prop in Hb as [Hb H5]. apply andb_prop in Hb as [Hb H4].
    apply andb_prop in Hb as [Hb H3]. apply andb_prop in Hb as [Hb H2].
    apply andb_prop in Hb as [H1 H1'].
    split; [lia|]. split; [|split; [|split]].
    - intros q Hq. rewrite forallb_forall in H2.
      specialize (H2 q). rewrite <- list_elem_of_In in H2.
      specialize (H2 Hq). apply negb_true_iff in H2. lia.
    - intros Hd. apply orb_prop in H3 as [H3|H3].
      + apply negb_true_iff in H3. by rewrite bool_decide_eq_true_2 in H3.
      + by apply dot_holdsb_spec.
    - intros Hd. apply orb_prop in H4 as [H4|H4].
      + apply negb_true_iff in H4. by rewrite bool_decide_eq_true_2 in H4.
      + by apply dot_holdsb_spec.
    - intros Hne. apply orb_prop in H5 as [H5|H5].
      + by apply String.eqb_eq in H5.
      + by apply String.eqb_eq. }
  split; [intros p Hi; by apply Hp|]. split; [|split; [|split]].
  - intros p q Hi Hq Hsu. apply (Hp p Hi). by apply peers_same_unit.
  - intros p Hi. by apply (Hp p Hi).
  - intros p Hi. by apply (Hp p Hi).
  - intros p Hi. by apply (Hp p Hi).
Qed.

Lemma DOMAIN_full k : (k < 9)%nat -> DOMAIN !!! k <> 0.
Proof. intros Hk. unfold DOMAIN. do 9 (destruct k as [|k]; [done|]). lia. Qed.

(** A solution of the input fits the board read from it. *)
Lemma solves_fits sol vals hdots vdots b :
  (forall q, inr q -> cell_at b q = given_cell vals hdots vdots q) ->
  solves sol vals hdots vdots -> fits sol b.
Proof.
  intros Hb (S1 & S2 & S3 & S4 & S5).
  split; [done|]. split; [done|]. split; [|split].
  - intros p d Hp Hd. rewrite (Hb p Hp). destruct p as [a c].
    pose proof Hp as [Ha Hc]. pose proof Hd as [Ha' Hc'].
    cbn [fst snd] in Ha, Hc. unfold given_cell.
    destruct d; cbn [dot_of up down left right neighbour fst snd] in *.
    + apply dot_holds_sym.
      pose proof (S4 (a - 1, c) Hd) as H. cbn [neighbour fst snd] in H.
      replace (a - 1 + 1) with a in H by lia. by apply H.
    + destruct (Z.ltb_spec a 8); [|lia]. by apply (S4 (a, c)).
    + apply dot_holds_sym.
      pose proof (S3 (a, c - 1) Hd) as H. cbn [neighbour fst snd] in H.
      replace (c - 1 + 1) with c in H by lia. by apply H.
    + by apply (S3 (a, c)).
  - intros p Hp Hnu. rewrite (Hb p Hp). cbn [given_cell value].
    apply S5; [done|]. intros E. apply Hnu. apply unassigned_value.
    by rewrite (Hb p Hp).
  - intros p Hp Hu. unfold candidate. rewrite (Hb p Hp). cbn [given_cell domain].
    apply DOMAIN_full. pose proof (S1 p Hp). lia.
Qed.


Lemma backtrack_wf n b b' :
  wf_board b = true -> backtrack n b = Ret (b', true) -> wf_board b' = true.
Proof.
  revert b b'. induction n as [|n IH]; intros b b' Hwf E; [done|].
  destruct (complete b) eqn:Hc.
  - rewrite backtrack_complete in E by done. by injection E as <-.
  - destruct (backtrack_step n b Hwf Hc) as (s & _ & Hsi & Hsu & Eq).
    rewrite Eq in E. apply bind_inv in E as ([[b1' r] tried] & Etry & E).
    injection E as -> ->.
    pose proof (try_values_inv _ (backtrack_atomic n) _ _ Hwf Hsi Hsu
                  _ _ _ _ _ range_1_10 Etry)
      as (vals1 & val & vals2 & Hvals & Hcand & _ & (b2 & o & Efc & Erec) & _).
    assert (Hval : 1 <= val <= 9).
    { assert (Hin : val ∈ range 1 10).
      { rewrite Hvals. apply elem_of_app. right. apply elem_of_cons. by left. }
      apply elem_of_range in Hin. lia. }
    destruct (assign_undo b s val Hwf Hsi Hsu Hval)
      as (b1 & b2' & ok & _ & W1 & Eb1 & Efc' & P & _).
    fold (assign b s val) in Eb1. subst b1. rewrite Efc in Efc'.
    injection Efc' as <- <- _.
    apply (IH b2); [by eapply prunes_wf|done].
Qed.

(** Searching a returned board again returns it as it is. *)
Lemma backtracking_search_again b b' :
  wf_board b = true -> backtracking_search b = Ret (b', true) ->
  backtracking_search b' = Ret (b', true).
Proof.
  intros Hwf E. unfold backtracking_search in *.
  apply backtrack_complete; [by apply (backtrack_wf 82 b)|].
  by apply (backtrack_returns_complete 82 b).
Qed.

(** ** [select_variable] on a board with no unassigned cell *)

Lemma filter_none {A} (P : A -> Prop) `{!forall x, Decision (P x)} (l : list A) :
  (forall x, x ∈ l -> ~ P x) -> filter P l = [].
Proof.
  intros Hn. destruct (filter P l) as [|x r] eqn:E; [done|].
  assert (Hx : x ∈ filter P l) by (rewrite E; apply elem_of_cons; by left).
  apply list_elem_of_filter in Hx as [HP Hl]. by destruct (Hn x Hl).
Qed.

Lemma select_variable_complete b :
  shape b -> complete b = true -> select_variable b = Ret None.
Proof.
  intros Hs Hc. unfold select_variable.
  destruct (mrv_loop_spec b scan [] None [] Hs scan_all_inr) as (curr & mrv & E & Hm).
  { by split. }
  rewrite E. rsimpl. cbn [app] in Hm.
  destruct curr as [m|].
  - destruct Hm as (Hne & _ & Hmrv). exfalso. apply Hne. rewrite Hmrv.
    apply filter_none. intros p Hp [Hu _]. apply scan_inr in Hp.
    by apply (complete_true b p).
  - destruct Hm as [_ ->]. done.
Qed.

Lemma select_variable_none b :
  shape b -> select_variable b = Ret None <-> complete b = true.
Proof.
  intros Hs. split; [|by apply select_variable_complete].
  intros E. destruct (complete b) eqn:Hc; [done|].
  destruct (select_variable_spec b Hs (complete_false b Hc)) as (s & E' & _).
  congruence.
Qed.

(** ** [box_indexes] *)

Lemma box_indexes_elem i j q :
  q ∈ box_indexes i j <->
  q.1 `div` 3 = i `div` 3 /\ q.2 `div` 3 = j `div` 3.
Proof.
  destruct q as [x y]. unfold box_indexes. cbn [zip zip_with fst snd].
  rewrite !elem_of_cons, elem_of_nil. split.
  - intros H. decompose [or] H; try done;
      match goal with E : (_, _) = (_, _) |- _ => injection E as -> -> end;
      split; Z.div_mod_to_equations; lia.
  - intros [E1 E2].
    assert (Hx : x = i `div` 3 * 3 \/ x = i `div` 3 * 3 + 1 \/ x = i `div` 3 * 3 + 2)
      by (Z.div_mod_to_equations; lia).
    assert (Hy : y = j `div` 3 * 3 \/ y = j `div` 3 * 3 + 1 \/ y = j `div` 3 * 3 + 2)
      by (Z.div_mod_to_equations; lia).
    clear E1 E2. destruct Hx as [->|[->| ->]]; destruct Hy as [->|[->| ->]]; tauto.
Qed.

Lemma box_indexes_NoDup i j : NoDup (box_indexes i j).
Proof.
  unfold box_indexes. cbn [zip zip_with].
  generalize (i `div` 3 * 3) (j `div` 3 * 3). intros a c.
  repeat (apply NoDup_cons; split;
    [rewrite ?elem_of_cons, elem_of_nil; intros H; decompose [or] H; try done;
     match goal with E : (_, _) = (_, _) |- _ => injection E; lia end|]).
  apply NoDup_nil_2.
Qed.

(** ** [dot_remains] and the dot relations *)

Lemma dot_remains_range dot v remain x :
  1 <= v <= 9 -> dot_remains dot v = Ret remain -> py_in x remain = true ->
  1 <= x <= 9.
Proof.
  intros Hv Hrem Hin. apply py_in_spec in Hin. unfold dot_remains in Hrem.
  assert (Hc : v = 1 \/ v = 2 \/ v = 3 \/ v = 4 \/ v = 5 \/ v = 6 \/ v = 7 \/
               v = 8 \/ v = 9) by lia.
  destruct (String.eqb dot "1"); [|destruct (String.eqb dot "2"); [|done]];
    decompose [or] Hc; subst v; vm_compute in Hrem; injection Hrem as <-;
    rewrite ?elem_of_cons, ?elem_of_nil in Hin; lia.
Qed.

Lemma dot_remains_relation dot v :
  dot ∈ dot_types -> dot <> "0"%string -> 1 <= v <= 9 ->
  exists remain, dot_remains dot v = Ret remain /\
    forall x, py_in x remain = true <-> 1 <= x <= 9 /\ dot_holds dot v x.
Proof.
  intros Hd Hne Hv. destruct (dot_remains_Ret dot v Hd Hne) as [remain Hrem].
  exists remain. split; [done|]. intros x. split.
  - intros Hin. split.
    + exact (dot_remains_range dot v remain x Hv Hrem Hin).
    + exact (dot_remains_holds dot v remain x Hrem Hin).
  - intros [Hx Hh]. exact (dot_holds_remains dot v x remain Hd Hne Hv Hx Hh Hrem).
Qed.

Lemma dot_remains_sym dot v x remain remain' :
  dot ∈ dot_types -> dot <> "0"%string -> 1 <= v <= 9 -> 1 <= x <= 9 ->
  dot_remains dot v = Ret remain -> dot_remains dot x = Ret remain' ->
  py_in x remain = py_in v remain'.
Proof.
  intros Hd Hne Hv Hx Hrem Hrem'. apply eq_true_iff_eq. split; intros Hin.
  - apply (dot_holds_remains dot x v remain'); try done.
    apply dot_holds_sym. exact (dot_remains_holds dot v remain x Hrem Hin).
  - apply (dot_holds_remains dot v x remain); try done.
    apply dot_holds_sym. exact (dot_remains_holds dot x remain' v Hrem' Hin).
Qed.

(** ** Counting *)

Lemma peers_length p : inr p -> length (peers p) = 20%nat.
Proof.
  intros Hp.
  assert (H : forallb (fun p => bool_decide (length (peers p) = 20%nat)) scan = true)
    by (by vm_compute).
  pose proof (forall_scan _ H p Hp) as Hb. by apply bool_decide_eq_true in Hb.
Qed.

Lemma unassigned_neighbors_count_range b p :
  shape b -> inr p ->
  exists n, unassigned_neighbors_count b p.1 p.2 = Ret n /\
    n = unit_degree b p /\ 0 <= n <= 20.
Proof.
  intros Hs Hp. exists (degree b p).
  split; [by apply unassigned_neighbors_count_spec|].
  split; [by apply degree_unit_degree|]. unfold degree.
  pose proof (length_filter (unassigned_at b) (peers p)) as Hle.
  rewrite peers_length in Hle by done. lia.
Qed.

Lemma count_ones (d : list Z) :
  length d = 9%nat -> (forall k x, d !! k = Some x -> x = 0 \/ x = 1) ->
  sum d = Z.of_nat (length (filter (fun val => d !!! Z.to_nat (val - 1) <> 0)
                              (range 1 10))).
Proof.
  intros Hlen H01.
  destruct d as [|e1 [|e2 [|e3 [|e4 [|e5 [|e6 [|e7 [|e8 [|e9 [|]]]]]]]]]];
    try done.
  pose proof (H01 0%nat e1 eq_refl). pose proof (H01 1%nat e2 eq_refl).
  pose proof (H01 2%nat e3 eq_refl). pose proof (H01 3%nat e4 eq_refl).
  pose proof (H01 4%nat e5 eq_refl). pose proof (H01 5%nat e6 eq_refl).
  pose proof (H01 6%nat e7 eq_refl). pose proof (H01 7%nat e8 eq_refl).
  pose proof (H01 8%nat e9 eq_refl). clear H01 Hlen.
  repeat match goal with H : _ = 0 \/ _ = 1 |- _ => destruct H as [->| ->] end;
    by vm_compute.
Qed.

Lemma count_candidates b p :
  wf_board b = true -> inr p ->
  remaining_value_count (cell_at b p)
  = Z.of_nat (length (filter (candidate b p) (range 1 10))).
Proof.
  intros Hwf Hp. destruct (wf_board_at b p Hwf Hp) as [Hc _].
  apply wf_cell_inv in Hc as (_ & Hlen & H01 & _).
  unfold remaining_value_count. by rewrite (count_ones _ Hlen H01).
Qed.

(** ** Two sweeps commute *)

Lemma swept_step_lookup b b1 p v q k y :
  cell_at b1 p = cell_at b p ->
  assigned (cell_at b1 q) = assigned (cell_at b q) ->
  domain (cell_at b1 q) !! k = Some y ->
  swept_domain b1 p v q !! k =
    Some (if negb (assigned (cell_at b q)) && excluded b p v q k then 0 else y).
Proof.
  intros Cp Ha Ek. rewrite (swept_domain_lookup b1 p v q k y Ek).
  by rewrite Ha, (excluded_ext b b1 p v q k Cp).
Qed.

Lemma update_neighbors_keeps_clue b p v b1 r :
  wf_board b = true -> inr p ->
  py_int (value (cell_at b p)) = Ret v -> 1 <= v <= 9 ->
  update_neighbors b p.1 p.2 = Ret b1 ->
  inr r -> assigned (cell_at b r) = true -> cell_at b1 r = cell_at b r.
Proof.
  intros Hwf Hp Hv Hv9 E Hr Ha.
  destruct (update_neighbors_spec b p v Hwf Hp Hv Hv9) as (b1' & E' & [_ P] & _).
  assert (b1' = b1) as -> by congruence.
  destruct (P r Hr) as (_ & _ & Has). apply Has. by right.
Qed.

Lemma py_int_assigned c v :
  py_int (value c) = Ret v -> 1 <= v <= 9 -> assigned c = true.
Proof.
  intros Hv Hv9. unfold assigned.
  destruct (String.eqb_spec (value c) "0") as [E|]; [|done].
  rewrite E in Hv. vm_compute in Hv. injection Hv as <-. lia.
Qed.

Lemma update_neighbors_comm b p1 p2 v1 v2 :
  wf_board b = true -> inr p1 -> inr p2 ->
  py_int (value (cell_at b p1)) = Ret v1 -> 1 <= v1 <= 9 ->
  py_int (value (cell_at b p2)) = Ret v2 -> 1 <= v2 <= 9 ->
  exists b1 b2 b',
    update_neighbors b p1.1 p1.2 = Ret b1 /\
    update_neighbors b p2.1 p2.2 = Ret b2 /\
    update_neighbors b1 p2.1 p2.2 = Ret b' /\
    update_neighbors b2 p1.1 p1.2 = Ret b'.
Proof.
  intros Hwf Hp1 Hp2 Hv1 H19 Hv2 H29.
  destruct (update_neighbors_cells b p1 v1 Hwf Hp1 Hv1 H19) as (b1 & E1 & W1 & C1).
  destruct (update_neighbors_cells b p2 v2 Hwf Hp2 Hv2 H29) as (b2 & E2 & W2 & C2).
  assert (K12 : cell_at b1 p2 = cell_at b p2).
  { apply (update_neighbors_keeps_clue b p1 v1); try done.
    by apply (py_int_assigned _ v2). }
  assert (K21 : cell_at b2 p1 = cell_at b p1).
  { apply (update_neighbors_keeps_clue b p2 v2); try done.
    by apply (py_int_assigned _ v1). }
  destruct (update_neighbors_cells b1 p2 v2 W1 Hp2) as (b12 & E12 & W12 & C12);
    [by rewrite K12|done|].
  destruct (update_neighbors_cells b2 p1 v1 W2 Hp1) as (b21 & E21 & W21 & C21);
    [by rewrite K21|done|].
  exists b1, b2, b12. split; [done|]. split; [done|]. split; [done|].
  rewrite E21. f_equal. apply board_ext; [by apply wf_board_shape..|].
  intros q Hq. rewrite (C21 q Hq), (C12 q Hq), (C1 q Hq), (C2 q Hq).
  unfold with_domain. cbn [value up down left right]. f_equal.
  assert (A1 : assigned (cell_at b1 q) = assigned (cell_at b q))
    by (by rewrite (C1 q Hq)).
  assert (A2 : assigned (cell_at b2 q) = assigned (cell_at b q))
    by (by rewrite (C2 q Hq)).
  apply list_eq. intros k.
  destruct (domain (cell_at b q) !! k) as [x|] eqn:Ek.
  - assert (D1 : domain (cell_at b1 q) !! k =
              Some (if negb (assigned (cell_at b q)) && excluded b p1 v1 q k
                    then 0 else x)).
    { rewrite (C1 q Hq). by apply swept_domain_lookup. }
    assert (D2 : domain (cell_at b2 q) !! k =
              Some (if negb (assigned (cell_at b q)) && excluded b p2 v2 q k
                    then 0 else x)).
    { rewrite (C2 q Hq). by apply swept_domain_lookup. }
    rewrite (swept_step_lookup b b2 p1 v1 q k _ K21 A2 D2).
    rewrite (swept_step_lookup b b1 p2 v2 q k _ K12 A1 D1).
    by destruct (negb (assigned (cell_at b q))), (excluded b p1 v1 q k),
      (excluded b p2 v2 q k).
  - apply lookup_ge_None in Ek.
    rewrite !(proj2 (lookup_ge_None _ _)); [done|..];
      rewrite swept_domain_length; [rewrite (C1 q Hq)|rewrite (C2 q Hq)];
      cbn [domain with_domain]; by rewrite swept_domain_length.
Qed.

(** ** A dot past the last column *)

Lemma cell_col_out b i j :
  shape b -> 0 <= i < 9 -> 9 <= j -> cell b i j = Raise IndexError.
Proof.
  intros Hs Hi Hj. unfold cell.
  rewrite getitem_in_range by (destruct Hs as [Hl _]; unfold len; lia). rsimpl.
  pose proof (shape_row b i Hs Hi) as Hr. unfold getitem, index, len. rewrite Hr.
  destruct (Z.leb_spec 0 j); [|lia]. destruct (Z.ltb_spec j (Z.of_nat 9)); [lia|].
  cbn [andb]. destruct (Z.ltb_spec j 0); [lia|]. by rewrite andb_false_r.
Qed.

Lemma set_dots_h_overflow b i j dot :
  shape b -> 0 <= i < 9 -> 8 <= j -> set_dots_h b i j dot = Raise IndexError.
Proof.
  intros Hs Hi Hj. unfold set_dots_h.
  destruct (decide (j = 8)) as [->|Hne].
  - assert (H8 : inr (i, 8)) by (unfold inr; cbn [fst snd]; lia).
    rewrite cell_Ret by done. rsimpl. rewrite set_cell_Ret by done. rsimpl.
    by rewrite cell_col_out by (by apply shape_put || lia).
  - by rewrite cell_col_out by (done || lia).
Qed.

Lemma dots_line_h_result b i j toks :
  shape b -> 0 <= i < 9 -> 0 <= j ->
  (exists b', dots_line set_dots_h b i j toks = Ret b' /\ shape b') \/
  dots_line set_dots_h b i j toks = Raise IndexError.
Proof.
  intros Hs Hi. revert b j Hs. induction toks as [|dot rest IH]; intros b j Hs Hj.
  - left. by exists b.
  - cbn [dots_line]. destruct (String.eqb dot "0"); cbn [negb].
    + apply IH; [done|lia].
    + destruct (Z.lt_ge_cases j 8) as [Hlt|Hge].
      * destruct (set_dots_h_cells b i j dot Hs Hi ltac:(lia)) as (b1 & -> & S1 & _).
        rsimpl. apply IH; [done|lia].
      * right. by rewrite set_dots_h_overflow.
Qed.

Lemma dots_line_h_overflow b i j toks k dot :
  shape b -> 0 <= i < 9 -> 0 <= j ->
  toks !! k = Some dot -> dot <> "0"%string -> 8 <= j + Z.of_nat k ->
  dots_line set_dots_h b i j toks = Raise IndexError.
Proof.
  intros Hs Hi. revert b j k Hs.
  induction toks as [|d rest IH]; intros b j k Hs Hj Hk Hne Hge; [done|].
  cbn [dots_line]. destruct k as [|k].
  - injection Hk as ->. destruct (String.eqb_spec dot "0"); [done|]. cbn [negb].
    by rewrite set_dots_h_overflow by (done || lia).
  - cbn [lookup list_lookup] in Hk.
    destruct (String.eqb d "0"); cbn [negb].
    + apply (IH b (j + 1) k); [done|lia|done..|lia].
    + destruct (Z.lt_ge_cases j 8) as [Hlt|Hge'].
      * destruct (set_dots_h_cells b i j d Hs Hi ltac:(lia)) as (b1 & -> & S1 & _).
        rsimpl. apply (IH b1 (j + 1) k); [done|lia|done..|lia].
      * by rewrite set_dots_h_overflow.
Qed.

Lemma dots_lines_h_overflow b hdots rows i k dot :
  shape b -> Forall (fun r => 0 <= r < 9) rows -> i ∈ rows ->
  tokens hdots i !! k = Some dot -> dot <> "0"%string -> (8 <= k)%nat ->
  dots_lines set_dots_h b hdots rows = Raise IndexError.
Proof.
  intros Hs Hrows Hi Hk Hne Hge. revert b Hs.
  induction rows as [|r rest IH]; intros b Hs; [by apply elem_of_nil in Hi|].
  apply Forall_cons in Hrows as [Hr Hrows]. cbn [dots_lines].
  destruct (decide (r = i)) as [->|Hri].
  - by rewrite (dots_line_h_overflow b i 0 _ k dot) by (done || lia).
  - apply elem_of_cons in Hi as [->|Hi]; [done|].
    destruct (dots_line_h_result b r 0 (tokens hdots r) Hs Hr ltac:(lia))
      as [(b1 & -> & S1)| ->]; [|done].
    rsimpl. by apply IH.
Qed.

Lemma parse_file_h_overflow vals hdots vdots i k dot :
  (forall r, 0 <= r < 9 -> length (tokens vals r) = 9%nat) ->
  0 <= i < 9 -> tokens hdots i !! k = Some dot -> dot <> "0"%string ->
  (8 <= k)%nat ->
  parse_file vals hdots vdots = Raise IndexError.
Proof.
  intros Hvals Hi Hk Hne Hge.
  destruct (blank_board_cells vals hdots vdots Hvals) as [S0 _].
  unfold parse_file.
  rewrite (dots_lines_h_overflow _ hdots (range 0 NUM_ROWS) i k dot); try done.
  - apply Forall_forall. intros r Hr. apply elem_of_range in Hr.
    unfold NUM_ROWS in Hr. lia.
  - apply elem_of_range. unfold NUM_ROWS. lia.
Qed.

(** ** [remove_inferences] on any change record *)

Lemma with_domain_twice c d d' : with_domain (with_domain c d) d' = with_domain c d'.
Proof. done. Qed.

Lemma remove_inferences_cells b original :
  shape b -> Forall (fun e : Z * Z * list Z => inr e.1) original ->
  exists b', remove_inferences b original = Ret b' /\ shape b' /\
    forall q, inr q ->
      cell_at b' q =
        match saved_domain original q with
        | Some d => with_domain (cell_at b q) d
        | None => cell_at b q
        end.
Proof.
  intros Hs Hin. revert b Hs.
  induction original as [|[[i j] d] rest IH]; intros b Hs.
  - exists b. split; [done|]. split; [done|]. by intros q Hq.
  - apply Forall_cons in Hin as [Hp Hin]. cbn [fst] in Hp.
    cbn [remove_inferences]. rewrite (set_domain_Ret b (i, j)) by done. rsimpl.
    set (b1 := put b (i, j) _).
    destruct (IH Hin b1) as (b' & E & Hs' & Hc); [by apply shape_put|].
    rewrite E. exists b'. split; [done|]. split; [done|].
    intros q Hq. rewrite (Hc q Hq). unfold saved_domain, b1.
    rewrite cell_at_put by done. rewrite filter_cons. cbn [fst].
    destruct (decide ((i, j) = q)) as [<-|Hne].
    + rewrite last_cons.
      destruct (last (filter _ rest)) as [[q' d']|];
        cbn [fmap option_fmap option_map snd]; done.
    + by destruct (last (filter _ rest)) as [[q' d']|].
Qed.

(** ** The search needs no more nested calls than there are open cells *)

Lemma backtrack_depth b :
  wf_board b = true ->
  exists r, backtrack (S (unassigned_count b)) b = Ret r /\
            backtracking_search b = Ret r.
Proof.
  intros Hwf.
  destruct (backtrack_total (S (unassigned_count b)) b Hwf ltac:(lia)) as [r E].
  exists r. split; [done|]. unfold backtracking_search.
  apply (backtrack_fuel_mono (S (unassigned_count b))); [|done].
  pose proof (unassigned_count_le b). lia.
Qed.

(** ** A sweep of a cell that holds no value *)

Lemma zero_entry_last b p :
  wf_board b = true -> inr p ->
  zero_entry b p.1 p.2 (0 - 1) = zero_entry b p.1 p.2 (9 - 1).
Proof.
  intros Hwf Hp. pose proof (wf_board_shape b Hwf) as Hs.
  rewrite (zero_entry_Ret b p (9 - 1)) by (done || lia).
  unfold zero_entry. rewrite (cell_Ret b) by (done || by destruct p). rsimpl.
  replace (p.1, p.2) with p by (by destruct p).
  pose proof (wf_domain_len b p Hwf Hp) as Hlen.
  unfold setitem, index. rewrite Hlen.
  change ((0 <=? 0 - 1) && (0 - 1 <? 9)) with false.
  change ((- (9) <=? 0 - 1) && (0 - 1 <? 0)) with true.
  change (Z.to_nat (9 + (0 - 1))) with (Z.to_nat (9 - 1)). rsimpl.
  rewrite (set_cell_Ret b p.1 p.2) by (done || by destruct p).
  by replace (p.1, p.2) with p by (by destruct p).
Qed.

Lemma clear_loop_last b ps :
  wf_board b = true -> Forall inr ps -> clear_loop b 0 ps = clear_loop b 9 ps.
Proof.
  intros Hwf Hin. revert b Hwf. induction ps as [|[k l] rest IH]; intros b Hwf; [done|].
  apply Forall_cons in Hin as [Hp Hin]. cbn [clear_loop].
  rewrite cell_Ret by (by apply wf_board_shape || done). rsimpl.
  destruct (assigned (cell_at b (k, l))) eqn:Ha; [by apply IH|].
  pose proof (zero_entry_last b (k, l) Hwf Hp) as Hz. cbn [fst snd] in Hz.
  rewrite Hz. rewrite (zero_entry_Ret b (k, l)) by (done || lia). rsimpl.
  apply IH; [done|]. eapply prunes_wf; [done|]. by apply zero_entry_prunes.
Qed.

Lemma update_neighbors_unassigned b p :
  wf_board b = true -> inr p -> unassigned_at b p ->
  exists b', update_neighbors b p.1 p.2 = Ret b' /\ prunes (peers p) b b' /\
    forall q, q ∈ peers p -> unassigned_at b q ->
      domain (cell_at b' q) !! 8%nat = Some 0.
Proof.
  intros Hwf Hp Hu. pose proof (wf_board_shape b Hwf) as Hs.
  pose proof (peers_inr p Hp) as Hin.
  assert (Hinr : forall q, q ∈ peers p -> inr q).
  { intros q Hq. rewrite Forall_forall in Hin. by apply Hin. }
  assert (H9 : 1 <= 9 <= 9) by lia.
  unfold peers in Hin.
  apply Forall_app in Hin as [Hin1 Hin23]. apply Forall_app in Hin23 as [Hin2 Hin3].
  unfold update_neighbors.
  rewrite (cell_Ret b) by (done || by destruct p). rsimpl.
  replace (p.1, p.2) with p by (by destruct p).
  apply unassigned_value in Hu as Hv. rewrite Hv.
  change (py_int "0") with (Ret (A := Z) 0). rsimpl.
  rewrite clear_loop_last by done.
  destruct (clear_loop_spec b 9 _ Hwf H9 Hin1) as (b1 & E1 & P1 & T1).
  rewrite E1. rsimpl.
  assert (S1 : prunes (peers p) b b1) by exact (prunes_mono _ _ _ _ (peers_row p) P1).
  assert (Hwf1 : wf_board b1 = true) by (by eapply prunes_wf).
  rewrite clear_loop_last by done.
  destruct (clear_loop_spec b1 9 _ Hwf1 H9 Hin2) as (b2 & E2 & P2 & T2).
  rewrite E2. rsimpl.
  assert (S2 : prunes (peers p) b1 b2) by exact (prunes_mono _ _ _ _ (peers_col p) P2).
  assert (Hwf2 : wf_board b2 = true) by (by eapply prunes_wf).
  rewrite clear_loop_last by done.
  destruct (clear_loop_spec b2 9 _ Hwf2 H9 Hin3) as (b3 & E3 & P3 & T3).
  rewrite E3. rsimpl.
  assert (S3 : prunes (peers p) b2 b3) by exact (prunes_mono _ _ _ _ (peers_box p) P3).
  assert (Hwf3 : wf_board b3 = true) by (by eapply prunes_wf).
  rewrite (cell_Ret b3) by (by destruct p, S3). rsimpl.
  replace (p.1, p.2) with p by (by destruct p).
  assert (Hirr : p ∉ peers p) by (by apply peers_irrefl).
  destruct (dot_clear_spec b3 p 0 U Hwf3 Hp) as (b4 & E4 & S4 & _).
  cbn [dot_of neighbour fst snd] in E4. rewrite E4. rsimpl.
  assert (Hwf4 : wf_board b4 = true) by (by eapply prunes_wf).
  assert (C4 : cell_at b4 p = cell_at b3 p) by (by eapply prunes_outside).
  destruct (dot_clear_spec b4 p 0 D Hwf4 Hp) as (b5 & E5 & S5 & _).
  rewrite C4 in E5. cbn [dot_of neighbour fst snd] in E5. rewrite E5. rsimpl.
  assert (Hwf5 : wf_board b5 = true) by (by eapply prunes_wf).
  assert (C5 : cell_at b5 p = cell_at b3 p).
  { rewrite <- C4. by eapply prunes_outside. }
  destruct (dot_clear_spec b5 p 0 L Hwf5 Hp) as (b6 & E6 & S6 & _).
  rewrite C5 in E6. cbn [dot_of neighbour fst snd] in E6. rewrite E6. rsimpl.
  assert (Hwf6 : wf_board b6 = true) by (by eapply prunes_wf).
  assert (C6 : cell_at b6 p = cell_at b3 p).
  { rewrite <- C5. by eapply prunes_outside. }
  destruct (dot_clear_spec b6 p 0 R Hwf6 Hp) as (b7 & E7 & S7 & _).
  rewrite C6 in E7. cbn [dot_of neighbour fst snd] in E7. rewrite E7.
  exists b7. split; [done|].
  assert (A3 : prunes (peers p) b b3).
  { eapply prunes_trans; [|exact S3]. eapply prunes_trans; [|exact S2]. exact S1. }
  assert (A7 : prunes (peers p) b3 b7).
  { eapply prunes_trans; [|exact S7]. eapply prunes_trans; [|exact S6].
    eapply prunes_trans; [|exact S5]. exact S4. }
  split; [by eapply prunes_trans|].
  intros q Hq Huq. pose proof (Hinr q Hq) as Hqi.
  apply (prunes_zero _ _ _ _ _ A7 Hqi).
  pose proof (proj1 (prunes_unassigned _ _ _ _ S1 Hqi) Huq) as Hu1.
  pose proof (proj1 (prunes_unassigned _ _ _ _ S2 Hqi) Hu1) as Hu2.
  unfold peers in Hq. rewrite !elem_of_app in Hq. destruct Hq as [Hq|[Hq|Hq]].
  - apply (prunes_zero _ _ _ _ _ S3 Hqi), (prunes_zero _ _ _ _ _ S2 Hqi).
    by apply (T1 q).
  - apply (prunes_zero _ _ _ _ _ S3 Hqi). by apply (T2 q).
  - by apply (T3 q).
Qed.

(** * Further properties of the code *)

(** ** Pruning: [update_neighbors] and [forward_check] *)

(** X1 ([forward_check], [update_neighbors]): when [forward_check] reports
    consistency, the board it leaves is the board [update_neighbors] leaves
    on the same board and cell: the two differ only in the change record and
    in the test for empty domains. *)
Theorem forward_check_update_neighbors b i j b' original :
  forward_check b i j = Ret (b', true, original) ->
  update_neighbors b i j = Ret b'.
Proof.
  unfold forward_check, update_neighbors. intros H.
  apply bind_inv in H as (o1 & _ & H). apply bind_inv in H as (o2 & _ & H).
  apply bind_inv in H as (o3 & _ & H). apply bind_inv in H as (var & -> & H).
  rsimpl. apply bind_inv in H as (valint & -> & H). rsimpl.
  apply and_then_true in H as (b1 & E1 & H).
  rewrite (prune_loop_clear_loop _ _ _ _ E1). rsimpl.
  apply and_then_true in H as (b2 & E2 & H).
  rewrite (prune_loop_clear_loop _ _ _ _ E2). rsimpl.
  apply and_then_true in H as (b3 & E3 & H).
  rewrite (prune_loop_clear_loop _ _ _ _ E3). rsimpl.
  apply bind_inv in H as (var' & -> & H). rsimpl.
  apply and_then_true in H as (b4 & E4 & H).
  rewrite (dot_prune_dot_clear _ _ _ _ _ _ _ E4). rsimpl.
  apply and_then_true in H as (b5 & E5 & H).
  rewrite (dot_prune_dot_clear _ _ _ _ _ _ _ E5). rsimpl.
  apply and_then_true in H as (b6 & E6 & H).
  rewrite (dot_prune_dot_clear _ _ _ _ _ _ _ E6). rsimpl.
  apply and_then_true in H as (b7 & E7 & H).
  rewrite (dot_prune_dot_clear _ _ _ _ _ _ _ E7).
  by injection H as <-.
Qed.

Lemma forward_check_update_neighbors_witness :
  update_neighbors (assign open_board (0, 0) 1) 0 0
  = Ret (checked_board (forward_check (assign open_board (0, 0) 1) 0 0)).
Proof.
  apply (forward_check_update_neighbors _ 0 0 _
           (snapshot (assign open_board (0, 0) 1) (peers (0, 0)))).
  by vm_compute.
Defined.

(** X2 ([update_neighbors]): on a well-formed board and a cell holding the
    digit [v], [update_neighbors] returns, and the board it leaves is known
    cell by cell: in an unassigned cell exactly the entries the sweep
    excludes (the digit [v] in the row, column and box of the cell, and behind
    a dot the digits the dot does not allow next to [v]) are 0; every other
    entry, every value and every dot field is as before. *)
Theorem update_neighbors_exact b p v :
  wf_board b = true -> inr p ->
  py_int (value (cell_at b p)) = Ret v -> 1 <= v <= 9 ->
  exists b', update_neighbors b p.1 p.2 = Ret b' /\ wf_board b' = true /\
    forall q, inr q ->
      cell_at b' q = with_domain (cell_at b q) (swept_domain b p v q).
Proof. apply update_neighbors_cells. Qed.

Lemma update_neighbors_exact_witness :
  exists b', update_neighbors (assign open_board (0, 0) 1) 0 0 = Ret b' /\
    wf_board b' = true /\
    forall q, inr q ->
      cell_at b' q = with_domain (cell_at (assign open_board (0, 0) 1) q)
                       (swept_domain (assign open_board (0, 0) 1) (0, 0) 1 q).
Proof.
  apply (update_neighbors_exact (assign open_board (0, 0) 1) (0, 0) 1).
  - by vm_compute.
  - unfold inr. simpl. lia.
  - by vm_compute.
  - lia.
Defined.

(** X3 ([update_neighbors]): sweeping the same clue twice changes nothing
    more: on the board a sweep leaves, the same sweep returns that board. *)
Theorem update_neighbors_idempotent b p v b' :
  wf_board b = true -> inr p ->
  py_int (value (cell_at b p)) = Ret v -> 1 <= v <= 9 ->
  update_neighbors b p.1 p.2 = Ret b' ->
  update_neighbors b' p.1 p.2 = Ret b'.
Proof. apply update_neighbors_idem. Qed.

Lemma update_neighbors_idempotent_witness :
  update_neighbors (board_of (update_neighbors (assign open_board (0, 0) 1) 0 0)) 0 0
  = Ret (board_of (update_neighbors (assign open_board (0, 0) 1) 0 0)).
Proof.
  apply (update_neighbors_idempotent (assign open_board (0, 0) 1) (0, 0) 1).
  - by vm_compute.
  - unfold inr. simpl. lia.
  - by vm_compute.
  - lia.
  - by vm_compute.
Defined.

(** X4 ([update_neighbors]): the sweeps of two clues commute: sweeping the
    cell [p1] and then the cell [p2] leaves the board that sweeping [p2] and
    then [p1] leaves. *)
Theorem update_neighbors_commute b p1 p2 v1 v2 :
  wf_board b = true -> inr p1 -> inr p2 ->
  py_int (value (cell_at b p1)) = Ret v1 -> 1 <= v1 <= 9 ->
  py_int (value (cell_at b p2)) = Ret v2 -> 1 <= v2 <= 9 ->
  exists b1 b2 b',
    update_neighbors b p1.1 p1.2 = Ret b1 /\
    update_neighbors b p2.1 p2.2 = Ret b2 /\
    update_neighbors b1 p2.1 p2.2 = Ret b' /\
    update_neighbors b2 p1.1 p1.2 = Ret b'.
Proof. apply update_neighbors_comm. Qed.

Lemma update_neighbors_commute_witness :
  exists b1 b2 b',
    update_neighbors (assign open_board (0, 0) 1) 0 0 = Ret b1 /\
    update_neighbors (assign open_board (0, 0) 1) 0 2 = Ret b2 /\
    update_neighbors b1 0 2 = Ret b' /\
    update_neighbors b2 0 0 = Ret b'.
Proof.
  apply (update_neighbors_commute (assign open_board (0, 0) 1) (0, 0) (0, 2) 1 3).
  - by vm_compute.
  - unfold inr. simpl. lia.
  - unfold inr. simpl. lia.
  - by vm_compute.
  - lia.
  - by vm_compute.
  - lia.
Defined.

(** X5 ([forward_check]): whatever flag [forward_check] returns, a domain
    entry of the board it leaves either is the entry it was, or is an entry
    of an unassigned cell that the sweep excludes and is now 0.  Forward
    checking never removes a digit that is compatible with the assignment,
    also when it stops early. *)
Theorem forward_check_removes_only_excluded b p v b' ok original :
  wf_board b = true -> inr p ->
  py_int (value (cell_at b p)) = Ret v -> 1 <= v <= 9 ->
  forward_check b p.1 p.2 = Ret (b', ok, original) ->
  forall q k, inr q ->
    domain (cell_at b' q) !! k = domain (cell_at b q) !! k \/
    (unassigned_at b q /\ excluded b p v q k = true /\
     domain (cell_at b' q) !! k = Some 0).
Proof.
  intros Hwf Hp Hv Hv9 E q k Hq.
  destruct (forward_check_keeps b p v b' ok original Hwf Hp Hv Hv9 E)
    as (_ & [_ P] & K).
  destruct (P q Hq) as (_ & [Hlen Hn] & Has).
  destruct (excluded b p v q k) eqn:Ex.
  - destruct (assigned (cell_at b q)) eqn:Ha.
    + left. rewrite Has; [done|by right].
    + destruct (domain (cell_at b' q) !! k) as [x|] eqn:Ek.
      * destruct (Hn k x Ek) as [->|E']; [by right|by left].
      * left. symmetry. apply lookup_ge_None. apply lookup_ge_None in Ek. lia.
  - left. apply K; [done|]. by rewrite Ex.
Qed.

Lemma forward_check_removes_only_excluded_witness :
  forward_check (assign dead_end_board (0, 0) 1) 0 0
  = Ret (checked_board (forward_check (assign dead_end_board (0, 0) 1) 0 0),
         false, snapshot (assign dead_end_board (0, 0) 1) (peers (0, 0))) /\
  forall q k, inr q ->
    domain (cell_at (checked_board (forward_check (assign dead_end_board (0, 0) 1) 0 0)) q) !! k
    = domain (cell_at (assign dead_end_board (0, 0) 1) q) !! k \/
    (unassigned_at (assign dead_end_board (0, 0) 1) q /\
     excluded (assign dead_end_board (0, 0) 1) (0, 0) 1 q k = true /\
     domain (cell_at (checked_board (forward_check (assign dead_end_board (0, 0) 1) 0 0)) q) !! k
     = Some 0).
Proof.
  split; [by vm_compute|].
  apply (forward_check_removes_only_excluded (assign dead_end_board (0, 0) 1)
           (0, 0) 1 _ false
           (snapshot (assign dead_end_board (0, 0) 1) (peers (0, 0)))).
  - by vm_compute.
  - unfold inr. simpl. lia.
  - by vm_compute.
  - lia.
  - by vm_compute.
Defined.

(** ** Reading the input: [parse_file] *)

(** X6 ([parse_file]): on a well-formed input [parse_file] returns a
    well-formed, propagated board that is known cell by cell: the value is the
    one given, the four dot fields are the dots the input puts on the four
    sides (so both cells of an edge hold the same dot), and digit [k + 1] is
    missing from the domain exactly when the cell is unassigned and one of the
    given clues excludes it. *)
Theorem parse_file_spec vals hdots vdots :
  wf_input vals hdots vdots = true ->
  exists b, parse_file vals hdots vdots = Ret b /\ wf_board b = true /\
    propagated b /\
    forall q, inr q ->
      cell_at b q =
        with_domain (given_cell vals hdots vdots q)
          (imap (fun k x =>
                   if negb (assigned (given_cell vals hdots vdots q))
                      && excluded_by b scan q k
                   then 0 else x) DOMAIN).
Proof.
  intros Hin.
  destruct (read_board_given vals hdots vdots Hin) as (b0 & E0 & W0 & C0).
  destruct (sweep_loop_cells b0 scan W0 scan_all_inr) as (b & E & W & P & C).
  destruct (initial_sweep_spec b0 W0) as (b' & E' & _ & _ & Hprop).
  unfold initial_sweep in E'. assert (b' = b) as -> by congruence.
  exists b. split.
  { rewrite parse_file_read, E0. exact E. }
  split; [done|]. split; [done|]. intros q Hq.
  pose proof P as [_ P']. destruct (P' q Hq) as (Hc & _).
  rewrite Hc, (C q Hq), (C0 q Hq). f_equal. apply imap_ext. intros k x _.
  by rewrite (excluded_by_prunes _ _ _ _ q k P scan_all_inr).
Qed.

Lemma parse_file_spec_witness :
  exists b, parse_file open_clues some_hdots no_vdots = Ret b /\
    wf_board b = true /\ propagated b /\
    forall q, inr q ->
      cell_at b q =
        with_domain (given_cell open_clues some_hdots no_vdots q)
          (imap (fun k x =>
                   if negb (assigned (given_cell open_clues some_hdots no_vdots q))
                      && excluded_by b scan q k
                   then 0 else x) DOMAIN).
Proof.
  apply (parse_file_spec open_clues some_hdots no_vdots). by vm_compute.
Defined.

(** X7 ([parse_file]): a line of horizontal dots may hold a ninth token,
    but a ninth or later token other than "0" makes [parse_file] raise
    [IndexError]: the dot is written to a cell to the right of the last
    column. *)
Theorem parse_file_dot_overflow vals hdots vdots i k dot :
  nine_by_nine vals = true ->
  0 <= i < 9 -> tokens hdots i !! k = Some dot -> dot <> "0"%string ->
  (8 <= k)%nat ->
  parse_file vals hdots vdots = Raise IndexError.
Proof.
  intros Hvals. apply parse_file_h_overflow. intros r Hr.
  unfold nine_by_nine in Hvals. rewrite forallb_forall in Hvals.
  specialize (Hvals r). rewrite <- list_elem_of_In in Hvals.
  specialize (Hvals (proj2 (elem_of_range 0 9 r) Hr)).
  by apply bool_decide_eq_true in Hvals.
Qed.

Lemma parse_file_dot_overflow_witness :
  parse_file open_clues long_hdots no_vdots = Raise IndexError.
Proof.
  apply (parse_file_dot_overflow open_clues long_hdots no_vdots 0 8 "1").
  - by vm_compute.
  - lia.
  - reflexivity.
  - done.
  - lia.
Defined.

(** ** The search *)

(** X8 ([backtracking_search]): the search is complete.  On a well-formed
    board that some solution of the puzzle fits, [backtracking_search]
    returns a board with every cell assigned; so it returns [False] only when
    no solution fits the board. *)
Theorem backtracking_search_complete sol b :
  wf_board b = true -> fits sol b ->
  exists b', backtracking_search b = Ret (b', true) /\ complete b' = true.
Proof.
  intros Hwf Hfit. unfold backtracking_search.
  destruct (backtrack_finds sol 82 b Hwf Hfit) as (b' & E).
  { pose proof (unassigned_count_le b). lia. }
  exists b'. split; [done|]. by apply (backtrack_returns_complete 82 b).
Qed.

Lemma backtracking_search_complete_witness :
  exists b', backtracking_search open_board = Ret (b', true) /\ complete b' = true.
Proof.
  apply (backtracking_search_complete (val_at open_solution) open_board).
  - by vm_compute.
  - apply fitsb_spec. by vm_compute.
Defined.

(** X9 ([backtracking_search]): a board returned by the search extends the
    board the search started from: every value that was assigned is kept,
    every value filled in was in the domain its cell had at the start, and
    the domains have only lost values. *)
Theorem backtracking_search_extends b b' :
  wf_board b = true -> backtracking_search b = Ret (b', true) ->
  forall p, inr p ->
    (~ unassigned_at b p -> value (cell_at b' p) = value (cell_at b p)) /\
    (unassigned_at b p -> candidate b p (val_at b' p)) /\
    narrowed (domain (cell_at b p)) (domain (cell_at b' p)).
Proof.
  intros Hwf E p Hp. unfold backtracking_search in E.
  destruct (backtrack_extends 82 b b' Hwf E p Hp) as (_ & Hn & Hv & Hc). done.
Qed.

Lemma backtracking_search_extends_witness :
  backtracking_search open_board = Ret (open_solution, true) /\
  forall p, inr p ->
    (~ unassigned_at open_board p ->
     value (cell_at open_solution p) = value (cell_at open_board p)) /\
    (unassigned_at open_board p -> candidate open_board p (val_at open_solution p)) /\
    narrowed (domain (cell_at open_board p)) (domain (cell_at open_solution p)).
Proof.
  split; [by vm_compute|].
  apply (backtracking_search_extends open_board open_solution).
  - by vm_compute.
  - by vm_compute.
Defined.

(** X10 ([backtracking_search]): on a well-formed board whose given values
    do not conflict and have been propagated, the search returns a board
    exactly when some solution fits the board it is given, and the board it
    returns is such a solution. *)
Theorem backtracking_search_succeeds_iff b :
  wf_board b = true -> conflict_free b -> propagated b ->
  (forall b', backtracking_search b = Ret (b', true) -> fits (val_at b') b) /\
  ((exists b', backtracking_search b = Ret (b', true)) <-> exists sol, fits sol b).
Proof.
  intros Hwf Hcf Hprop.
  assert (Hfit : forall b', backtracking_search b = Ret (b', true) ->
            fits (val_at b') b).
  { intros b' E. unfold backtracking_search in E.
    destruct (backtrack_sound 82 b b' Hwf Hcf Hprop E) as (W' & Hcf' & Hc).
    apply solved_fits; [by apply complete_solved|].
    by apply (backtrack_extends 82). }
  split; [done|]. split.
  - intros [b' E]. exists (val_at b'). by apply Hfit.
  - intros [sol Hsol]. unfold backtracking_search.
    apply (backtrack_finds sol); [done..|].
    pose proof (unassigned_count_le b). lia.
Qed.

Lemma backtracking_search_succeeds_iff_witness :
  (forall b', backtracking_search open_board = Ret (b', true) ->
     fits (val_at b') open_board) /\
  ((exists b', backtracking_search open_board = Ret (b', true)) <->
   exists sol, fits sol open_board).
Proof.
  apply (backtracking_search_succeeds_iff open_board).
  - by vm_compute.
  - apply clues_consistent_spec; by vm_compute.
  - apply swept_spec; by vm_compute.
Defined.

(** X11 ([parse_file], [backtracking_search]): reading and solving is
    complete.  When the input is well formed and the puzzle it describes has
    a solution, [parse_file] returns a board, [backtracking_search] on that
    board returns a solved grid, and the grid holds every given value and
    every dot of the input. *)
Theorem parse_then_search_complete sol vals hdots vdots :
  wf_input vals hdots vdots = true -> solves sol vals hdots vdots ->
  exists b b', parse_file vals hdots vdots = Ret b /\
    backtracking_search b = Ret (b', true) /\ solved b' /\
    forall q, inr q ->
      (tok_at vals q <> "0"%string -> value (cell_at b' q) = tok_at vals q) /\
      dots (cell_at b' q) = dots (given_cell vals hdots vdots q).
Proof.
  intros Hin Hsol.
  destruct (read_board_given vals hdots vdots Hin) as (b0 & E0 & W0 & C0).
  pose proof (solves_fits sol vals hdots vdots b0 C0 Hsol) as Hfit0.
  destruct (initial_sweep_fits sol b0 W0 Hfit0) as (b & E & W & Hfit & Hprop).
  destruct (initial_sweep_spec b0 W0) as (b1 & E1 & _ & P & _).
  assert (b1 = b) as -> by congruence.
  destruct (backtrack_finds sol 82 b W Hfit) as (b' & E').
  { pose proof (unassigned_count_le b). lia. }
  exists b, b'. split.
  { by rewrite parse_file_read, E0. }
  split; [done|].
  destruct (backtrack_sound 82 b b' W (fits_conflict_free sol b Hfit) Hprop E')
    as (W' & Hcf & Hc).
  split; [by apply complete_solved|]. intros q Hq.
  destruct (backtrack_extends 82 b b' W E' q Hq) as (Hd & _ & Hv & _).
  split.
  - intros Hne. rewrite Hv, (prunes_value _ _ _ _ P Hq), (C0 q Hq); [done|].
    intros Hu. apply (prunes_unassigned _ _ _ _ P Hq) in Hu.
    apply unassigned_value in Hu. by rewrite (C0 q Hq) in Hu.
  - by rewrite Hd, (prunes_dots _ _ _ _ P Hq), (C0 q Hq).
Qed.

Lemma parse_then_search_complete_witness :
  exists b b', parse_file open_clues some_hdots no_vdots = Ret b /\
    backtracking_search b = Ret (b', true) /\ solved b' /\
    forall q, inr q ->
      (tok_at open_clues q <> "0"%string ->
       value (cell_at b' q) = tok_at open_clues q) /\
      dots (cell_at b' q) = dots (given_cell open_clues some_hdots no_vdots q).
Proof.
  apply (parse_then_search_complete (val_at open_solution)).
  - by vm_compute.
  - apply solvesb_spec. by vm_compute.
Defined.

(** X12 ([backtracking_search]): searching again changes nothing: on a board
    the search has returned, the search returns that board. *)
Theorem backtracking_search_idempotent b b' :
  wf_board b = true -> backtracking_search b = Ret (b', true) ->
  backtracking_search b' = Ret (b', true).
Proof. apply backtracking_search_again. Qed.

Lemma backtracking_search_idempotent_witness :
  backtracking_search open_solution = Ret (open_solution, true).
Proof.
  apply (backtracking_search_idempotent open_board open_solution).
  - by vm_compute.
  - by vm_compute.
Defined.

(** ** The smaller functions *)

(** X13 ([box_indexes]): for every position, also one outside the grid,
    [box_indexes] lists nine different positions, and a position is listed
    exactly when it lies in the same 3x3 box. *)
Theorem box_indexes_spec i j :
  length (box_indexes i j) = 9%nat /\ NoDup (box_indexes i j) /\
  forall q, q ∈ box_indexes i j <->
    q.1 `div` 3 = i `div` 3 /\ q.2 `div` 3 = j `div` 3.
Proof.
  split; [done|]. split; [apply box_indexes_NoDup|].
  intros q. apply box_indexes_elem.
Qed.

(** X14 ([dot_remains]): for a dot and a digit [v], [dot_remains] returns
    exactly the digits that stand in the relation of the dot to [v], and the
    relation it computes is symmetric: [x] remains next to [v] exactly when
    [v] remains next to [x]. *)
Theorem dot_remains_relation_symmetric dot v :
  dot ∈ dot_types -> dot <> "0"%string -> 1 <= v <= 9 ->
  exists remain, dot_remains dot v = Ret remain /\
    (forall x, py_in x remain = true <-> 1 <= x <= 9 /\ dot_holds dot v x) /\
    (forall x remain', 1 <= x <= 9 -> dot_remains dot x = Ret remain' ->
       py_in x remain = py_in v remain').
Proof.
  intros Hd Hne Hv.
  destruct (dot_remains_relation dot v Hd Hne Hv) as (remain & Hrem & Hrel).
  exists remain. split; [done|]. split; [done|].
  intros x remain' Hx Hrem'. by apply (dot_remains_sym dot v x remain remain').
Qed.

Lemma dot_remains_relation_symmetric_witness :
  exists remain, dot_remains "2" 4 = Ret remain /\
    (forall x, py_in x remain = true <-> 1 <= x <= 9 /\ dot_holds "2" 4 x) /\
    (forall x remain', 1 <= x <= 9 -> dot_remains "2" x = Ret remain' ->
       py_in x remain = py_in 4 remain').
Proof.
  apply (dot_remains_relation_symmetric "2" 4).
  - unfold dot_types. rewrite !elem_of_cons. tauto.
  - done.
  - lia.
Defined.

(** X15 ([select_variable], [assignment_complete]): on a 9x9 board
    [assignment_complete] returns whether every cell is assigned, and
    [select_variable] returns [None] exactly on the boards on which
    [assignment_complete] returns [True]. *)
Theorem select_variable_none_iff_complete b :
  shape b ->
  assignment_complete b = Ret (complete b) /\
  (select_variable b = Ret None <-> assignment_complete b = Ret true).
Proof.
  intros Hs. rewrite (assignment_complete_spec b Hs). split; [done|].
  rewrite (select_variable_none b Hs). split; [by intros ->|by intros [= ->]].
Qed.

Lemma select_variable_none_iff_complete_witness :
  assignment_complete open_solution = Ret (complete open_solution) /\
  (select_variable open_solution = Ret None <->
   assignment_complete open_solution = Ret true).
Proof.
  apply (select_variable_none_iff_complete open_solution).
  apply wf_board_shape. by vm_compute.
Defined.

(** X16 ([unassigned_neighbors_count]): the degree of a cell is the number
    of unassigned cells that share its row, column or box, each counted once
    (a cell of the box that lies in the row or column is not counted again),
    so it lies between 0 and 20. *)
Theorem unassigned_neighbors_count_once b p :
  shape b -> inr p ->
  exists n, unassigned_neighbors_count b p.1 p.2 = Ret n /\
    n = unit_degree b p /\ 0 <= n <= 20.
Proof. apply unassigned_neighbors_count_range. Qed.

Lemma unassigned_neighbors_count_once_witness :
  exists n, unassigned_neighbors_count open_board 0 0 = Ret n /\
    n = unit_degree open_board (0, 0) /\ 0 <= n <= 20.
Proof.
  apply (unassigned_neighbors_count_once open_board (0, 0)).
  - apply wf_board_shape. by vm_compute.
  - unfold inr. simpl. lia.
Defined.

(** X17 ([Variable.remaining_value_count]): on a well-formed board the
    count of remaining values of a cell is the number of digits from 1 to 9
    whose domain entry is not 0. *)
Theorem remaining_value_count_candidates b p :
  wf_board b = true -> inr p ->
  remaining_value_count (cell_at b p)
  = Z.of_nat (length (filter (candidate b p) (range 1 10))).
Proof. apply count_candidates. Qed.

Lemma remaining_value_count_candidates_witness :
  remaining_value_count (cell_at open_board (0, 0))
  = Z.of_nat (length (filter (candidate open_board (0, 0)) (range 1 10))).
Proof.
  apply (remaining_value_count_candidates open_board (0, 0)).
  - by vm_compute.
  - unfold inr. simpl. lia.
Defined.

(** X18 ([remove_inferences]): for any change record over positions of the
    grid, [remove_inferences] returns, and the board it leaves is known cell
    by cell: a cell the record names gets the domain of its last entry in the
    record, every other cell, every value and every dot field is as
    before. *)
Theorem remove_inferences_last_wins b original :
  shape b -> Forall (fun e : Z * Z * list Z => inr e.1) original ->
  exists b', remove_inferences b original = Ret b' /\ shape b' /\
    forall q, inr q ->
      cell_at b' q =
        match saved_domain original q with
        | Some d => with_domain (cell_at b q) d
        | None => cell_at b q
        end.
Proof. apply remove_inferences_cells. Qed.

Lemma remove_inferences_last_wins_witness :
  exists b',
    remove_inferences open_board [((0, 0), DOMAIN); ((0, 0), [0; 1; 0; 0; 0; 0; 0; 0; 0])]
    = Ret b' /\ shape b' /\
    forall q, inr q ->
      cell_at b' q =
        match saved_domain [((0, 0), DOMAIN); ((0, 0), [0; 1; 0; 0; 0; 0; 0; 0; 0])] q with
        | Some d => with_domain (cell_at open_board q) d
        | None => cell_at open_board q
        end.
Proof.
  apply (remove_inferences_last_wins open_board).
  - apply wf_board_shape. by vm_compute.
  - repeat constructor; unfold inr; simpl; lia.
Defined.

(** X19 ([backtrack]): the search nests at most one call of [backtrack] per
    unassigned cell: on a well-formed board it returns within one more
    nested call than there are unassigned cells, and so within the 82 that
    [backtracking_search] allows. *)
Theorem backtrack_depth_bound b :
  wf_board b = true ->
  exists r, backtrack (S (unassigned_count b)) b = Ret r /\
            backtracking_search b = Ret r.
Proof. apply backtrack_depth. Qed.

Lemma backtrack_depth_bound_witness :
  exists r, backtrack (S (unassigned_count open_board)) open_board = Ret r /\
            backtracking_search open_board = Ret r.
Proof. apply (backtrack_depth_bound open_board). by vm_compute. Defined.

(** X20 ([update_neighbors]): called for a cell that holds no value, which
    [parse_file] never does, [update_neighbors] does not raise: the value 0
    gives the index -1, the last entry of a domain, so the digit 9 is removed
    from every unassigned cell of the row, column and box. *)
Theorem update_neighbors_unassigned_cell b p :
  wf_board b = true -> inr p -> unassigned_at b p ->
  exists b', update_neighbors b p.1 p.2 = Ret b' /\ prunes (peers p) b b' /\
    forall q, q ∈ peers p -> unassigned_at b q ->
      domain (cell_at b' q) !! 8%nat = Some 0.
Proof. apply update_neighbors_unassigned. Qed.

Lemma update_neighbors_unassigned_cell_witness :
  exists b', update_neighbors open_board 0 0 = Ret b' /\
    prunes (peers (0, 0)) open_board b' /\
    forall q, q ∈ peers (0, 0) -> unassigned_at open_board q ->
      domain (cell_at b' q) !! 8%nat = Some 0.
Proof.
  apply (update_neighbors_unassigned_cell open_board (0, 0)).
  - by vm_compute.
  - unfold inr. simpl. lia.
  - by vm_compute.
Defined.
